(** * The feature-based yeast classifier notebook, embedded in Rocq

    A shallow embedding of [2_deep_learning_for_features.ipynb]: the data
    preparation ([make_dataset]), the two [train_test_split] calls, the
    [DatasetFolder] / [DataLoader] batch iteration, the two-layer network
    [Net], the training loop [train_model] and [print_test_accuracy].

    Conventions.
    - Python and torch floating-point numbers are idealised as exact
      rationals ([Q]): there are no infinities and no NaN among them.  No
      statement below depends on rounding; where the notebook rounds
      explicitly ([astype(np.float32)]) the rounding function is a
      parameter.
    - A Python exception is a value of [exn]; code that can raise lives in
      [result].
    - Framework code whose internals are not part of the notebook
      (StandardScaler, autograd, the optimizer, the scheduler, the loss) is a
      parameter of the section that uses it.  Random generators are modelled
      as the list of their future draws. *)

From Stdlib Require Import List Arith ZArith QArith Qround Qminmax Ascii String.
From Stdlib Require Import Bool.
From Stdlib Require Import Lia Permutation.
Import ListNotations.
Local Open Scope nat_scope.

Set Implicit Arguments.

(** ** Exceptions and the result monad *)

Inductive exn : Type :=
| KeyError
| ValueError
| IndexError
| ZeroDivisionError
| RuntimeError.

Inductive result (A : Type) : Type :=
| Ok (a : A)
| Raise (e : exn).
Arguments Ok {A} a.
Arguments Raise {A} e.

Definition rbind {A B} (m : result A) (k : A -> result B) : result B :=
  match m with
  | Ok a => k a
  | Raise e => Raise e
  end.

Declare Scope result_scope.
Delimit Scope result_scope with result.
Notation "x <- m ;; k" := (rbind m (fun x => k))
  (at level 61, m at next level, right associativity) : result_scope.
Notation "' p <- m ;; k" := (rbind m (fun x => match x with p => k end))
  (at level 61, p pattern, m at next level, right associativity) : result_scope.
Local Open Scope result_scope.

Fixpoint mapM {A B} (f : A -> result B) (l : list A) : result (list B) :=
  match l with
  | [] => Ok []
  | a :: l' => b <- f a ;; bs <- mapM f l' ;; Ok (b :: bs)
  end.

Definition of_option {A} (e : exn) (o : option A) : result A :=
  match o with
  | Some a => Ok a
  | None => Raise e
  end.

(** Stateful code that can raise: a program over a state [S]. *)
Definition prog (S A : Type) : Type := S -> result (A * S).

Definition pret {S A} (a : A) : prog S A := fun s => Ok (a, s).

Definition pbind {S A B} (m : prog S A) (k : A -> prog S B) : prog S B :=
  fun s =>
    match m s with
    | Ok (a, s') => k a s'
    | Raise e => Raise e
    end.

Definition lift {S A} (r : result A) : prog S A :=
  fun s =>
    match r with
    | Ok a => Ok (a, s)
    | Raise e => Raise e
    end.

Definition modify {S} (f : S -> S) : prog S unit := fun s => Ok (tt, f s).

Definition gets {S A} (f : S -> A) : prog S A := fun s => Ok (f s, s).

Declare Scope prog_scope.
Delimit Scope prog_scope with prog.
Notation "x <- m ;; k" := (pbind m (fun x => k))
  (at level 61, m at next level, right associativity) : prog_scope.
Notation "' p <- m ;; k" := (pbind m (fun x => match x with p => k end))
  (at level 61, p pattern, m at next level, right associativity) : prog_scope.
Notation "m ;;; k" := (pbind m (fun _ => k))
  (at level 61, right associativity) : prog_scope.

(** ** The data frame read by pandas *)

(** A cell of the frame [pd.read_csv] returns: a missing value, a number or
    a text. *)
Inductive cell : Type :=
| NaN
| Num (q : Q)
| Str (s : string).

(** The frame: its column names, and its rows (cells in column order; a short
    row reads as missing values, as [read_csv] pads it). *)
Record DataFrame : Type := {
  df_columns : list string;
  df_rows : list (list cell)
}.

Fixpoint col_index (name : string) (cols : list string) : option nat :=
  match cols with
  | [] => None
  | c :: cols' =>
      if String.eqb c name then Some O
      else option_map S (col_index name cols')
  end.

(** [df[names]]: the frame restricted to the listed columns, in the listed
    order; a name that is not a column raises [KeyError]. *)
Definition getitem_columns (df : DataFrame) (names : list string)
  : result DataFrame :=
  idx <- mapM (fun n => of_option KeyError (col_index n (df_columns df)))
              names ;;
  Ok {| df_columns := names;
        df_rows := map (fun r => map (fun i => nth i r NaN) idx)
                       (df_rows df) |}.

(** [df[name]]: one column of the frame. *)
Definition getitem_column (df : DataFrame) (name : string)
  : result (list cell) :=
  i <- of_option KeyError (col_index name (df_columns df)) ;;
  Ok (map (fun r => nth i r NaN) (df_rows df)).

Definition isnull (c : cell) : bool :=
  match c with
  | NaN => true
  | _ => false
  end.

(** [np.sum(row.isnull())] for one row. *)
Definition null_count (r : list cell) : nat :=
  List.length (filter isnull r).

(** [df[np.sum(df.isnull(), axis=1) == 0]] *)
Definition drop_null_rows (df : DataFrame) : DataFrame :=
  {| df_columns := df_columns df;
     df_rows := filter (fun r => null_count r =? 0) (df_rows df) |}.

Section Conversion.

(** Python's [float(s)] on a text [s]: the number the text spells, [None]
    when [float] raises [ValueError] or gives an infinity.  (A text that
    spells a NaN and that [read_csv] does not read as a missing value, such
    as "NAN", has no value among the rationals.) *)
Variable float_of_str : string -> option Q.

(** Conversion of a cell to a float, as the scaler's input validation does
    on a column that holds texts: a number is kept, a text is converted by
    [float], and a text that spells no number, or an infinity, is refused
    with [ValueError].  A missing value does not reach the conversion in
    [make_dataset], which drops the rows that have one. *)
Definition to_float (c : cell) : result Q :=
  match c with
  | Num q => Ok q
  | Str s => of_option ValueError (float_of_str s)
  | NaN => Raise ValueError
  end.

Definition to_float_array (df : DataFrame) : result (list (list Q)) :=
  mapM (mapM to_float) (df_rows df).

End Conversion.

Definition columns : list string :=
  ["C101"; "C103"; "C104"; "C115"; "A101"; "A120"; "A121"; "A122";
   "A123"]%string.

(** The class vector of one group value (the [if]/[elif] chain of
    [make_dataset]). *)
Definition cell_eqb_str (c : cell) (s : string) : bool :=
  match c with
  | Str t => String.eqb t s
  | _ => false
  end.

Definition encode_group (group : cell) : list Z :=
  let y := [0; 0; 0; 0]%Z in
  if cell_eqb_str group "no" then [1; 0; 0; 0]%Z
  else if cell_eqb_str group "small" then [0; 1; 0; 0]%Z
  else if cell_eqb_str group "medium" then [0; 0; 1; 0]%Z
  else if cell_eqb_str group "large" then [0; 0; 0; 1]%Z
  else y.

(** ** Random generators

    A generator is the list of the draws it will make (an exhausted list
    draws 0).  A random permutation is built by drawing, one after another,
    one of the elements not yet placed; every draw sequence gives a
    permutation and every permutation comes from some draw sequence. *)
Definition rng : Type := list nat.

Definition draw (g : rng) : nat * rng :=
  match g with
  | [] => (0, [])
  | d :: g' => (d, g')
  end.

Fixpoint remove_nth {A} (i : nat) (l : list A) : option (A * list A) :=
  match l, i with
  | [], _ => None
  | x :: l', O => Some (x, l')
  | x :: l', S i' =>
      match remove_nth i' l' with
      | Some (y, r) => Some (y, x :: r)
      | None => None
      end
  end.

Fixpoint shuffle {A} (n : nat) (pool : list A) (g : rng) : list A * rng :=
  match n with
  | O => ([], g)
  | S n' =>
      let (d, g1) := draw g in
      match remove_nth (d mod List.length pool) pool with
      | Some (x, rest) =>
          let (r, g2) := shuffle n' rest g1 in (x :: r, g2)
      | None => ([], g1)
      end
  end.

(** [rng.permutation(n)] of numpy and [torch.randperm(n)]. *)
Definition permutation (n : nat) (g : rng) : list nat * rng :=
  shuffle n (seq 0 n) g.

(** ** Data preparation *)

(** Library calls the notebook makes during data preparation, in program
    order. *)
Inductive event : Type :=
| Eread_csv
| Efit_transform (X : list (list Q))
| Etrain_test_split (n_samples : nat) (test_size : Q).

(** The state the data preparation runs in: numpy's global generator and
    the log of library calls made so far. *)
Record prep : Type := {
  np_random : rng;
  calls : list event
}.

Definition log (e : event) : prog prep unit :=
  modify (fun w => {| np_random := np_random w; calls := calls w ++ [e] |}).

Local Open Scope prog_scope.

(** [pd.read_csv(path)]; [file] is the frame the file holds. *)
Definition read_csv (file : DataFrame) : prog prep DataFrame :=
  log Eread_csv ;;; pret file.

(** [rng.permutation(n)] on numpy's global generator. *)
Definition np_permutation (n : nat) : prog prep (list nat) :=
  fun w =>
    let (p, g') := permutation n (np_random w) in
    Ok (p, {| np_random := g'; calls := calls w |}).

Definition Qltb (x y : Q) : bool := negb (Qle_bool y x).

(** [ceil(test_size * n_samples)] *)
Definition n_test_of (test_size : Q) (n_samples : nat) : nat :=
  Z.to_nat (Qceiling (test_size * inject_Z (Z.of_nat n_samples))).

(** [X[i] for i in ind] *)
Definition safe_indexing {A} (X : list A) (ind : list nat) : result (list A) :=
  mapM (fun i => of_option IndexError (nth_error X i)) ind.

(** [sklearn.model_selection.train_test_split(X, y, test_size=...)] with a
    float [test_size] and the default shuffle: the result is
    [(X_train, X_test, y_train, y_test)]. *)
Definition train_test_split {A B} (X : list A) (y : list B) (test_size : Q)
  : prog prep (list A * list A * list B * list B) :=
  let n_samples := List.length X in
  log (Etrain_test_split n_samples test_size) ;;;
  if negb (List.length y =? n_samples) then lift (Raise ValueError)
  else if negb (Qltb 0 test_size && Qltb test_size 1)
  then lift (Raise ValueError)
  else
    let n_test := n_test_of test_size n_samples in
    let n_train := n_samples - n_test in
    if n_train =? 0 then lift (Raise ValueError)
    else
      p <- np_permutation n_samples ;;
      let ind_test := firstn n_test p in
      let ind_train := firstn n_train (skipn n_test p) in
      X_train <- lift (safe_indexing X ind_train) ;;
      X_test <- lift (safe_indexing X ind_test) ;;
      y_train <- lift (safe_indexing y ind_train) ;;
      y_test <- lift (safe_indexing y ind_test) ;;
      pret (X_train, X_test, y_train, y_test).

Section MakeDataset.

(** Python's [float] on a text, as in [to_float]. *)
Variable float_of_str : string -> option Q.
(** [preprocessing.StandardScaler]: [fit] computes the per-column
    statistics of a table, [transform] applies them to a row. *)
Variable scaler : Type.
Variable fit : list (list Q) -> scaler.
Variable transform : scaler -> list Q -> list Q.
(** [astype(np.float32)] on one number. *)
Variable float32 : Q -> Q.

(** [StandardScaler().fit_transform(X)]; an empty table is refused. *)
Definition fit_transform (X : list (list Q)) : prog prep (list (list Q)) :=
  log (Efit_transform X) ;;;
  match X with
  | [] => lift (Raise ValueError)
  | _ => let s := fit X in pret (map (transform s) X)
  end.

(** The [for i in range(len(groups))] loop, run over the indices [idx];
    [features] and [labels] are the lists being appended to. *)
Fixpoint label_loop (idx : list nat) (groups : list cell)
    (X_norm : list (list Q)) (features : list (list Q))
    (labels : list (list Z)) : result (list (list Q) * list (list Z)) :=
  match idx with
  | [] => Ok (features, labels)
  | i :: idx' =>
      (group <- of_option IndexError (nth_error groups i) ;;
       feature <- of_option IndexError (nth_error X_norm i) ;;
       let y := encode_group group in
       label_loop idx' groups X_norm
         (features ++ [map float32 feature]) (labels ++ [y]))%result
  end.

(** [make_dataset(dir)]; [file] is what [dir/yeast_his3.csv] holds. *)
Definition make_dataset (file : DataFrame)
  : prog prep (list (list Q) * list (list Z)) :=
  let features := [] in
  let labels := [] in
  dataset <- read_csv file ;;
  cell_features_pre <-
    lift (getitem_columns dataset ("Cgroup"%string :: columns)) ;;
  let cell_features := drop_null_rows cell_features_pre in
  X <- lift (getitem_columns cell_features columns) ;;
  groups <- lift (getitem_column cell_features "Cgroup") ;;
  Xf <- lift (to_float_array float_of_str X) ;;
  X_norm <- fit_transform Xf ;;
  lift (label_loop (seq 0 (List.length groups)) groups X_norm features labels).

(** The splits of the notebook, as it names them. *)
Record splits : Type := {
  X_train : list (list Q);  y_train : list (list Z);
  X_val : list (list Q);    y_val : list (list Z);
  X_test : list (list Q);   y_test : list (list Z)
}.

(** The cell that loads and splits the data: first its two
    [train_test_split] calls, then the whole cell. *)
Definition split_twice (X : list (list Q)) (y : list (list Z))
  : prog prep splits :=
  ' (X_tmp, X_test, y_tmp, y_test) <- train_test_split X y (20 # 100) ;;
  ' (X_train, X_val, y_train, y_val) <-
      train_test_split X_tmp y_tmp (25 # 100) ;;
  pret {| X_train := X_train; y_train := y_train;
          X_val := X_val; y_val := y_val;
          X_test := X_test; y_test := y_test |}.

Definition load_and_split (file : DataFrame) : prog prep splits :=
  ' (X, y) <- make_dataset file ;;
  split_twice X y.

(** The standardized, rounded feature rows of a float table. *)
Definition standardized (Xf : list (list Q)) : list (list Q) :=
  map (fun x => map float32 (transform (fit Xf) x)) Xf.

End MakeDataset.

(** ** Data preparation, as the text describes it *)

(** The state after the library calls [es] have been logged. *)
Definition logged (w : prep) (es : list event) : prep :=
  {| np_random := np_random w; calls := calls w ++ es |}.

(** The ten columns [make_dataset] selects, the class cell and the feature
    cells of a selected row. *)
Definition selected : list string := "Cgroup"%string :: columns.
Definition group_of (r : list cell) : cell := nth 0 r NaN.
Definition features_of (r : list cell) : list cell :=
  map (fun i => nth i r NaN) (seq 1 9).

(** The cell of a file row in the column called [name], whether a file row
    has a value in each selected column, and the rows that do. *)
Definition cell_at (file : DataFrame) (r : list cell) (name : string) : cell :=
  match col_index name (df_columns file) with
  | Some i => nth i r NaN
  | None => NaN
  end.

Definition complete (file : DataFrame) (r : list cell) : bool :=
  negb (existsb (fun name => isnull (cell_at file r name)) selected).

Definition kept_rows (file : DataFrame) : list (list cell) :=
  filter (complete file) (df_rows file).

Definition has_column (file : DataFrame) (name : string) : bool :=
  match col_index name (df_columns file) with
  | Some _ => true
  | None => false
  end.

Definition numeric (c : cell) : bool :=
  match c with
  | Num _ => true
  | _ => false
  end.

Definition numeric_features (file : DataFrame) (r : list cell) : bool :=
  forallb numeric (map (cell_at file r) columns).

(** A cell the conversion to float accepts: a number, or a text that
    [float] accepts. *)
Definition convertible (float_of_str : string -> option Q) (c : cell)
  : bool :=
  match c with
  | NaN => false
  | Num _ => true
  | Str s => match float_of_str s with Some _ => true | None => false end
  end.

Definition convertible_features (float_of_str : string -> option Q)
    (file : DataFrame) (r : list cell) : bool :=
  forallb (convertible float_of_str) (map (cell_at file r) columns).

(** The feature cells of a file row, as floats. *)
Definition float_features (float_of_str : string -> option Q)
    (file : DataFrame) (r : list cell) : result (list Q) :=
  mapM (to_float float_of_str) (map (cell_at file r) columns).

(** ** Datasets and data loaders *)

Inductive phase : Type := train | val | test.

Definition phase_eqb (a b : phase) : bool :=
  match a, b with
  | train, train | val, val | test, test => true
  | _, _ => false
  end.

(** [class DatasetFolder(data.Dataset)] *)
Record DatasetFolder : Type := {
  samples : list (list Q);
  targets : list (list Z)
}.

(** [DatasetFolder.__getitem__] *)
Definition getitem (self : DatasetFolder) (index : nat)
  : result (list Q * list Z) :=
  (sample <- of_option IndexError (nth_error (samples self) index) ;;
   target <- of_option IndexError (nth_error (targets self) index) ;;
   Ok (sample, target))%result.

(** [DatasetFolder.__len__] *)
Definition len (self : DatasetFolder) : nat := List.length (samples self).

(** [torch.utils.data.DataLoader(dataset, batch_size=..., shuffle=...)] *)
Record DataLoader : Type := {
  dataset : DatasetFolder;
  batch_size : nat;
  shuffle_flag : bool
}.

(** A collated batch: the stacked samples and the stacked targets. *)
Definition batch : Type := (list (list Q) * list (list Z))%type.

(** torch's [BatchSampler] with [drop_last=False]: [cur] is the batch being
    filled, [sampler] the indices still to come. *)
Fixpoint batch_sampler (bs : nat) (cur : list nat) (sampler : list nat)
  : list (list nat) :=
  match sampler with
  | [] => if 0 <? List.length cur then [cur] else []
  | idx :: rest =>
      let cur' := cur ++ [idx] in
      if List.length cur' =? bs then cur' :: batch_sampler bs [] rest
      else batch_sampler bs cur' rest
  end.

(** [torch.stack] asks for rows of one width: each row is compared with
    the first. *)
Definition same_width {A} (rows : list (list A)) : bool :=
  match rows with
  | [] => true
  | r :: rows' =>
      forallb (fun x => List.length x =? List.length r) rows'
  end.

(** [default_collate] on the items of a batch: the samples are stacked
    into one tensor, then the targets; rows of unequal width raise
    [RuntimeError]. *)
Definition default_collate (items : list (list Q * list Z)) : result batch :=
  let samples := map fst items in
  let targets := map snd items in
  if negb (same_width samples) then Raise RuntimeError
  else if negb (same_width targets) then Raise RuntimeError
  else Ok (samples, targets).

(** Fetching one batch of indices: the items are read one after another,
    then collated. *)
Definition fetch (d : DatasetFolder) (idx : list nat) : result batch :=
  (items <- mapM (getitem d) idx ;;
   default_collate items)%result.

(** The indices one pass visits, in order: [RandomSampler] when the loader
    shuffles, [SequentialSampler] otherwise. *)
Definition sampler_indices (dl : DataLoader) (g : rng) : list nat * rng :=
  if shuffle_flag dl then permutation (len (dataset dl)) g
  else (seq 0 (len (dataset dl)), g).

(** One pass over a loader ([for inputs, labels in loader]), from the
    generator state [g]: the batches in the order they are yielded.

    A loader is a record here, so the two checks torch makes when a loader
    is built are made at the pass: [BatchSampler] refuses a batch size
    that is not positive, [RandomSampler] a shuffling loader over an empty
    data set.  Every pass, shuffling or not, first draws a base seed from
    the generator; the sampler draws after it. *)
Definition iter_loader (dl : DataLoader) (g : rng)
  : result (list batch * rng) :=
  if batch_size dl =? 0 then Raise ValueError
  else if shuffle_flag dl && (len (dataset dl) =? 0) then Raise ValueError
  else
    let g0 := snd (draw g) in
    let (idx, g') := sampler_indices dl g0 in
    (bs <- mapM (fetch (dataset dl)) (batch_sampler (batch_size dl) [] idx) ;;
     Ok (bs, g'))%result.

(** ** The network *)

(** [nn.Linear]: [weight] has one row per output feature. *)
Record Linear : Type := {
  weight : list (list Q);
  bias : list Q
}.

Definition dot (w x : list Q) : Q :=
  fold_right Qplus 0%Q (map (fun p => (fst p * snd p)%Q) (combine w x)).

(** [F.linear(x, weight, bias)] on one row; mismatching shapes raise. *)
Definition linear_forward (l : Linear) (x : list Q) : result (list Q) :=
  if forallb (fun w => List.length w =? List.length x) (weight l)
     && (List.length (bias l) =? List.length (weight l))
  then Ok (map (fun p => (dot (fst p) x + snd p)%Q)
               (combine (weight l) (bias l)))
  else Raise RuntimeError.

Definition relu (v : Q) : Q := if Qle_bool 0 v then v else 0%Q.

(** [class Net(nn.Module)]: its parameters. *)
Record Net : Type := {
  fc1 : Linear;
  fc2 : Linear
}.

(** [nn.Linear(in_features, out_features)]: the parameters are created with
    these shapes, their initial values [init] being drawn by torch. *)
Definition Linear_new (in_features out_features : nat)
    (init : nat -> nat -> Q) (init_bias : nat -> Q) : Linear :=
  {| weight := map (fun j => map (init j) (seq 0 in_features))
                   (seq 0 out_features);
     bias := map init_bias (seq 0 out_features) |}.

(** [Net.__init__] *)
Definition Net_new (w1 : nat -> nat -> Q) (b1 : nat -> Q)
    (w2 : nat -> nat -> Q) (b2 : nat -> Q) : Net :=
  {| fc1 := Linear_new 9 9 w1 b1;
     fc2 := Linear_new 9 4 w2 b2 |}.

(** [Net.forward] on one row of the batch. *)
Definition forward (self : Net) (x : list Q) : result (list Q) :=
  (h <- linear_forward (fc1 self) x ;;
   let x1 := map relu h in
   x2 <- linear_forward (fc2 self) x1 ;;
   Ok x2)%result.

(** [model(inputs)] on a batch. *)
Definition forward_batch (self : Net) (inputs : list (list Q))
  : result (list (list Q)) :=
  mapM (forward self) inputs.

(** [torch.max(t, 1)[1]] on one row: the index of the first maximal entry. *)
Fixpoint argmax_from (best : Q) (besti : nat) (i : nat) (row : list Q) : nat :=
  match row with
  | [] => besti
  | v :: row' =>
      if Qltb best v then argmax_from v i (S i) row'
      else argmax_from best besti (S i) row'
  end.

Definition argmax (row : list Q) : nat :=
  match row with
  | [] => 0
  | v :: row' => argmax_from v 0 1 row'
  end.

(** [torch.sum(preds == classnums)] *)
Definition count_equal (preds classnums : list nat) : nat :=
  List.length (filter (fun p => fst p =? snd p) (combine preds classnums)).

(** ** Training and evaluation *)

(** What the notebook prints, line by line; numbers are kept exact (the
    notebook formats them with four decimals) and wall-clock times are left
    out. *)
Inductive line : Type :=
| Pmodel
| Pblank
| Pepoch (epoch : nat) (last : Z)
| Pphase (ph : phase) (epoch_loss epoch_acc : Q)
| Pcomplete
| Pbest (best_acc : Q)
| Ptest (epoch_loss epoch_acc : Q).

Section Training.

(** Gradients, optimizer and scheduler states are torch's own. *)
Variables G O Sch : Type.
(** [p.grad.zero_()] and the accumulation [backward] does into [p.grad]. *)
Variable zero_ : G -> G.
Variable accumulate : G -> G -> G.
(** Autograd: the gradient of [criterion(model(inputs), classnums)] with
    respect to the parameters. *)
Variable autograd : Net -> list (list Q) -> list nat -> G.
(** [optimizer.step()] and [scheduler.step()]. *)
Variable opt_step : O -> Net -> option G -> O * Net.
Variable sched_step : Sch -> O -> Sch * O.
(** [criterion(outputs, classnums)] followed by [.item()]. *)
Variable criterion : list (list Q) -> list nat -> Q.
(** The global [feature_datasets]. *)
Variable feature_datasets : phase -> DatasetFolder.

(** A module object: its parameters (the [state_dict]), their [.grad]
    and the training-mode flag. *)
Record Module : Type := {
  params : Net;
  grad : option G;
  training : bool
}.

(** The objects the loop works on, all mutated in place by torch. *)
Record world : Type := {
  torch_random : rng;
  model : Module;
  optimizer : O;
  scheduler : Sch;
  stdout : list line
}.

Definition set_model (f : Module -> Module) : prog world unit :=
  modify (fun w => {| torch_random := torch_random w; model := f (model w);
                      optimizer := optimizer w; scheduler := scheduler w;
                      stdout := stdout w |}).

Definition print (l : line) : prog world unit :=
  modify (fun w => {| torch_random := torch_random w; model := model w;
                      optimizer := optimizer w; scheduler := scheduler w;
                      stdout := stdout w ++ [l] |}).

(** [model.train(mode)] *)
Definition model_train (mode : bool) : prog world unit :=
  set_model (fun m =>
    {| params := params m; grad := grad m; training := mode |}).

(** [optimizer.zero_grad()] *)
Definition zero_grad : prog world unit :=
  set_model (fun m => {| params := params m;
                         grad := option_map zero_ (grad m);
                         training := training m |}).

(** [loss.backward()] for the loss of the batch [(inputs, classnums)] *)
Definition loss_backward (inputs : list (list Q)) (classnums : list nat)
  : prog world unit :=
  set_model (fun m =>
    let g := autograd (params m) inputs classnums in
    {| params := params m;
       grad := Some (match grad m with
                     | Some g0 => accumulate g0 g
                     | None => g
                     end);
       training := training m |}).

(** [optimizer.step()] *)
Definition optimizer_step : prog world unit :=
  modify (fun w =>
    let (o, p) := opt_step (optimizer w) (params (model w)) (grad (model w)) in
    {| torch_random := torch_random w;
       model := {| params := p; grad := grad (model w);
                   training := training (model w) |};
       optimizer := o; scheduler := scheduler w; stdout := stdout w |}).

(** [scheduler.step()] *)
Definition scheduler_step : prog world unit :=
  modify (fun w =>
    let (s, o) := sched_step (scheduler w) (optimizer w) in
    {| torch_random := torch_random w; model := model w;
       optimizer := o; scheduler := s; stdout := stdout w |}).

(** [model.load_state_dict(wts)] *)
Definition load_state_dict (wts : Net) : prog world unit :=
  set_model (fun m =>
    {| params := wts; grad := grad m; training := training m |}).

(** [copy.deepcopy(model.state_dict())]: a copy of the parameter values,
    which later in-place updates of the model do not reach. *)
Definition deepcopy_state_dict : prog world Net :=
  gets (fun w => params (model w)).

(** The globals [batch_size], [dataloaders] and [dataset_sizes]. *)
Definition global_batch_size : nat := 64.

Definition dataloaders (ph : phase) : DataLoader :=
  {| dataset := feature_datasets ph;
     batch_size := global_batch_size;
     shuffle_flag := phase_eqb ph train |}.

Definition dataset_sizes (ph : phase) : nat := len (feature_datasets ph).

(** [for inputs, labels in dataloaders[phase]]: the batches of the pass.
    They are all fetched here, before the body of the loop runs on the
    first; torch fetches each when the loop asks for it.  Nothing the body
    does reaches the data sets or the generator, so the batches are the
    same; when both a fetch and the body would raise, the first exception
    in program order may be the other one. *)
Definition iter_dataloader (ph : phase) : prog world (list batch) :=
  fun w =>
    match iter_loader (dataloaders ph) (torch_random w) with
    | Ok (bs, g') =>
        Ok (bs, {| torch_random := g'; model := model w;
                   optimizer := optimizer w; scheduler := scheduler w;
                   stdout := stdout w |})
    | Raise e => Raise e
    end.

(** [x / dataset_sizes[phase]] *)
Definition div_size (x : Q) (ph : phase) : result Q :=
  if dataset_sizes ph =? 0 then Raise ZeroDivisionError
  else Ok (x / inject_Z (Z.of_nat (dataset_sizes ph)))%Q.

(** The batch loop of [train_model] over the batches still to come. *)
Fixpoint train_batches (ph : phase) (batches : list batch)
    (running_loss : Q) (running_corrects : nat) : prog world (Q * nat) :=
  match batches with
  | [] => pret (running_loss, running_corrects)
  | (inputs, labels) :: rest =>
      let labels := map (map inject_Z) labels in
      zero_grad ;;;
      m <- gets model ;;
      outputs <- lift (forward_batch (params m) inputs) ;;
      let classnums := map argmax labels in
      let preds := map argmax outputs in
      let loss := criterion outputs classnums in
      (if phase_eqb ph train
       then loss_backward inputs classnums ;;; optimizer_step
       else pret tt) ;;;
      train_batches ph rest
        (running_loss + loss * inject_Z (Z.of_nat (List.length inputs)))%Q
        (running_corrects + count_equal preds classnums)
  end.

(** The local variables [best_model_wts] and [best_acc]. *)
Record best : Type := {
  best_model_wts : Net;
  best_acc : Q
}.

(** One phase of one epoch. *)
Definition run_phase (ph : phase) (b : best) : prog world best :=
  (if phase_eqb ph train
   then scheduler_step ;;; model_train true
   else model_train false) ;;;
  let running_loss := 0%Q in
  let running_corrects := 0 in
  batches <- iter_dataloader ph ;;
  ' (running_loss, running_corrects) <-
      train_batches ph batches running_loss running_corrects ;;
  epoch_loss <- lift (div_size running_loss ph) ;;
  epoch_acc <- lift (div_size (inject_Z (Z.of_nat running_corrects)) ph) ;;
  print (Pphase ph epoch_loss epoch_acc) ;;;
  if phase_eqb ph val && Qltb (best_acc b) epoch_acc
  then
    wts <- deepcopy_state_dict ;;
    pret {| best_model_wts := wts; best_acc := epoch_acc |}
  else pret b.

(** [for phase in ['train', 'val']] *)
Fixpoint run_phases (phases : list phase) (b : best) : prog world best :=
  match phases with
  | [] => pret b
  | ph :: phases' => b' <- run_phase ph b ;; run_phases phases' b'
  end.

(** The body of [for epoch in range(num_epochs)]. *)
Definition epoch_body (num_epochs epoch : nat) (b : best) : prog world best :=
  print (Pepoch epoch (Z.of_nat num_epochs - 1)) ;;;
  b' <- run_phases [train; val] b ;;
  print Pblank ;;;
  pret b'.

(** The epoch loop over the epochs still to come. *)
Fixpoint epoch_loop (num_epochs : nat) (epochs : list nat) (b : best)
  : prog world best :=
  match epochs with
  | [] => pret b
  | epoch :: epochs' =>
      b' <- epoch_body num_epochs epoch b ;;
      epoch_loop num_epochs epochs' b'
  end.

(** [train_model(model, criterion, optimizer, scheduler, num_epochs)];
    the result is the model object it returns. *)
Definition train_model (num_epochs : nat) : prog world Module :=
  wts <- deepcopy_state_dict ;;
  let b := {| best_model_wts := wts; best_acc := 0%Q |} in
  print Pmodel ;;;
  print Pblank ;;;
  b <- epoch_loop num_epochs (seq 0 num_epochs) b ;;
  print Pblank ;;;
  print Pcomplete ;;;
  print (Pbest (best_acc b)) ;;;
  load_state_dict (best_model_wts b) ;;;
  gets model.

(** The batch loop of [print_test_accuracy]. *)
Fixpoint test_batches (batches : list batch)
    (running_loss : Q) (running_corrects : nat) : prog world (Q * nat) :=
  match batches with
  | [] => pret (running_loss, running_corrects)
  | (inputs, labels) :: rest =>
      let labels := map (map inject_Z) labels in
      m <- gets model ;;
      outputs <- lift (forward_batch (params m) inputs) ;;
      let classnums := map argmax labels in
      let preds := map argmax outputs in
      let loss := criterion outputs classnums in
      test_batches rest
        (running_loss + loss * inject_Z (Z.of_nat (List.length inputs)))%Q
        (running_corrects + count_equal preds classnums)
  end.

(** [print_test_accuracy(model, criterion, optimizer, phase)] *)
Definition print_test_accuracy (ph : phase) : prog world unit :=
  let running_loss := 0%Q in
  let running_corrects := 0 in
  model_train false ;;;
  batches <- iter_dataloader ph ;;
  ' (running_loss, running_corrects) <-
      test_batches batches running_loss running_corrects ;;
  epoch_loss <- lift (div_size running_loss ph) ;;
  epoch_acc <- lift (div_size (inject_Z (Z.of_nat running_corrects)) ph) ;;
  print (Ptest epoch_loss epoch_acc).

End Training.

(** The classes, in the order of their positions in the class vector. *)
Definition class_names : list string :=
  ["no"; "small"; "medium"; "large"]%string.

(** ** Stand-ins for concrete runs

    A scaler that centres every column on its mean (no division by the
    deviation, which is not rational), and the identity for the rounding. *)
Definition sumQ (l : list Q) : Q := fold_right Qplus 0%Q l.

Definition centre_fit (X : list (list Q)) : list Q :=
  let n := inject_Z (Z.of_nat (List.length X)) in
  map (fun j => Qred (sumQ (map (fun x => nth j x 0%Q) X) / n))
      (seq 0 (List.length (hd [] X))).

Definition centre_transform (mean : list Q) (x : list Q) : list Q :=
  map (fun p => Qred (fst p - snd p)) (combine x mean).

Definition exact (q : Q) : Q := q.

(** A stand-in for [float] on texts: the plain decimal numerals, such as
    "12", "-3.5" or ".5" (no exponent, no blanks), which [float] reads the
    same way; every other text is refused. *)
Definition digit_of (c : ascii) : option Z :=
  let n := Z.of_nat (nat_of_ascii c) in
  if (48 <=? n)%Z && (n <=? 57)%Z then Some (n - 48)%Z else None.

Fixpoint numeral (s : string) (acc : Z) (scale : positive)
    (digits point : bool) : option Q :=
  match s with
  | EmptyString => if digits then Some (acc # scale) else None
  | String c s' =>
      if Ascii.eqb c "."%char then
        if point then None else numeral s' acc scale digits true
      else
        match digit_of c with
        | Some d =>
            numeral s' (10 * acc + d)%Z
              (if point then (10 * scale)%positive else scale) true point
        | None => None
        end
  end.

Definition decimal_float (s : string) : option Q :=
  match s with
  | EmptyString => None
  | String c s' =>
      if Ascii.eqb c "-"%char
      then option_map Qopp (numeral s' 0 1 false false)
      else if Ascii.eqb c "+"%char then numeral s' 0 1 false false
      else numeral s 0 1 false false
  end.

(** A file with the ten selected columns and one more; its second row lacks
    a value in a selected column, its third row lacks one in the extra
    column only, its fourth row has a class outside the four names. *)
Definition sample_file : DataFrame :=
  {| df_columns := selected ++ ["C102"%string];
     df_rows :=
       [ [Str "no"; Num 1; Num 2; Num 3; Num 4; Num 5; Num 6; Num 7; Num 8;
          Num 9; Num 1];
         [Str "small"; Num 1; NaN; Num 3; Num 4; Num 5; Num 6; Num 7; Num 8;
          Num 9; Num 1];
         [Str "large"; Num 3; Num 2; Num 1; Num 4; Num 5; Num 6; Num 7; Num 8;
          Num 9; NaN];
         [Str "huge"; Num 2; Num 2; Num 2; Num 4; Num 5; Num 6; Num 7; Num 8;
          Num 9; Num 1] ] |}.

Definition prep0 : prep :=
  {| np_random := [2; 0; 1; 0; 0; 0; 3; 1]; calls := [] |}.

(** What [make_dataset] gives on the sample file with the centring scaler. *)
Definition sample_floats : list (list Q) :=
  [[1; 2; 3; 4; 5; 6; 7; 8; 9]; [3; 2; 1; 4; 5; 6; 7; 8; 9];
   [2; 2; 2; 4; 5; 6; 7; 8; 9]]%Q.

Definition sample_features : list (list Q) :=
  [[-1; 0; 1; 0; 0; 0; 0; 0; 0]; [1; 0; -1; 0; 0; 0; 0; 0; 0];
   [0; 0; 0; 0; 0; 0; 0; 0; 0]]%Q.

Definition sample_labels : list (list Z) :=
  [[1; 0; 0; 0]; [0; 0; 0; 1]; [0; 0; 0; 0]]%Z.

(** Six samples and their class vectors, for running the two splits. *)
Definition six_X : list (list Q) :=
  [[0]; [1]; [2]; [3]; [4]; [5]]%Q.

Definition six_y : list (list Z) :=
  [[1; 0; 0; 0]; [0; 1; 0; 0]; [0; 0; 1; 0]; [0; 0; 0; 1]; [1; 0; 0; 0];
   [0; 1; 0; 0]]%Z.

Definition six_splits : splits :=
  {| X_train := [[1]; [3]; [4]]%Q;
     y_train := [[0; 1; 0; 0]; [0; 0; 0; 1]; [1; 0; 0; 0]]%Z;
     X_val := [[5]]%Q;
     y_val := [[0; 1; 0; 0]]%Z;
     X_test := [[2]; [0]]%Q;
     y_test := [[0; 0; 1; 0]; [1; 0; 0; 0]]%Z |}.

(** The splits of the sample file. *)
Definition sample_splits : splits :=
  {| X_train := [[1; 0; -1; 0; 0; 0; 0; 0; 0]]%Q;
     y_train := [[0; 0; 0; 1]]%Z;
     X_val := [[-1; 0; 1; 0; 0; 0; 0; 0; 0]]%Q;
     y_val := [[1; 0; 0; 0]]%Z;
     X_test := [[0; 0; 0; 0; 0; 0; 0; 0; 0]]%Q;
     y_test := [[0; 0; 0; 0]]%Z |}.

(** ** The network, as the text describes it *)

(** The shapes [nn.Linear(n_in, n_out)] gives. *)
Definition Linear_shape (l : Linear) (n_in n_out : nat) : bool :=
  (List.length (weight l) =? n_out)
  && (List.length (bias l) =? n_out)
  && forallb (fun w => List.length w =? n_in) (weight l).

Definition Net_shape (net : Net) : bool :=
  Linear_shape (fc1 net) 9 9 && Linear_shape (fc2 net) 9 4.

(** [f 0 + f 1 + ... + f (n-1)] *)
Fixpoint sum_n (n : nat) (f : nat -> Q) : Q :=
  match n with
  | O => 0%Q
  | S k => (f O + sum_n k (fun i => f (S i)))%Q
  end.

Definition entry (M : list (list Q)) (j i : nat) : Q := nth i (nth j M []) 0%Q.

(** Output [j] of the two-layer perceptron: an affine map of width 9 to 9,
    the rectifier [max(0, .)], an affine map of width 9 to 4, and nothing
    after it. *)
Definition mlp_spec (net : Net) (x : list Q) (j : nat) : Q :=
  (sum_n 9 (fun k =>
     entry (weight (fc2 net)) j k
     * Qmax 0 (sum_n 9 (fun i => entry (weight (fc1 net)) k i * nth i x 0)
               + nth k (bias (fc1 net)) 0))
   + nth j (bias (fc2 net)) 0)%Q.

(** A network for concrete runs: the hidden layer copies the input, the
    output layer reads the features 0..3 and shifts them. *)
Definition sample_net : Net :=
  Net_new (fun j i => if Nat.eqb j i then 1%Q else 0%Q) (fun _ => 0%Q)
          (fun j i => if Nat.eqb j i then 1%Q else 0%Q)
          (fun j => (inject_Z (Z.of_nat j) - 2)%Q).

(** ** Evaluation, as the text describes it *)

(** The class the network predicts for a row, and the class a class vector
    stands for. *)
Definition predict (net : Net) (x : list Q) : nat :=
  match forward net x with
  | Ok logits => argmax logits
  | Raise _ => 0
  end.

Definition class_of (label : list Z) : nat := argmax (map inject_Z label).

(** Whether the sample at position [i] of a split is classified as its
    class vector says, and the number of such positions. *)
Definition correct_at (net : Net) (d : DatasetFolder) (i : nat) : bool :=
  predict net (nth i (samples d) []) =? class_of (nth i (targets d) []).

Definition n_correct (net : Net) (d : DatasetFolder) : nat :=
  List.length (filter (correct_at net d) (seq 0 (len d))).

(** The loss of one batch under fixed parameters, weighted by its size. *)
Definition weighted_batch_loss (criterion : list (list Q) -> list nat -> Q)
    (net : Net) (b : batch) : Q :=
  match forward_batch net (fst b) with
  | Ok outputs =>
      (criterion outputs (map class_of (snd b))
       * inject_Z (Z.of_nat (List.length (fst b))))%Q
  | Raise _ => 0%Q
  end.

(** The validation accuracies printed, in order. *)
Definition val_accs (out : list line) : list Q :=
  flat_map (fun l => match l with
                     | Pphase val _ acc => [acc]
                     | _ => []
                     end) out.

(** ** The training loop, as the text describes it *)

Section TrainingSpec.

Variables G O Sch : Type.
Variable zero_ : G -> G.
Variable accumulate : G -> G -> G.
Variable autograd : Net -> list (list Q) -> list nat -> G.
Variable opt_step : O -> Net -> option G -> O * Net.
Variable sched_step : Sch -> O -> Sch * O.
Variable criterion : list (list Q) -> list nat -> Q.
Variable feature_datasets : phase -> DatasetFolder.

(** [train_model] up to the end of its first [k] epochs. *)
Definition train_prefix (num_epochs k : nat) : prog (world G O Sch) best :=
  wts <- @deepcopy_state_dict G O Sch ;;
  let b := {| best_model_wts := wts; best_acc := 0%Q |} in
  print Pmodel ;;;
  print Pblank ;;;
  epoch_loop zero_ accumulate autograd opt_step sched_step criterion
    feature_datasets num_epochs (seq 0 k) b.

(** The running totals of an evaluation over [batches] under the parameters
    [net], from the totals [rl] and [rc]. *)
Definition totals_ok (net : Net) (batches : list batch) (rl : Q) (rc : nat)
    (res : Q * nat) : Prop :=
  (fst res == rl + sumQ (map (weighted_batch_loss criterion net) batches))%Q
  /\ snd res
     = rc + List.length
              (filter (fun p => predict net (fst p) =? class_of (snd p))
                      (flat_map (fun b => combine (fst b) (snd b)) batches)).

(** What the batch loop of an evaluation pass leaves alone: the
    parameters, the optimizer, the scheduler, the output, and the generator
    (which is drawn from when the pass starts, not in the loop). *)
Definition same_but_grad (w w' : world G O Sch) : Prop :=
  params (model w') = params (model w)
  /\ training (model w') = training (model w)
  /\ optimizer w' = optimizer w
  /\ scheduler w' = scheduler w
  /\ torch_random w' = torch_random w
  /\ stdout w' = stdout w.

(** The loss and accuracy an evaluation pass over the split [ph] reports
    under the parameters [net], [batches] being the batches of the pass: the
    mean of the batch losses weighted by the batch sizes, and the fraction
    of the samples of the split whose predicted class is the class of their
    class vector. *)
Definition pass_metrics (ph : phase) (net : Net) (batches : list batch)
    (loss acc : Q) : Prop :=
  0 < dataset_sizes feature_datasets ph
  /\ fold_right Nat.add 0 (map (fun b => List.length (fst b)) batches)
     = dataset_sizes feature_datasets ph
  /\ (loss == sumQ (map (weighted_batch_loss criterion net) batches)
              / inject_Z (Z.of_nat (dataset_sizes feature_datasets ph)))%Q
  /\ acc = (inject_Z (Z.of_nat (n_correct net (feature_datasets ph)))
            / inject_Z (Z.of_nat (dataset_sizes feature_datasets ph)))%Q.

End TrainingSpec.

(** Keeping the better of the best so far and a new (accuracy, weights)
    pair, and the best of a history of such pairs. *)
Definition update_best (b : best) (h : Q * Net) : best :=
  if Qltb (best_acc b) (fst h)
  then {| best_model_wts := snd h; best_acc := fst h |}
  else b.

Definition select_best (b : best) (history : list (Q * Net)) : best :=
  fold_left update_best history b.

(** What a run printed: the output after it, without the output before. *)
Definition printed (before after : list line) : list line :=
  skipn (List.length before) after.

(** ** A small training set-up for concrete runs

    The network ignores its input: its logits are the bias of [fc2].  The
    optimizer counts its steps and sets that bias from the count, so that
    the predicted class is 2 after the first step, 0 after the second, 1
    after the third and 2 from then on.  There is one training batch per
    epoch, hence one step per epoch. *)
Definition toy_net : Net :=
  Net_new (fun j i => if Nat.eqb j i then 1%Q else 0%Q) (fun _ => 0%Q)
          (fun _ _ => 0%Q)
          (fun j => if Nat.eqb j 3 then 1%Q else 0%Q).

Definition toy_bias (step : nat) : list Q :=
  match step with
  | 2 => [1; 0; 0; 0]%Q
  | 3 => [0; 1; 0; 0]%Q
  | _ => [0; 0; 1; 0]%Q
  end.

Definition toy_opt_step (o : nat) (net : Net) (g : option unit) : nat * Net :=
  (S o, {| fc1 := fc1 net;
           fc2 := {| weight := weight (fc2 net); bias := toy_bias (S o) |} |}).

Definition toy_sched_step (s o : nat) : nat * nat := (S s, o).

Definition toy_zero (g : unit) : unit := g.
Definition toy_accumulate (g h : unit) : unit := tt.
Definition toy_autograd (net : Net) (inputs : list (list Q))
    (classnums : list nat) : unit := tt.
Definition toy_criterion (outputs : list (list Q)) (classnums : list nat) : Q :=
  1%Q.

Definition zeros9 : list Q := [0; 0; 0; 0; 0; 0; 0; 0; 0]%Q.

Definition toy_datasets (ph : phase) : DatasetFolder :=
  match ph with
  | train => {| samples := [zeros9; zeros9];
                targets := [[1; 0; 0; 0]; [0; 0; 1; 0]]%Z |}
  | val => {| samples := [zeros9; zeros9];
              targets := [[1; 0; 0; 0]; [0; 1; 0; 0]]%Z |}
  | test => {| samples := [zeros9];
               targets := [[1; 0; 0; 0]]%Z |}
  end.

Definition toy_world : world unit nat nat :=
  {| torch_random := [1; 0];
     model := {| params := toy_net; grad := None; training := true |};
     optimizer := 0;
     scheduler := 0;
     stdout := [] |}.

Abbreviation toy_train_model :=
  (train_model toy_zero toy_accumulate toy_autograd toy_opt_step toy_sched_step
     toy_criterion toy_datasets).

(** The result of four epochs, and of one epoch, from [toy_world]. *)
Definition toy_run4 : Module unit * world unit nat nat :=
  Eval vm_compute in
    match toy_train_model 4 toy_world with
    | Ok r => r
    | Raise _ => (model toy_world, toy_world)
    end.

Definition toy_run1 : Module unit * world unit nat nat :=
  Eval vm_compute in
    match toy_train_model 1 toy_world with
    | Ok r => r
    | Raise _ => (model toy_world, toy_world)
    end.

(** A split of 130 samples, for a pass of several batches. *)
Definition ramp (n : nat) : DatasetFolder :=
  {| samples := map (fun i => [inject_Z (Z.of_nat i)]) (seq 0 n);
     targets := map (fun i => [Z.of_nat (i mod 4)]) (seq 0 n) |}.

Definition ramp_datasets (ph : phase) : DatasetFolder :=
  match ph with
  | train => ramp 5
  | val => ramp 130
  | test => ramp 64
  end.

Definition ramp_batch (start n : nat) : batch :=
  (map (fun i => [inject_Z (Z.of_nat i)]) (seq start n),
   map (fun i => [Z.of_nat (i mod 4)]) (seq start n)).

Abbreviation toy_train_prefix :=
  (train_prefix toy_zero toy_accumulate toy_autograd toy_opt_step
     toy_sched_step toy_criterion toy_datasets).

(** What the run of four epochs printed. *)
Definition toy_out4 : list line :=
  printed (stdout toy_world) (stdout (snd toy_run4)).



Definition toy_test_pass : unit * world unit nat nat :=
  Eval vm_compute in
    match print_test_accuracy toy_criterion toy_datasets test toy_world with
    | Ok r => r
    | Raise _ => (tt, toy_world)
    end.

(** ** Further definitions for the properties beyond the claims *)

(** What [make_dataset] reads of a file: under the ten selected names, the
    cells of every row. *)
Definition selected_view (file : DataFrame) : list (list cell) :=
  map (fun r => map (cell_at file r) selected) (df_rows file).

(** The sample file without its last feature column, with its column
    "C103" read as text, and with its columns in reverse order.  Of the two
    files with texts, the first has a text that spells no number in a
    complete row, the second has it in a row that is dropped. *)
Definition sample_file_no_A123 : DataFrame :=
  {| df_columns := removelast selected;
     df_rows := map (@removelast cell) (map (@removelast cell)
                                            (df_rows sample_file)) |}.

Definition sample_file_text : DataFrame :=
  {| df_columns := df_columns sample_file;
     df_rows :=
       [ [Str "no"; Num 1; Str "2"; Num 3; Num 4; Num 5; Num 6; Num 7;
          Num 8; Num 9; Num 1];
         [Str "small"; Num 1; NaN; Num 3; Num 4; Num 5; Num 6; Num 7; Num 8;
          Num 9; Num 1];
         [Str "large"; Num 3; Str "2"; Num 1; Num 4; Num 5; Num 6; Num 7;
          Num 8; Num 9; NaN];
         [Str "huge"; Num 2; Str "two"; Num 2; Num 4; Num 5; Num 6; Num 7;
          Num 8; Num 9; Num 1] ] |}.

Definition sample_file_numeric_text : DataFrame :=
  {| df_columns := df_columns sample_file;
     df_rows :=
       [ [Str "no"; Num 1; Str "2"; Num 3; Num 4; Num 5; Num 6; Num 7;
          Num 8; Num 9; Num 1];
         [Str "small"; NaN; Str "two"; Num 3; Num 4; Num 5; Num 6; Num 7;
          Num 8; Num 9; Num 1];
         [Str "large"; Num 3; Str "2"; Num 1; Num 4; Num 5; Num 6; Num 7;
          Num 8; Num 9; NaN];
         [Str "huge"; Num 2; Str "2"; Num 2; Num 4; Num 5; Num 6; Num 7;
          Num 8; Num 9; Num 1] ] |}.

Definition sample_file_reversed : DataFrame :=
  {| df_columns := rev (df_columns sample_file);
     df_rows := map (@rev cell) (df_rows sample_file) |}.

(** Splits whose class vectors are fewer than their samples. *)
Definition short_datasets (ph : phase) : DatasetFolder :=
  {| samples := samples (ramp 5); targets := firstn 3 (targets (ramp 5)) |}.

(** [DatasetFolder.__init__] and the global [feature_datasets] built from
    the splits. *)
Definition DatasetFolder_init (X : list (list Q)) (y : list (list Z))
  : DatasetFolder :=
  {| samples := X; targets := y |}.

Definition feature_datasets_of (s : splits) (ph : phase) : DatasetFolder :=
  match ph with
  | train => DatasetFolder_init (X_train s) (y_train s)
  | val => DatasetFolder_init (X_val s) (y_val s)
  | test => DatasetFolder_init (X_test s) (y_test s)
  end.

Section NotebookRun.

Variables G O Sch : Type.
Variable zero_ : G -> G.
Variable accumulate : G -> G -> G.
Variable autograd : Net -> list (list Q) -> list nat -> G.
Variable opt_step : O -> Net -> option G -> O * Net.
Variable sched_step : Sch -> O -> Sch * O.
Variable criterion : list (list Q) -> list nat -> Q.
Variable feature_datasets : phase -> DatasetFolder.

(** The last cell: training, then the accuracy on the test split. [model]
    is rebound to the object [train_model] returns, which is the model
    object it was given. *)
Definition notebook_run (epochs : nat) : prog (world G O Sch) unit :=
  model <- train_model zero_ accumulate autograd opt_step sched_step criterion
             feature_datasets epochs ;;
  print_test_accuracy criterion feature_datasets test.

End NotebookRun.

(** Counting the calls of [optimizer.step()] and [scheduler.step()]: any
    optimizer and scheduler, each with a counter of its calls beside its
    state. *)
Section CountedSteps.

Variables G OS SS : Type.
Variable opt_step0 : OS -> Net -> option G -> OS * Net.
Variable sched_step0 : SS -> OS -> SS * OS.

Definition counted_opt_step (o : nat * OS) (net : Net) (g : option G)
  : (nat * OS) * Net :=
  let (o', p) := opt_step0 (snd o) net g in ((S (fst o), o'), p).

Definition counted_sched_step (s : nat * SS) (o : nat * OS)
  : (nat * SS) * (nat * OS) :=
  let (s', o') := sched_step0 (snd s) (snd o) in ((S (fst s), s'), (fst o, o')).

End CountedSteps.

(** The number of batches of a pass over the training split, with the
    batch size of 64 of [dataloaders]. *)
Definition steps_per_epoch (feature_datasets : phase -> DatasetFolder) : nat :=
  (len (feature_datasets train) + 63) / 64.

(** The small set-up with counters, and its run of four epochs. *)
Definition toy_counted_world : world unit (nat * nat) (nat * nat) :=
  {| torch_random := [1; 0];
     model := {| params := toy_net; grad := None; training := true |};
     optimizer := (0, 0);
     scheduler := (0, 0);
     stdout := [] |}.

Abbreviation toy_counted_train_model :=
  (train_model toy_zero toy_accumulate toy_autograd
     (counted_opt_step toy_opt_step) (counted_sched_step toy_sched_step)
     toy_criterion toy_datasets).

Definition toy_counted_run4
  : Module unit * world unit (nat * nat) (nat * nat) :=
  Eval vm_compute in
    match toy_counted_train_model 4 toy_counted_world with
    | Ok r => r
    | Raise _ => (model toy_counted_world, toy_counted_world)
    end.

(** Splits with an empty test split. *)
Definition no_test_datasets (ph : phase) : DatasetFolder :=
  match ph with
  | test => DatasetFolder_init [] []
  | _ => toy_datasets ph
  end.

(** The result of the last cell with four epochs, from [toy_world]. *)
Abbreviation toy_notebook_run :=
  (notebook_run toy_zero toy_accumulate toy_autograd toy_opt_step
     toy_sched_step toy_criterion toy_datasets).

Definition toy_notebook4 : unit * world unit nat nat :=
  Eval vm_compute in
    match toy_notebook_run 4 toy_world with
    | Ok r => r
    | Raise _ => (tt, toy_world)
    end.

(** * Properties *)

(** ** Results and lists *)

Lemma mapM_length A B (f : A -> result B) l l' :
  mapM f l = Ok l' -> List.length l' = List.length l.
Proof.
  revert l'. induction l as [|a l IH]; simpl; intros l' H.
  - now inversion H.
  - destruct (f a) as [b|e]; simpl in H; [|discriminate].
    destruct (mapM f l) as [bs|e]; simpl in H; [|discriminate].
    inversion H; subst. simpl. now rewrite (IH bs).
Qed.

Lemma mapM_Forall2 A B (f : A -> result B) l l' :
  mapM f l = Ok l' <-> Forall2 (fun a b => f a = Ok b) l l'.
Proof.
  revert l'. induction l as [|a l IH]; simpl; intros l'.
  - split; intros H; inversion H; subst; constructor.
  - split; intros H.
    + destruct (f a) as [b|e] eqn:Ea; simpl in H; [|discriminate].
      destruct (mapM f l) as [bs|e]; simpl in H; [|discriminate].
      inversion H; subst. constructor; [assumption|]. now apply IH.
    + inversion H as [|? b ? bs Ha Hl]; subst. rewrite Ha. simpl.
      apply IH in Hl. rewrite Hl. reflexivity.
Qed.

Lemma mapM_total A B (f : A -> result B) (g : A -> B) l :
  Forall (fun a => f a = Ok (g a)) l -> mapM f l = Ok (map g l).
Proof.
  induction 1 as [|a l Ha _ IH]; simpl; [reflexivity|].
  now rewrite Ha, IH.
Qed.

Lemma mapM_nth_error A B (f : A -> result B) l l' i a :
  mapM f l = Ok l' -> nth_error l i = Some a ->
  exists b, nth_error l' i = Some b /\ f a = Ok b.
Proof.
  rewrite mapM_Forall2. intros H. revert i.
  induction H as [|x y l l' Hxy _ IH]; intros [|i] Hi; simpl in *;
    try discriminate.
  - inversion Hi; subst. eauto.
  - now apply IH.
Qed.

Lemma skipn_nth_error A (l : list A) k x :
  nth_error l k = Some x -> skipn k l = x :: skipn (S k) l.
Proof.
  revert k. induction l as [|a l IH]; intros [|k] H; simpl in *;
    try discriminate.
  - now inversion H.
  - now apply IH.
Qed.

Lemma mapM_nth_error_inv A B (f : A -> result B) l l' i b :
  mapM f l = Ok l' -> nth_error l' i = Some b ->
  exists a, nth_error l i = Some a /\ f a = Ok b.
Proof.
  rewrite mapM_Forall2. intros H. revert i.
  induction H as [|x y l l' Hxy _ IH]; intros [|i] Hi; simpl in *;
    try discriminate.
  - inversion Hi; subst. eauto.
  - now apply IH.
Qed.

(** ** [make_dataset]: what it keeps and what it returns *)

Lemma mapM_map A B C (f : B -> result C) (g : A -> B) l :
  mapM f (map g l) = mapM (fun a => f (g a)) l.
Proof.
  induction l as [|a l IH]; simpl; [reflexivity|]. now rewrite IH.
Qed.

Lemma null_count_existsb r :
  (null_count r =? 0) = negb (existsb isnull r).
Proof.
  unfold null_count. induction r as [|c r IH]; simpl; [reflexivity|].
  destruct (isnull c); simpl; [reflexivity|exact IH].
Qed.

Lemma existsb_map A B (f : B -> bool) (g : A -> B) l :
  existsb f (map g l) = existsb (fun a => f (g a)) l.
Proof.
  induction l as [|a l IH]; simpl; [reflexivity|]. now rewrite IH.
Qed.

Lemma filter_map_comm A B (f : B -> bool) (g : A -> B) l :
  filter f (map g l) = map g (filter (fun a => f (g a)) l).
Proof.
  induction l as [|a l IH]; simpl; [reflexivity|].
  destruct (f (g a)); simpl; now rewrite IH.
Qed.

(** Selecting columns by name reads, in every row, the cells under these
    names. *)
Lemma getitem_columns_cells file names sel :
  getitem_columns file names = Ok sel ->
  df_rows sel = map (fun r => map (cell_at file r) names) (df_rows file)
  /\ forallb (has_column file) names = true.
Proof.
  unfold getitem_columns.
  destruct (mapM _ names) as [idx|e] eqn:E; simpl; [|discriminate].
  intros H. inversion H; subst; clear H. simpl.
  apply mapM_Forall2 in E.
  assert (Hrow : forall r, map (fun i => nth i r NaN) idx
                           = map (cell_at file r) names
                           /\ forallb (has_column file) names = true).
  { intros r. induction E as [|n i names idx Hn _ IH]; simpl; [easy|].
    unfold cell_at at 1, has_column at 1.
    destruct (col_index n (df_columns file)); simpl in Hn; [|discriminate].
    inversion Hn; subst. destruct IH as [-> ->]. easy. }
  split; [|exact (proj2 (Hrow []))].
  apply map_ext. intros r. apply Hrow.
Qed.

Lemma getitem_columns_absent file names :
  forallb (has_column file) names = false ->
  getitem_columns file names = Raise KeyError.
Proof.
  intros H. unfold getitem_columns.
  assert (E :
    mapM (fun n => of_option KeyError (col_index n (df_columns file))) names
    = Raise KeyError).
  { induction names as [|n names IH]; simpl in *; [discriminate|].
    unfold has_column in H at 1.
    destruct (col_index n (df_columns file)); simpl in *; [|reflexivity].
    rewrite (IH H). reflexivity. }
  now rewrite E.
Qed.

Lemma getitem_columns_present file names :
  forallb (has_column file) names = true ->
  exists sel, getitem_columns file names = Ok sel.
Proof.
  intros H. unfold getitem_columns.
  assert (E : exists idx,
    mapM (fun n => of_option KeyError (col_index n (df_columns file))) names
    = Ok idx).
  { induction names as [|n names IH]; simpl in *; [eauto|].
    apply andb_true_iff in H as [Hn Hr]. unfold has_column in Hn.
    destruct (col_index n (df_columns file)); [|discriminate]. simpl.
    destruct (IH Hr) as [idx ->]. simpl. eauto. }
  destruct E as [idx ->]. simpl. eauto.
Qed.

Lemma to_float_numeric float_of_str (cells : list cell) :
  forallb numeric cells = true ->
  exists x, mapM (to_float float_of_str) cells = Ok x.
Proof.
  induction cells as [|c cs IH]; simpl; intros H; [eauto|].
  apply andb_true_iff in H as [Hc Hcs].
  destruct c; try discriminate. simpl.
  destruct (IH Hcs) as [x ->]. simpl. eauto.
Qed.

Section MakeDatasetFacts.

Variable float_of_str : string -> option Q.
Variable scaler : Type.
Variable fit : list (list Q) -> scaler.
Variable transform : scaler -> list Q -> list Q.
Variable float32 : Q -> Q.

#[local] Abbreviation make_dataset :=
  (@make_dataset float_of_str scaler).
#[local] Abbreviation to_float := (to_float float_of_str).
#[local] Abbreviation float_features := (float_features float_of_str).

Lemma label_loop_seq groups X_norm :
  List.length X_norm = List.length groups ->
  forall n k features labels,
    k + n = List.length groups ->
    label_loop float32 (seq k n) groups X_norm features labels =
    Ok (features ++ map (map float32) (skipn k X_norm),
        labels ++ map encode_group (skipn k groups)).
Proof.
  intros Hlen. induction n as [|n IH]; intros k features labels Hk; simpl.
  - rewrite !skipn_all2 by lia. simpl. now rewrite !app_nil_r.
  - destruct (nth_error groups k) as [gk|] eqn:Eg.
    2:{ apply nth_error_None in Eg. lia. }
    destruct (nth_error X_norm k) as [xk|] eqn:Ex.
    2:{ apply nth_error_None in Ex. lia. }
    simpl. rewrite IH by lia.
    rewrite (skipn_nth_error _ _ Eg), (skipn_nth_error _ _ Ex). simpl.
    now rewrite <- !app_assoc.
Qed.

Lemma getitem_columns_selected (df : DataFrame) :
  df_columns df = selected ->
  getitem_columns df columns =
  Ok {| df_columns := columns; df_rows := map features_of (df_rows df) |}.
Proof.
  intros H. unfold getitem_columns. rewrite H. reflexivity.
Qed.

Lemma getitem_column_selected (df : DataFrame) :
  df_columns df = selected ->
  getitem_column df "Cgroup" = Ok (map group_of (df_rows df)).
Proof.
  intros H. unfold getitem_column. rewrite H. reflexivity.
Qed.

Lemma getitem_columns_names df names sel :
  getitem_columns df names = Ok sel -> df_columns sel = names.
Proof.
  unfold getitem_columns. destruct (mapM _ names); simpl; [|discriminate].
  intros H. inversion H. reflexivity.
Qed.

(** [make_dataset] in closed form. *)
Lemma make_dataset_eq file w :
  make_dataset fit transform float32 file w =
  match getitem_columns file selected with
  | Raise e => Raise e
  | Ok sel =>
      let loaded := df_rows (drop_null_rows sel) in
      match mapM (mapM to_float) (map features_of loaded) with
      | Raise e => Raise e
      | Ok [] => Raise ValueError
      | Ok Xf =>
          Ok (standardized fit transform float32 Xf,
              map (fun r => encode_group (group_of r)) loaded,
              logged w [Eread_csv; Efit_transform Xf])
      end
  end.
Proof.
  unfold make_dataset, read_csv, pbind, log, modify, pret, lift. simpl.
  fold selected.
  destruct (getitem_columns file selected) as [sel|e] eqn:Esel; [|reflexivity].
  pose proof (getitem_columns_names _ _ Esel) as Hcols.
  rewrite getitem_columns_selected, getitem_column_selected by exact Hcols.
  unfold to_float_array. simpl.
  set (loaded := filter _ (df_rows sel)).
  destruct (mapM (mapM to_float) (map features_of loaded)) as [Xf|e] eqn:EX;
    [|reflexivity].
  unfold fit_transform, pbind, log, modify, pret, lift. simpl.
  destruct Xf as [|x Xf]; [reflexivity|].
  apply mapM_length in EX. rewrite length_map in EX.
  rewrite label_loop_seq; rewrite ?length_map; try lia.
  simpl skipn. unfold standardized, logged.
  rewrite map_map, <- app_assoc. simpl.
  now rewrite !map_map.
Qed.

(** The rows [make_dataset] loads are the complete rows of the file. *)
Lemma loaded_kept file sel :
  getitem_columns file selected = Ok sel ->
  df_rows (drop_null_rows sel)
  = map (fun r => map (cell_at file r) selected) (kept_rows file).
Proof.
  intros H. apply getitem_columns_cells in H as [H _].
  unfold drop_null_rows, kept_rows. simpl. rewrite H, filter_map_comm.
  f_equal. apply filter_ext. intros r.
  rewrite null_count_existsb, existsb_map. reflexivity.
Qed.

(** [make_dataset] in terms of the rows of the file. *)
Lemma make_dataset_eq_file file w :
  make_dataset fit transform float32 file w =
  if forallb (has_column file) selected then
    match mapM (float_features file) (kept_rows file) with
    | Raise e => Raise e
    | Ok [] => Raise ValueError
    | Ok Xf =>
        Ok (standardized fit transform float32 Xf,
            map (fun r => encode_group (cell_at file r "Cgroup"))
                (kept_rows file),
            logged w [Eread_csv; Efit_transform Xf])
    end
  else Raise KeyError.
Proof.
  rewrite make_dataset_eq.
  destruct (forallb (has_column file) selected) eqn:Hc.
  - destruct (getitem_columns_present _ _ Hc) as [sel Esel]. rewrite Esel.
    cbv zeta. rewrite (loaded_kept _ Esel), !map_map, mapM_map.
    reflexivity.
  - now rewrite (getitem_columns_absent _ _ Hc).
Qed.

Lemma make_dataset_rows file w fs ls w' :
  make_dataset fit transform float32 file w = Ok (fs, ls, w') ->
  exists Xf,
    mapM (float_features file) (kept_rows file) = Ok Xf
    /\ Xf <> []
    /\ fs = standardized fit transform float32 Xf
    /\ ls = map (fun r => encode_group (cell_at file r "Cgroup"))
                (kept_rows file)
    /\ w' = logged w [Eread_csv; Efit_transform Xf].
Proof.
  rewrite make_dataset_eq_file.
  destruct (forallb (has_column file) selected); [|discriminate].
  destruct (mapM (float_features file) (kept_rows file)) as [Xf|e];
    [|discriminate].
  destruct Xf as [|x Xf]; [discriminate|].
  intros H. inversion H; subst; clear H.
  exists (x :: Xf). repeat split; congruence.
Qed.

(** [make_dataset] returns whenever the selected columns exist, some row is
    complete and the complete rows have numeric features. *)
Lemma make_dataset_total file w :
  forallb (has_column file) selected = true ->
  0 < List.length (kept_rows file) ->
  forallb (numeric_features file) (kept_rows file) = true ->
  exists fs ls w', make_dataset fit transform float32 file w = Ok (fs, ls, w').
Proof.
  intros Hc Hk Hn. rewrite make_dataset_eq_file, Hc.
  assert (E : exists Xf, mapM (float_features file) (kept_rows file) = Ok Xf
                         /\ List.length Xf = List.length (kept_rows file)).
  { clear Hk. induction (kept_rows file) as [|r l IH]; simpl in *; [eauto|].
    apply andb_true_iff in Hn as [Hr Hl].
    destruct (IH Hl) as (Xf & -> & Hlen).
    destruct (to_float_numeric float_of_str _ Hr) as [x Hx].
    unfold float_features at 1. rewrite Hx. simpl.
    eexists; split; [reflexivity|]. simpl. now rewrite Hlen. }
  destruct E as (Xf & -> & Hlen).
  destruct Xf as [|x Xf]; [simpl in Hlen; lia|eauto].
Qed.

(** The rows kept from a file are all kept again when they are the file. *)
Lemma kept_rows_idem file :
  kept_rows {| df_columns := df_columns file; df_rows := kept_rows file |}
  = kept_rows file.
Proof.
  unfold kept_rows at 1. simpl.
  change (complete {| df_columns := df_columns file;
                      df_rows := kept_rows file |})
    with (complete file).
  unfold kept_rows.
  induction (df_rows file) as [|r l IH]; simpl; [reflexivity|].
  destruct (complete file r) eqn:E; simpl; [|exact IH].
  now rewrite E, IH.
Qed.

Lemma encode_group_class k name :
  nth_error class_names k = Some name ->
  encode_group (Str name)
  = map (fun j => if j =? k then 1%Z else 0%Z) (seq 0 4).
Proof.
  destruct k as [|[|[|[|k]]]]; simpl; intros H; inversion H; subst;
    try reflexivity.
  destruct k; discriminate.
Qed.

Lemma encode_group_other c :
  (forall name, In name class_names -> c <> Str name) ->
  encode_group c = [0; 0; 0; 0]%Z.
Proof.
  intros H. destruct c as [|q|s]; try reflexivity.
  unfold encode_group, cell_eqb_str.
  repeat match goal with
  | |- context [String.eqb s ?n] =>
      destruct (String.eqb_spec s n) as [->|_];
      [exfalso; apply (H n); [simpl; tauto|reflexivity]|]
  end.
  reflexivity.
Qed.

(** C5. Every loaded row whose class is one of "no", "small", "medium",
    "large" gets a class vector of length 4 with 1 at the position of its
    class (0, 1, 2, 3 in this order) and 0 elsewhere. *)
Theorem make_dataset_one_hot file w fs ls w' i r k name :
  make_dataset fit transform float32 file w = Ok (fs, ls, w') ->
  nth_error (kept_rows file) i = Some r ->
  nth_error class_names k = Some name ->
  cell_at file r "Cgroup" = Str name ->
  exists y,
    nth_error ls i = Some y
    /\ List.length y = 4
    /\ forall j, j < 4 -> nth j y 0%Z = if j =? k then 1%Z else 0%Z.
Proof.
  intros Hmk Hi Hk Hg.
  apply make_dataset_rows in Hmk as (Xf & _ & _ & _ & -> & _).
  exists (encode_group (Str name)). split.
  - rewrite nth_error_map, Hi. simpl. now rewrite Hg.
  - rewrite (encode_group_class _ Hk). split; [reflexivity|].
    intros j Hj. do 4 (destruct j as [|j]; [reflexivity|]). lia.
Qed.

(** C2. A loaded row whose class is none of the four names gets the
    all-zero class vector; it is kept like the others, and [make_dataset]
    returns whatever the classes are. *)
Theorem make_dataset_unknown_group file w :
  forallb (has_column file) selected = true ->
  0 < List.length (kept_rows file) ->
  forallb (numeric_features file) (kept_rows file) = true ->
  exists fs ls w',
    make_dataset fit transform float32 file w = Ok (fs, ls, w')
    /\ List.length fs = List.length (kept_rows file)
    /\ List.length ls = List.length (kept_rows file)
    /\ forall i r,
         nth_error (kept_rows file) i = Some r ->
         (forall name, In name class_names ->
                       cell_at file r "Cgroup" <> Str name) ->
         nth_error ls i = Some [0; 0; 0; 0]%Z.
Proof.
  intros Hc Hk Hn.
  destruct (make_dataset_total file w Hc Hk Hn) as (fs & ls & w' & Hmk).
  exists fs, ls, w'. split; [exact Hmk|].
  apply make_dataset_rows in Hmk as (Xf & HX & _ & -> & -> & _).
  apply mapM_length in HX.
  unfold standardized. rewrite !length_map. repeat split; try assumption.
  intros i r Hi Hg. rewrite nth_error_map, Hi. simpl.
  now rewrite (encode_group_other Hg).
Qed.

(** C6, amended. The rows that give a (feature, label) pair are exactly the
    rows with a value in each of the ten selected columns, in file order;
    the pair of such a row is its standardized features and the class vector
    of its class; the other rows leave no trace in the result. *)
Theorem make_dataset_keeps_complete_rows file w fs ls w' :
  make_dataset fit transform float32 file w = Ok (fs, ls, w') ->
  List.length fs = List.length (kept_rows file)
  /\ List.length ls = List.length (kept_rows file)
  /\ (exists Xf,
        mapM (float_features file) (kept_rows file) = Ok Xf
        /\ forall i r,
             nth_error (kept_rows file) i = Some r ->
             exists x,
               float_features file r = Ok x
               /\ nth_error fs i = Some (map float32 (transform (fit Xf) x))
               /\ nth_error ls i
                  = Some (encode_group (cell_at file r "Cgroup")))
  /\ make_dataset fit transform float32
       {| df_columns := df_columns file; df_rows := kept_rows file |} w
     = Ok (fs, ls, w').
Proof.
  intros Hmk. pose proof Hmk as Hrows.
  apply make_dataset_rows in Hrows as (Xf & HX & _ & -> & -> & ->).
  pose proof (mapM_length _ _ HX) as Hlen.
  unfold standardized. rewrite !length_map. repeat split; try assumption.
  - exists Xf. split; [exact HX|]. intros i r Hi.
    destruct (mapM_nth_error _ _ _ HX Hi) as (x & Hx & Hf).
    exists x. rewrite !nth_error_map, Hx, Hi. auto.
  - rewrite make_dataset_eq_file, kept_rows_idem.
    rewrite make_dataset_eq_file in Hmk. exact Hmk.
Qed.

End MakeDatasetFacts.

(** C5 at the first row of the sample file. *)
Lemma make_dataset_one_hot_witness :
  exists y,
    nth_error sample_labels 0 = Some y
    /\ List.length y = 4
    /\ forall j, j < 4 -> nth j y 0%Z = if j =? 0 then 1%Z else 0%Z.
Proof.
  apply (@make_dataset_one_hot decimal_float _ centre_fit centre_transform exact
           sample_file prep0 sample_features sample_labels
           (logged prep0 [Eread_csv; Efit_transform sample_floats])
           0
           [Str "no"; Num 1; Num 2; Num 3; Num 4; Num 5; Num 6; Num 7;
            Num 8; Num 9; Num 1]
           0 "no"%string).
  - vm_compute. reflexivity.
  - reflexivity.
  - reflexivity.
  - reflexivity.
Defined.

(** C2 on the sample file, whose last row has the class "huge". *)
Lemma make_dataset_unknown_group_witness :
  exists fs ls w',
    make_dataset decimal_float centre_fit centre_transform exact
        sample_file prep0
    = Ok (fs, ls, w')
    /\ List.length fs = List.length (kept_rows sample_file)
    /\ List.length ls = List.length (kept_rows sample_file)
    /\ forall i r,
         nth_error (kept_rows sample_file) i = Some r ->
         (forall name, In name class_names ->
                       cell_at sample_file r "Cgroup" <> Str name) ->
         nth_error ls i = Some [0; 0; 0; 0]%Z.
Proof.
  apply (@make_dataset_unknown_group decimal_float _ centre_fit
           centre_transform exact
           sample_file prep0).
  - reflexivity.
  - vm_compute. lia.
  - reflexivity.
Defined.

(** C6 as stated fails: the third row of the sample file has a missing value
    (in a column that is not selected) and still gives a pair. *)
Lemma make_dataset_keeps_row_with_missing_value :
  ~ (forall file w fs ls w',
       make_dataset decimal_float centre_fit centre_transform exact file w
       = Ok (fs, ls, w') ->
       List.length fs
       = List.length (filter (fun r => negb (existsb isnull r))
                             (df_rows file))).
Proof.
  intros H.
  specialize (H sample_file prep0 _ _ _ eq_refl).
  vm_compute in H. discriminate.
Qed.

(** C6, amended, on the sample file. *)
Lemma make_dataset_keeps_complete_rows_witness :
  List.length sample_features = List.length (kept_rows sample_file)
  /\ List.length sample_labels = List.length (kept_rows sample_file)
  /\ (exists Xf,
        mapM (float_features decimal_float sample_file)
          (kept_rows sample_file) = Ok Xf
        /\ forall i r,
             nth_error (kept_rows sample_file) i = Some r ->
             exists x,
               float_features decimal_float sample_file r = Ok x
               /\ nth_error sample_features i
                  = Some (map exact (centre_transform (centre_fit Xf) x))
               /\ nth_error sample_labels i
                  = Some (encode_group (cell_at sample_file r "Cgroup")))
  /\ make_dataset decimal_float centre_fit centre_transform exact
       {| df_columns := df_columns sample_file;
          df_rows := kept_rows sample_file |} prep0
     = Ok (sample_features, sample_labels,
           logged prep0 [Eread_csv; Efit_transform sample_floats]).
Proof.
  apply (@make_dataset_keeps_complete_rows decimal_float _ centre_fit
           centre_transform exact
           sample_file prep0).
  vm_compute. reflexivity.
Defined.

(** ** Random permutations *)

Lemma remove_nth_Permutation A i (l : list A) x r :
  remove_nth i l = Some (x, r) -> Permutation l (x :: r).
Proof.
  revert i x r. induction l as [|a l IH]; intros [|i] x r H; simpl in H;
    try discriminate.
  - inversion H; subst. reflexivity.
  - destruct (remove_nth i l) as [[y r']|] eqn:E; [|discriminate].
    inversion H; subst. rewrite (IH _ _ _ E). apply perm_swap.
Qed.

Lemma remove_nth_lt A i (l : list A) :
  i < List.length l -> exists x r, remove_nth i l = Some (x, r).
Proof.
  revert i. induction l as [|a l IH]; intros [|i] H; simpl in *; try lia.
  - eauto.
  - destruct (IH i) as (x & r & ->); [lia|]. eauto.
Qed.

Lemma remove_nth_In A (l : list A) x :
  In x l ->
  exists i r, i < List.length l /\ remove_nth i l = Some (x, r).
Proof.
  induction l as [|a l IH]; simpl; [easy|]. intros [->|H].
  - exists 0, l. split; [lia|reflexivity].
  - destruct (IH H) as (i & r & Hi & E).
    exists (S i), (a :: r). split; [lia|]. simpl. now rewrite E.
Qed.

Lemma shuffle_Permutation A n : forall (pool : list A) g,
  List.length pool = n -> Permutation (fst (shuffle n pool g)) pool.
Proof.
  induction n as [|n IH]; intros pool g Hlen; simpl.
  - destruct pool; [reflexivity|discriminate].
  - destruct (draw g) as [d g1].
    destruct (@remove_nth_lt _ (d mod List.length pool) pool) as (x & r & E).
    { apply Nat.mod_upper_bound. lia. }
    rewrite E. pose proof (@remove_nth_Permutation _ _ _ _ _ E) as HP.
    specialize (IH r g1).
    destruct (shuffle n r g1) as [s g2]. simpl in *.
    rewrite HP. apply perm_skip, IH.
    apply Permutation_length in HP. simpl in HP. lia.
Qed.

Lemma permutation_Permutation n g :
  Permutation (fst (permutation n g)) (seq 0 n).
Proof. apply shuffle_Permutation, length_seq. Qed.

(** Every arrangement of the pool is drawn by some generator. *)
Lemma shuffle_onto A (p : list A) : forall pool,
  Permutation p pool ->
  exists g, fst (shuffle (List.length p) pool g) = p.
Proof.
  induction p as [|x p IH]; intros pool HP; simpl.
  - exists []. reflexivity.
  - destruct (@remove_nth_In _ pool x) as (i & r & Hi & E).
    { apply (Permutation_in _ HP). now left. }
    destruct (IH r) as [g Hg].
    { apply Permutation_cons_inv with (a := x).
      rewrite HP. now apply remove_nth_Permutation with (i := i). }
    exists (i :: g). simpl. rewrite Nat.mod_small by exact Hi. rewrite E.
    destruct (shuffle (List.length p) r g) as [s g2]. simpl in *.
    now subst.
Qed.

Lemma permutation_onto n p :
  Permutation p (seq 0 n) -> exists g, fst (permutation n g) = p.
Proof.
  intros HP. unfold permutation.
  assert (Hn : n = List.length p)
    by (rewrite (Permutation_length HP); symmetry; apply length_seq).
  destruct (@shuffle_onto _ p (seq 0 n) HP) as [g Hg].
  exists g. rewrite <- Hn in Hg. exact Hg.
Qed.

(** ** [train_test_split] *)

Lemma safe_indexing_inv A (X : list A) idx L d :
  safe_indexing X idx = Ok L ->
  L = map (fun i => nth i X d) idx
  /\ Forall (fun i => i < List.length X) idx.
Proof.
  unfold safe_indexing. rewrite mapM_Forall2.
  induction 1 as [|i a idx L Hi _ [IH1 IH2]]; simpl; [easy|].
  destruct (nth_error X i) as [a'|] eqn:E; simpl in Hi; [|discriminate].
  inversion Hi; subst. split.
  - f_equal. symmetry. now apply nth_error_nth.
  - constructor; [|assumption]. apply nth_error_Some. congruence.
Qed.

Lemma safe_indexing_total A (X : list A) idx d :
  Forall (fun i => i < List.length X) idx ->
  safe_indexing X idx = Ok (map (fun i => nth i X d) idx).
Proof.
  intros H. unfold safe_indexing. apply mapM_total.
  eapply Forall_impl; [|exact H]. cbv beta. intros i Hi.
  destruct (nth_error X i) as [a|] eqn:E.
  - simpl. now rewrite (nth_error_nth _ _ d E).
  - apply nth_error_None in E. lia.
Qed.

Lemma map_nth_all A (X : list A) d :
  map (fun i => nth i X d) (seq 0 (List.length X)) = X.
Proof.
  induction X as [|a X IH]; simpl; [reflexivity|].
  now rewrite <- seq_shift, map_map, IH.
Qed.

Lemma In_firstn A (l : list A) n x : In x (firstn n l) -> In x l.
Proof.
  intros H. rewrite <- (firstn_skipn n l). apply in_or_app. now left.
Qed.

Lemma In_skipn A (l : list A) n x : In x (skipn n l) -> In x l.
Proof.
  intros H. rewrite <- (firstn_skipn n l). apply in_or_app. now right.
Qed.

Lemma Permutation_seq_lt p n i :
  Permutation p (seq 0 n) -> In i p -> i < n.
Proof.
  intros HP Hi. apply (Permutation_in _ HP), in_seq in Hi. lia.
Qed.

Ltac ceil_by_division :=
  unfold n_test_of, Qceiling, Qfloor, Qopp, Qmult, inject_Z; cbn [Qnum Qden];
  rewrite Pos.mul_1_r;
  match goal with
  | |- Z.to_nat (- (?a / ?b)) = (?m / ?c)%nat =>
      let H1 := fresh in let H2 := fresh in
      let H3 := fresh in let H4 := fresh in
      pose proof (Z.div_mod a b ltac:(lia)) as H1;
      pose proof (Z.mod_pos_bound a b ltac:(lia)) as H2;
      pose proof (Nat.div_mod m c ltac:(lia)) as H3;
      pose proof (Nat.mod_upper_bound m c ltac:(lia)) as H4;
      generalize dependent (a / b)%Z; intros ?;
      generalize dependent (a mod b)%Z; intros ?;
      generalize dependent (m / c)%nat; intros ?;
      generalize dependent (m mod c)%nat; intros; lia
  end.

Lemma n_test_fifth n : n_test_of (20 # 100) n = (n + 4) / 5.
Proof. ceil_by_division. Qed.

Lemma n_test_quarter n : n_test_of (25 # 100) n = (n + 3) / 4.
Proof. ceil_by_division. Qed.

(** One call: the two parts are read at the two parts of a permutation of
    the positions. *)
Lemma train_test_split_inv A B (X : list A) (y : list B) ts w
    Xtr Xte ytr yte w' dX dy :
  train_test_split X y ts w = Ok (Xtr, Xte, ytr, yte, w') ->
  let n := List.length X in
  exists i_train i_test,
    Permutation (i_test ++ i_train) (seq 0 n)
    /\ List.length i_test = n_test_of ts n
    /\ n_test_of ts n < n
    /\ List.length y = n
    /\ Xtr = map (fun i => nth i X dX) i_train
    /\ Xte = map (fun i => nth i X dX) i_test
    /\ ytr = map (fun i => nth i y dy) i_train
    /\ yte = map (fun i => nth i y dy) i_test
    /\ calls w' = calls w ++ [Etrain_test_split n ts].
Proof.
  unfold train_test_split, pbind, log, modify, lift, pret, np_permutation.
  cbn beta iota.
  destruct (List.length y =? List.length X) eqn:Ey; simpl; [|discriminate].
  destruct (Qltb 0 ts && Qltb ts 1); simpl; [|discriminate].
  destruct (List.length X - n_test_of ts (List.length X) =? 0) eqn:En;
    simpl; [discriminate|].
  apply Nat.eqb_eq in Ey. apply Nat.eqb_neq in En.
  pose proof (permutation_Permutation (List.length X) (np_random w)) as HP.
  destruct (permutation (List.length X) (np_random w)) as [p g']. simpl in *.
  pose proof (Permutation_length HP) as Hlen. rewrite length_seq in Hlen.
  rewrite (firstn_all2 (n := List.length X - _)) by (rewrite length_skipn; lia).
  set (n_test := n_test_of ts (List.length X)) in *.
  destruct (safe_indexing X (skipn n_test p)) as [a|] eqn:E1; [|discriminate].
  destruct (safe_indexing X (firstn n_test p)) as [b|] eqn:E2; [|discriminate].
  destruct (safe_indexing y (skipn n_test p)) as [c|] eqn:E3; [|discriminate].
  destruct (safe_indexing y (firstn n_test p)) as [d|] eqn:E4; [|discriminate].
  intros H. inversion H; subst; clear H.
  exists (skipn n_test p), (firstn n_test p).
  rewrite firstn_skipn, length_firstn.
  apply (safe_indexing_inv _ _ dX) in E1 as [-> _].
  apply (safe_indexing_inv _ _ dX) in E2 as [-> _].
  apply (safe_indexing_inv _ _ dy) in E3 as [-> _].
  apply (safe_indexing_inv _ _ dy) in E4 as [-> _].
  repeat split; try assumption; try reflexivity; lia.
Qed.

(** One call returns whenever the two lists have the same length and the
    training part is not empty. *)
Lemma train_test_split_total A B (X : list A) (y : list B) ts w :
  List.length y = List.length X ->
  Qltb 0 ts && Qltb ts 1 = true ->
  n_test_of ts (List.length X) < List.length X ->
  exists res w', train_test_split X y ts w = Ok (res, w').
Proof.
  intros Hy Hts Hn.
  unfold train_test_split, pbind, log, modify, lift, pret, np_permutation.
  cbn beta iota. rewrite Hy, Nat.eqb_refl, Hts. simpl.
  destruct (List.length X - n_test_of ts (List.length X) =? 0) eqn:En.
  { apply Nat.eqb_eq in En. lia. }
  simpl.
  pose proof (permutation_Permutation (List.length X) (np_random w)) as HP.
  destruct (permutation (List.length X) (np_random w)) as [p g']. simpl in *.
  assert (Hin : forall l, incl l p -> Forall (fun i => i < List.length X) l).
  { intros l Hl. apply Forall_forall. intros i Hi.
    eapply Permutation_seq_lt; [exact HP|]. apply Hl, Hi. }
  assert (Hin' : forall l, incl l p -> Forall (fun i => i < List.length y) l).
  { rewrite Hy. exact Hin. }
  set (n_test := n_test_of ts (List.length X)) in *.
  assert (H1 : incl (firstn (List.length X - n_test) (skipn n_test p)) p).
  { intros i Hi. eapply In_skipn, In_firstn, Hi. }
  assert (H2 : incl (firstn n_test p) p).
  { intros i Hi. eapply In_firstn, Hi. }
  destruct X as [|x0 X]; [simpl in Hn; lia|].
  destruct y as [|y0 y]; [discriminate|].
  rewrite (safe_indexing_total _ x0 (Hin _ H1)).
  rewrite (safe_indexing_total _ x0 (Hin _ H2)).
  rewrite (safe_indexing_total _ y0 (Hin' _ H1)).
  rewrite (safe_indexing_total _ y0 (Hin' _ H2)).
  simpl. eauto.
Qed.

(** The two calls of the notebook, on lists of the same length. *)
Lemma split_twice_inv X y w s w' :
  split_twice X y w = Ok (s, w') ->
  let n := List.length X in
  let n_test := (n + 4) / 5 in
  let n_val := (n - n_test + 3) / 4 in
  exists i_train i_val i_test,
    Permutation (i_train ++ i_val ++ i_test) (seq 0 n)
    /\ List.length y = n
    /\ X_train s = map (fun i => nth i X []) i_train
    /\ y_train s = map (fun i => nth i y []) i_train
    /\ X_val s = map (fun i => nth i X []) i_val
    /\ y_val s = map (fun i => nth i y []) i_val
    /\ X_test s = map (fun i => nth i X []) i_test
    /\ y_test s = map (fun i => nth i y []) i_test
    /\ List.length i_test = n_test
    /\ List.length i_val = n_val
    /\ List.length i_train = n - n_test - n_val
    /\ n_test < n /\ n_val < n - n_test
    /\ calls w' = calls w ++ [Etrain_test_split n (20 # 100);
                              Etrain_test_split (n - n_test) (25 # 100)].
Proof.
  unfold split_twice, pbind at 1.
  destruct (train_test_split X y (20 # 100) w)
    as [[[[[X_tmp Xte] y_tmp] yte] w1]|] eqn:E1; [|discriminate].
  unfold pbind, pret.
  destruct (train_test_split X_tmp y_tmp (25 # 100) w1)
    as [[[[[Xtr Xva] ytr] yva] w2]|] eqn:E2; [|discriminate].
  intros H. inversion H; subst; clear H. simpl.
  apply (@train_test_split_inv _ _ _ _ _ _ _ _ _ _ _ [] []) in E1.
  apply (@train_test_split_inv _ _ _ _ _ _ _ _ _ _ _ [] []) in E2.
  cbv zeta in E1, E2.
  destruct E1
    as (tmp & i_test & HP1 & Hl1 & Hn1 & Hy1 & -> & -> & -> & -> & Hc1).
  rewrite length_map in E2.
  destruct E2 as (tr & va & HP2 & Hl2 & Hn2 & Hy2 & -> & -> & -> & -> & Hc2).
  rewrite n_test_fifth in *.
  assert (Htmp : List.length tmp = List.length X - (List.length X + 4) / 5).
  { apply Permutation_length in HP1.
    rewrite length_app, length_seq in HP1. lia. }
  rewrite Htmp, n_test_quarter in *.
  assert (Hlt : forall j, In j (va ++ tr) -> j < List.length tmp).
  { intros j Hj. rewrite Htmp.
    eapply Permutation_seq_lt; [exact HP2|exact Hj]. }
  assert (Hre : forall A (L : list A) (d : A) l,
             incl l (va ++ tr) ->
             map (fun i => nth i (map (fun i0 => nth i0 L d) tmp) d) l
             = map (fun i => nth i L d) (map (fun j => nth j tmp 0) l)).
  { intros A L d l Hl. rewrite map_map. apply map_ext_in. intros j Hj.
    rewrite (nth_indep _ d (nth 0 L d)) by (rewrite length_map; auto).
    now rewrite (map_nth (fun i0 => nth i0 L d)). }
  exists (map (fun j => nth j tmp 0) tr), (map (fun j => nth j tmp 0) va),
    i_test.
  rewrite !length_map.
  rewrite !Hre by (intros j Hj; apply in_or_app; auto).
  assert (Hva : List.length tr
                = List.length X - (List.length X + 4) / 5
                  - (List.length X - (List.length X + 4) / 5 + 3) / 4).
  { apply Permutation_length in HP2.
    rewrite length_app, length_seq in HP2. lia. }
  repeat split; try assumption; try reflexivity; try lia.
  - rewrite app_assoc, <- map_app.
    rewrite (Permutation_app_comm tr va), HP2, <- Htmp, map_nth_all.
    now rewrite Permutation_app_comm.
  - rewrite Hc2, Hc1, <- app_assoc. reflexivity.
Qed.

(** The two calls return as soon as three samples are loaded. *)
Lemma split_twice_total X y w :
  List.length y = List.length X ->
  3 <= List.length X ->
  exists s w', split_twice X y w = Ok (s, w').
Proof.
  intros Hy Hn. unfold split_twice, pbind at 1.
  assert (D : forall m c, 0 < c -> m = c * (m / c) + m mod c /\ m mod c < c).
  { intros m c Hc. split; [apply Nat.div_mod|apply Nat.mod_upper_bound]; lia. }
  destruct (@train_test_split_total _ _ X y (20 # 100) w Hy eq_refl)
    as ([[[X_tmp Xte] y_tmp] yte] & w1 & E1).
  { rewrite n_test_fifth.
    destruct (D (List.length X + 4) 5 ltac:(lia)). lia. }
  rewrite E1.
  apply (@train_test_split_inv _ _ _ _ _ _ _ _ _ _ _ [] []) in E1.
  cbv zeta in E1.
  destruct E1 as (tmp & i_test & HP & Hl & _ & _ & -> & _ & -> & _ & _).
  apply Permutation_length in HP.
  rewrite length_app, length_seq, Hl, n_test_fifth in HP.
  unfold pbind, pret.
  destruct (@train_test_split_total _ _
              (map (fun i => nth i X []) tmp) (map (fun i => nth i y []) tmp)
              (25 # 100) w1)
    as ([[[Xtr Xva] ytr] yva] & w2 & E2).
  { now rewrite !length_map. }
  { reflexivity. }
  { rewrite length_map, n_test_quarter.
    destruct (D (List.length X + 4) 5 ltac:(lia)).
    destruct (D (List.length tmp + 3) 4 ltac:(lia)). lia. }
  rewrite E2. eauto.
Qed.

Lemma combine_map_nth A B (X : list A) (y : list B) dX dy idx :
  List.length y = List.length X ->
  combine (map (fun i => nth i X dX) idx) (map (fun i => nth i y dy) idx)
  = map (fun i => nth i (combine X y) (dX, dy)) idx.
Proof.
  intros H. induction idx as [|i idx IH]; simpl; [reflexivity|].
  rewrite IH. f_equal. symmetry. apply combine_nth. now symmetry.
Qed.

(** C3, amended. When the two calls return, the three subsets are read at
    three lists of positions that together hold every position of the
    loaded list exactly once, so they are pairwise disjoint and cover the
    loaded samples; the test set has ceil(n/5) samples, the validation set
    ceil((n - test)/4) and the training set the rest, which is exactly 60%,
    20% and 20% when 5 divides n and is otherwise off by less than two
    samples. *)
Theorem split_twice_partition X y w s w' :
  split_twice X y w = Ok (s, w') ->
  let n := List.length X in
  (exists i_train i_val i_test,
      Permutation (i_train ++ i_val ++ i_test) (seq 0 n)
      /\ NoDup (i_train ++ i_val ++ i_test)
      /\ X_train s = map (fun i => nth i X []) i_train
      /\ y_train s = map (fun i => nth i y []) i_train
      /\ X_val s = map (fun i => nth i X []) i_val
      /\ y_val s = map (fun i => nth i y []) i_val
      /\ X_test s = map (fun i => nth i X []) i_test
      /\ y_test s = map (fun i => nth i y []) i_test)
  /\ Permutation (combine (X_train s) (y_train s) ++ combine (X_val s) (y_val s)
                  ++ combine (X_test s) (y_test s)) (combine X y)
  /\ List.length (X_test s) = (n + 4) / 5
  /\ List.length (X_val s) = (n - (n + 4) / 5 + 3) / 4
  /\ List.length (X_train s) = n - (n + 4) / 5 - (n - (n + 4) / 5 + 3) / 4
  /\ (n mod 5 = 0 ->
      5 * List.length (X_train s) = 3 * n
      /\ 5 * List.length (X_val s) = n
      /\ 5 * List.length (X_test s) = n)
  /\ (3 * n <= 5 * List.length (X_train s) + 6
      /\ 5 * List.length (X_train s) <= 3 * n
      /\ n <= 5 * List.length (X_val s) + 1
      /\ 5 * List.length (X_val s) <= n + 3
      /\ n <= 5 * List.length (X_test s)
      /\ 5 * List.length (X_test s) <= n + 4).
Proof.
  intros H n. apply split_twice_inv in H. cbv zeta in H. fold n in H.
  destruct H as (i_train & i_val & i_test & HP & Hy & Hxt & Hyt & Hxv & Hyv
                 & Hxe & Hye & Hle & Hlv & Hlt & Hn1 & Hn2 & _).
  split.
  { exists i_train, i_val, i_test. repeat split; try assumption.
    apply (Permutation_NoDup (Permutation_sym HP)), seq_NoDup. }
  split.
  { rewrite Hxt, Hyt, Hxv, Hyv, Hxe, Hye.
    rewrite !(combine_map_nth _ _ _ _ _ Hy), <- !map_app, HP.
    replace n with (List.length (combine X y))
      by (rewrite length_combine; fold n; lia).
    now rewrite map_nth_all. }
  rewrite Hxt, Hxv, Hxe, !length_map, Hle, Hlv, Hlt.
  pose proof (Nat.div_mod (n + 4) 5 ltac:(lia)) as D1.
  pose proof (Nat.mod_upper_bound (n + 4) 5 ltac:(lia)) as D2.
  pose proof (Nat.div_mod (n - (n + 4) / 5 + 3) 4 ltac:(lia)) as D3.
  pose proof (Nat.mod_upper_bound (n - (n + 4) / 5 + 3) 4 ltac:(lia)) as D4.
  pose proof (Nat.div_mod n 5 ltac:(lia)) as D5.
  generalize dependent ((n - (n + 4) / 5 + 3) / 4).
  generalize dependent ((n - (n + 4) / 5 + 3) mod 4).
  generalize dependent ((n + 4) / 5). generalize dependent ((n + 4) mod 5).
  intros. repeat split; try lia.
Qed.

Example split_twice_six :
  split_twice six_X six_y prep0
  = Ok (six_splits,
        {| np_random := [];
           calls := [Etrain_test_split 6 (20 # 100);
                     Etrain_test_split 4 (25 # 100)] |}).
Proof. vm_compute. reflexivity. Qed.

(** C3, amended, on six samples: three for training, one for validation, two
    for testing. *)
Lemma split_twice_partition_witness :
  (exists i_train i_val i_test,
      Permutation (i_train ++ i_val ++ i_test) (seq 0 6)
      /\ NoDup (i_train ++ i_val ++ i_test)
      /\ X_train six_splits = map (fun i => nth i six_X []) i_train
      /\ y_train six_splits = map (fun i => nth i six_y []) i_train
      /\ X_val six_splits = map (fun i => nth i six_X []) i_val
      /\ y_val six_splits = map (fun i => nth i six_y []) i_val
      /\ X_test six_splits = map (fun i => nth i six_X []) i_test
      /\ y_test six_splits = map (fun i => nth i six_y []) i_test)
  /\ Permutation
       (combine (X_train six_splits) (y_train six_splits)
        ++ combine (X_val six_splits) (y_val six_splits)
        ++ combine (X_test six_splits) (y_test six_splits))
       (combine six_X six_y)
  /\ List.length (X_test six_splits) = 2
  /\ List.length (X_val six_splits) = 1
  /\ List.length (X_train six_splits) = 3
  /\ (6 mod 5 = 0 ->
      5 * List.length (X_train six_splits) = 3 * 6
      /\ 5 * List.length (X_val six_splits) = 6
      /\ 5 * List.length (X_test six_splits) = 6)
  /\ (3 * 6 <= 5 * List.length (X_train six_splits) + 6
      /\ 5 * List.length (X_train six_splits) <= 3 * 6
      /\ 6 <= 5 * List.length (X_val six_splits) + 1
      /\ 5 * List.length (X_val six_splits) <= 6 + 3
      /\ 6 <= 5 * List.length (X_test six_splits)
      /\ 5 * List.length (X_test six_splits) <= 6 + 4).
Proof.
  apply (@split_twice_partition six_X six_y prep0 six_splits
           {| np_random := [];
              calls := [Etrain_test_split 6 (20 # 100);
                        Etrain_test_split 4 (25 # 100)] |}).
  vm_compute. reflexivity.
Defined.

(** C3 as stated fails: six samples are split 3 / 1 / 2, which is 50%, 17%
    and 33%. *)
Lemma split_twice_not_60_20_20 :
  ~ (forall X y w s w',
       split_twice X y w = Ok (s, w') ->
       5 * List.length (X_train s) = 3 * List.length X
       /\ 5 * List.length (X_val s) = List.length X
       /\ 5 * List.length (X_test s) = List.length X).
Proof.
  intros H. destruct (H _ _ _ _ _ split_twice_six) as (H1 & _).
  vm_compute in H1. discriminate.
Qed.

(** ** Standardization happens once, on the whole table, before the split *)

Section LoadAndSplitFacts.

Variable float_of_str : string -> option Q.
Variable scaler : Type.
Variable fit : list (list Q) -> scaler.
Variable transform : scaler -> list Q -> list Q.
Variable float32 : Q -> Q.

#[local] Abbreviation load_and_split :=
  (@load_and_split float_of_str scaler).
#[local] Abbreviation make_dataset :=
  (@make_dataset float_of_str scaler).
#[local] Abbreviation float_features := (float_features float_of_str).

(** C4. In the cell that loads and splits the data the scaler is fitted and
    applied once, on the table of all loaded rows without missing value,
    and the two splits come after it; the three subsets hold, between them,
    exactly the rows of that table standardized with the statistics of the
    whole table. *)
Theorem load_and_split_scaled_once file w s w' :
  load_and_split fit transform float32 file w = Ok (s, w') ->
  exists Xf,
    mapM (float_features file) (kept_rows file) = Ok Xf
    /\ (exists n_tmp,
          calls w' = calls w ++ [Eread_csv; Efit_transform Xf;
                                 Etrain_test_split (List.length Xf) (20 # 100);
                                 Etrain_test_split n_tmp (25 # 100)])
    /\ Permutation (X_train s ++ X_val s ++ X_test s)
                   (map (fun x => map float32 (transform (fit Xf) x)) Xf).
Proof.
  unfold load_and_split, pbind.
  destruct (make_dataset fit transform float32 file w)
    as [[[X y] w1]|] eqn:E; [|discriminate].
  intros H. apply make_dataset_rows in E as (Xf & HX & _ & -> & -> & ->).
  apply split_twice_inv in H. cbv zeta in H.
  destruct H as (i_train & i_val & i_test & HP & _ & -> & _ & -> & _ & -> & _
                 & _ & _ & _ & _ & _ & Hc).
  exists Xf. split; [exact HX|]. split.
  - eexists. rewrite Hc. unfold logged, standardized. simpl.
    rewrite length_map, <- app_assoc. reflexivity.
  - rewrite <- !map_app, HP, map_nth_all. reflexivity.
Qed.

End LoadAndSplitFacts.

(** C4 on the sample file. *)
Lemma load_and_split_scaled_once_witness :
  exists Xf,
    mapM (float_features decimal_float sample_file)
      (kept_rows sample_file) = Ok Xf
    /\ (exists n_tmp,
          calls {| np_random := [0; 3; 1];
                   calls := [Eread_csv; Efit_transform sample_floats;
                             Etrain_test_split 3 (20 # 100);
                             Etrain_test_split 2 (25 # 100)] |}
          = calls prep0 ++ [Eread_csv; Efit_transform Xf;
                            Etrain_test_split (List.length Xf) (20 # 100);
                            Etrain_test_split n_tmp (25 # 100)])
    /\ Permutation
         (X_train sample_splits ++ X_val sample_splits ++ X_test sample_splits)
         (map (fun x => map exact (centre_transform (centre_fit Xf) x)) Xf).
Proof.
  apply (@load_and_split_scaled_once decimal_float _ centre_fit
           centre_transform exact
           sample_file prep0 sample_splits).
  vm_compute. reflexivity.
Defined.

(** ** The network *)

Lemma Net_new_shape w1 b1 w2 b2 : Net_shape (Net_new w1 b1 w2 b2) = true.
Proof. reflexivity. Qed.

Lemma dot_sum_n (w x : list Q) :
  List.length w = List.length x ->
  dot w x = sum_n (List.length x) (fun i => nth i w 0 * nth i x 0)%Q.
Proof.
  revert x. induction w as [|a w IH]; intros [|b x] H; simpl in *;
    try discriminate; [reflexivity|].
  unfold dot in *. simpl. f_equal. apply IH. lia.
Qed.

Lemma sum_n_Qeq n : forall f g,
  (forall i, i < n -> (f i == g i)%Q) -> (sum_n n f == sum_n n g)%Q.
Proof.
  induction n as [|n IH]; intros f g H; simpl; [reflexivity|].
  rewrite (H O) by lia. rewrite (IH (fun i => f (S i)) (fun i => g (S i))).
  - reflexivity.
  - intros i Hi. apply H. lia.
Qed.

Lemma relu_Qmax v : (relu v == Qmax 0 v)%Q.
Proof.
  unfold relu. destruct (Qle_bool 0 v) eqn:E.
  - apply Qle_bool_iff in E. symmetry. now apply Q.max_r.
  - symmetry. apply Q.max_l. apply Qnot_lt_le. intros H.
    apply Qlt_le_weak, Qle_bool_iff in H. congruence.
Qed.

(** [F.linear] on a row of the right width. *)
Lemma linear_forward_shape l n_in n_out x :
  Linear_shape l n_in n_out = true ->
  List.length x = n_in ->
  exists out,
    linear_forward l x = Ok out
    /\ List.length out = n_out
    /\ forall j, j < n_out ->
         nth j out 0%Q
         = (sum_n n_in (fun i => entry (weight l) j i * nth i x 0)
            + nth j (bias l) 0)%Q.
Proof.
  unfold Linear_shape, linear_forward. intros H Hx.
  apply andb_true_iff in H as [H Hw]. apply andb_true_iff in H as [Hn Hb].
  apply Nat.eqb_eq in Hn, Hb. rewrite Hx, Hw, Hb, Hn, Nat.eqb_refl. simpl.
  eexists. split; [reflexivity|]. split.
  - rewrite length_map, length_combine. lia.
  - intros j Hj.
    rewrite (nth_indep _ 0%Q ((fun p => dot (fst p) x + snd p) ([], 0))%Q)
      by (rewrite length_map, length_combine; lia).
    rewrite (map_nth (fun p => dot (fst p) x + snd p)%Q), combine_nth by lia.
    simpl. f_equal. rewrite dot_sum_n.
    + rewrite Hx. reflexivity.
    + rewrite forallb_forall in Hw. rewrite Hx.
      apply Nat.eqb_eq, Hw, nth_In. lia.
Qed.

(** The two layers on a row of width 9. *)
Lemma forward_shape net x :
  Net_shape net = true ->
  List.length x = 9 ->
  exists h logits,
    linear_forward (fc1 net) x = Ok h
    /\ List.length h = 9
    /\ linear_forward (fc2 net) (map relu h) = Ok logits
    /\ forward net x = Ok logits
    /\ List.length logits = 4
    /\ forall j, j < 4 -> (nth j logits 0 == mlp_spec net x j)%Q.
Proof.
  intros H Hx. apply andb_true_iff in H as [H1 H2].
  destruct (@linear_forward_shape _ _ _ x H1 Hx) as (h & Eh & Hh & Hhj).
  destruct (@linear_forward_shape _ _ _ (map relu h) H2) as (o & Eo & Ho & Hoj).
  { now rewrite length_map. }
  exists h, o. unfold forward. rewrite Eh. simpl. rewrite Eo.
  repeat split; try assumption.
  intros j Hj. rewrite (Hoj j Hj). unfold mlp_spec.
  apply Qplus_comp; [|reflexivity].
  apply sum_n_Qeq. intros k Hk.
  apply Qmult_comp; [reflexivity|].
  rewrite (nth_indep _ 0%Q (relu 0)) by (rewrite length_map; lia).
  rewrite (map_nth relu), (Hhj k Hk). apply relu_Qmax.
Qed.

(** C7. On every input row of width 9 a network with the shapes of
    [Net.__init__] returns four numbers: the output of [fc2] on the rectified
    output of [fc1], unchanged; entry [j] is the value the two-layer
    perceptron formula gives. *)
Theorem Net_forward_logits net x :
  Net_shape net = true ->
  List.length x = 9 ->
  exists h logits,
    linear_forward (fc1 net) x = Ok h
    /\ List.length h = 9
    /\ linear_forward (fc2 net) (map relu h) = Ok logits
    /\ forward net x = Ok logits
    /\ List.length logits = 4
    /\ forall j, j < 4 -> (nth j logits 0 == mlp_spec net x j)%Q.
Proof. exact (@forward_shape net x). Qed.

(** C7 on the sample network: the logits are negative where the shifted
    feature is, and they do not sum to one. *)
Lemma Net_forward_logits_witness :
  exists h logits,
    linear_forward (fc1 sample_net) [1; -1; 2; 0; 0; 0; 0; 0; 0]%Q = Ok h
    /\ List.length h = 9
    /\ linear_forward (fc2 sample_net) (map relu h) = Ok logits
    /\ forward sample_net [1; -1; 2; 0; 0; 0; 0; 0; 0]%Q = Ok logits
    /\ List.length logits = 4
    /\ forall j, j < 4 ->
         (nth j logits 0
          == mlp_spec sample_net [1; -1; 2; 0; 0; 0; 0; 0; 0] j)%Q.
Proof.
  apply (@Net_forward_logits sample_net [1; -1; 2; 0; 0; 0; 0; 0; 0]%Q);
    reflexivity.
Defined.

(** ** Data loaders *)

Lemma batch_sampler_concat bs : forall sampler cur,
  List.concat (batch_sampler bs cur sampler) = cur ++ sampler.
Proof.
  induction sampler as [|idx rest IH]; intros cur; simpl.
  - destruct cur; simpl; now rewrite ?app_nil_r.
  - destruct (List.length (cur ++ [idx]) =? bs); simpl; rewrite IH;
      now rewrite <- app_assoc.
Qed.

(** Every batch but the last is full, and the last is not empty. *)
Lemma batch_sampler_sizes bs : 0 < bs -> forall sampler cur,
  List.length cur < bs ->
  forall i b,
    nth_error (batch_sampler bs cur sampler) i = Some b ->
    1 <= List.length b <= bs
    /\ (S i < List.length (batch_sampler bs cur sampler) -> List.length b = bs).
Proof.
  intros Hbs. induction sampler as [|idx rest IH]; intros cur Hcur i b; simpl.
  - destruct (Nat.ltb_spec 0 (List.length cur)) as [Hc|Hc].
    + destruct i as [|i]; simpl; [|destruct i; discriminate].
      intros H. inversion H; subst. simpl. lia.
    + destruct i; discriminate.
  - assert (Hc' : List.length (cur ++ [idx]) = S (List.length cur))
      by (rewrite length_app; simpl; lia).
    destruct (Nat.eqb_spec (List.length (cur ++ [idx])) bs) as [E|E].
    + destruct i as [|i]; simpl.
      * intros H. inversion H; subst. lia.
      * intros H. destruct (IH [] Hbs i b H) as [H1 H2]. split; [exact H1|].
        intros Hi. apply H2. lia.
    + apply IH. lia.
Qed.

Lemma same_width_Forall A (rows : list (list A)) k :
  Forall (fun x => List.length x = k) rows -> same_width rows = true.
Proof.
  intros H. destruct H as [|r rows Hr H]; simpl; [reflexivity|].
  apply forallb_forall. intros x Hx. rewrite Forall_forall in H.
  apply Nat.eqb_eq. rewrite Hr. apply H, Hx.
Qed.

Lemma same_width_inv A (rows : list (list A)) :
  same_width rows = true ->
  exists k, Forall (fun x => List.length x = k) rows.
Proof.
  destruct rows as [|r rows]; simpl; intros H; [exists 0; constructor|].
  exists (List.length r). constructor; [reflexivity|].
  apply Forall_forall. intros x Hx.
  rewrite forallb_forall in H. apply Nat.eqb_eq, H, Hx.
Qed.

Lemma Forall_select A (P : A -> Prop) (l : list A) (d : A) idx :
  Forall P l ->
  Forall (fun i => i < List.length l) idx ->
  Forall P (map (fun i => nth i l d) idx).
Proof.
  intros Hl Hi. apply Forall_forall. intros x Hx.
  apply in_map_iff in Hx as (i & <- & Hin).
  rewrite Forall_forall in Hl, Hi. apply Hl, nth_In, Hi, Hin.
Qed.

Lemma fetch_inv d idx inputs labels :
  fetch d idx = Ok (inputs, labels) ->
  inputs = map (fun i => nth i (samples d) []) idx
  /\ labels = map (fun i => nth i (targets d) []) idx.
Proof.
  unfold fetch. destruct (mapM (getitem d) idx) as [items|] eqn:E; simpl;
    [|discriminate].
  unfold default_collate.
  destruct (same_width (map fst items)); simpl; [|discriminate].
  destruct (same_width (map snd items)); simpl; [|discriminate].
  intros H. inversion H; subst; clear H.
  apply mapM_Forall2 in E.
  induction E as [|i it idx items Hi _ [IH1 IH2]]; simpl; [easy|].
  unfold getitem in Hi.
  destruct (nth_error (samples d) i) as [sm|] eqn:E1; simpl in Hi;
    [|discriminate].
  destruct (nth_error (targets d) i) as [tg|] eqn:E2; simpl in Hi;
    [|discriminate].
  inversion Hi; subst. simpl.
  rewrite (nth_error_nth _ _ [] E1), (nth_error_nth _ _ [] E2).
  now rewrite <- IH1, <- IH2.
Qed.

Lemma fetch_all_inv d : forall chunks batches,
  mapM (fetch d) chunks = Ok batches ->
  List.concat (map fst batches)
  = map (fun i => nth i (samples d) []) (List.concat chunks)
  /\ List.concat (map snd batches)
     = map (fun i => nth i (targets d) []) (List.concat chunks).
Proof.
  intros chunks batches H. apply mapM_Forall2 in H.
  induction H as [|c [inputs labels] chunks batches Hc _ IH]; simpl; [easy|].
  destruct IH as (IH1 & IH2).
  apply fetch_inv in Hc as [-> ->].
  rewrite IH1, IH2, !map_app. easy.
Qed.

Lemma fetch_total d idx :
  Forall (fun i => i < len d /\ i < List.length (targets d)) idx ->
  same_width (map (fun i => nth i (samples d) []) idx) = true ->
  same_width (map (fun i => nth i (targets d) []) idx) = true ->
  fetch d idx
  = Ok (map (fun i => nth i (samples d) []) idx,
        map (fun i => nth i (targets d) []) idx).
Proof.
  intros H Hs Ht. unfold fetch.
  rewrite (@mapM_total _ _ (getitem d)
             (fun i => (nth i (samples d) [], nth i (targets d) [])) idx).
  - simpl. unfold default_collate. rewrite !map_map. simpl.
    now rewrite Hs, Ht.
  - eapply Forall_impl; [|exact H]. cbv beta. intros i [H1 H2].
    unfold getitem, len in *.
    destruct (nth_error (samples d) i) as [x|] eqn:E1;
      [|apply nth_error_None in E1; lia].
    destruct (nth_error (targets d) i) as [t|] eqn:E2;
      [|apply nth_error_None in E2; lia].
    simpl. now rewrite (nth_error_nth _ _ [] E1), (nth_error_nth _ _ [] E2).
Qed.

Section LoaderFacts.

Variable feature_datasets : phase -> DatasetFolder.

(** One pass over the loader of a split. *)
Lemma iter_loader_inv ph g batches g' :
  iter_loader (dataloaders feature_datasets ph) g = Ok (batches, g') ->
  let d := feature_datasets ph in
  exists order,
    Permutation order (seq 0 (len d))
    /\ (ph = train ->
        0 < len d /\ (order, g') = permutation (len d) (snd (draw g)))
    /\ (ph <> train ->
        order = seq 0 (len d) /\ g' = snd (draw g)
        /\ List.concat (map fst batches) = samples d)
    /\ List.concat (map fst batches)
       = map (fun i => nth i (samples d) []) order
    /\ List.concat (map snd batches)
       = map (fun i => nth i (targets d) []) order
    /\ forall i b,
         nth_error batches i = Some b ->
         List.length (snd b) = List.length (fst b)
         /\ 1 <= List.length (fst b) <= 64
         /\ (S i < List.length batches -> List.length (fst b) = 64).
Proof.
  unfold iter_loader, sampler_indices. simpl.
  set (d := feature_datasets ph). set (g0 := snd (draw g)).
  destruct (phase_eqb ph train && (len d =? 0)) eqn:Echk; [discriminate|].
  assert (Hperm : forall order,
            (if phase_eqb ph train then permutation (len d) g0
             else (seq 0 (len d), g0)) = (order, g') ->
            Permutation order (seq 0 (len d))
            /\ (ph = train ->
                0 < len d /\ (order, g') = permutation (len d) g0)
            /\ (ph <> train -> order = seq 0 (len d) /\ g' = g0)).
  { intros order E. destruct ph; simpl in E, Echk.
    - pose proof (permutation_Permutation (len d) g0) as HP.
      rewrite E in HP. simpl in HP.
      apply Nat.eqb_neq in Echk. repeat split; try easy. lia.
    - inversion E; subst. repeat split; try easy.
    - inversion E; subst. repeat split; try easy. }
  destruct (if phase_eqb ph train then permutation (len d) g0
            else (seq 0 (len d), g0)) as [order g1] eqn:Eo.
  destruct (mapM (fetch d) (batch_sampler global_batch_size [] order))
    as [bs|] eqn:Eb; simpl; [|discriminate].
  intros H. inversion H; subst; clear H.
  destruct (Hperm order eq_refl) as (HP & Htr & Hseq).
  pose proof (fetch_all_inv _ _ Eb) as (H1 & H2).
  rewrite batch_sampler_concat in H1, H2. simpl in H1, H2.
  exists order.
  split; [exact HP|]. split; [exact Htr|]. split.
  { intros Hph. destruct (Hseq Hph) as [Ho Hg]. repeat split; try assumption.
    rewrite H1, Ho. apply map_nth_all. }
  split; [exact H1|]. split; [exact H2|].
  intros i b Hb.
  destruct (mapM_nth_error_inv _ _ _ Eb Hb) as (c & Hc & Hf).
  destruct b as [inputs labels]. apply fetch_inv in Hf as [-> ->].
  simpl. rewrite !length_map.
  apply (batch_sampler_sizes (bs := global_batch_size)) in Hc;
    [| unfold global_batch_size; lia| simpl; unfold global_batch_size; lia].
  rewrite (mapM_length _ _ Eb).
  unfold global_batch_size in Hc. repeat split; try lia. apply Hc.
Qed.

(** A pass returns when every sample has its class vector, the samples
    are of one width and so are the class vectors (and, for the training
    split, there is a sample). *)
Lemma iter_loader_returns ph g :
  let d := feature_datasets ph in
  (ph = train -> 0 < len d) ->
  List.length (targets d) = len d ->
  same_width (samples d) = true ->
  same_width (targets d) = true ->
  exists batches g',
    iter_loader (dataloaders feature_datasets ph) g = Ok (batches, g').
Proof.
  cbv zeta. set (d := feature_datasets ph). intros Hpos Ht Hs Hst.
  apply same_width_inv in Hs as [ks Hs].
  apply same_width_inv in Hst as [kt Hst].
  unfold iter_loader, sampler_indices. simpl. fold d.
  set (g0 := snd (draw g)).
  assert (Echk : phase_eqb ph train && (len d =? 0) = false).
  { destruct ph; simpl; try reflexivity.
    apply Nat.eqb_neq. specialize (Hpos eq_refl). lia. }
  rewrite Echk.
  assert (HP : Permutation
                 (fst (if phase_eqb ph train then permutation (len d) g0
                       else (seq 0 (len d), g0)))
                 (seq 0 (len d))).
  { destruct (phase_eqb ph train);
      [apply permutation_Permutation|reflexivity]. }
  destruct (if phase_eqb ph train then permutation (len d) g0
            else (seq 0 (len d), g0)) as [order g1].
  simpl in HP.
  rewrite (@mapM_total _ _ (fetch d)
             (fun c => (map (fun i => nth i (samples d) []) c,
                        map (fun i => nth i (targets d) []) c))).
  - simpl. eauto.
  - apply Forall_forall. intros c Hc.
    assert (Hidx : Forall (fun i => i < len d) c).
    { apply Forall_forall. intros i Hi.
      assert (Hin : In i order).
      { rewrite <- (app_nil_l order),
          <- (batch_sampler_concat global_batch_size order []).
        apply in_concat. eauto. }
      eapply Permutation_seq_lt; eauto. }
    apply fetch_total.
    + rewrite Ht. eapply Forall_impl; [|exact Hidx]. cbv beta. lia.
    + eapply same_width_Forall, Forall_select; eassumption.
    + eapply same_width_Forall, Forall_select; [exact Hst|].
      now rewrite Ht.
Qed.

(** A generator state from which the order drawn for two or more positions
    is not the stored one. *)
Lemma permutation_not_stored n :
  2 <= n -> fst (permutation n [1]) <> seq 0 n.
Proof.
  intros Hn. destruct n as [|[|n]]; try lia.
  unfold permutation.
  assert (Hstep : forall m (pool : list nat) d g,
            shuffle (S m) pool (d :: g)
            = match remove_nth (d mod List.length pool) pool with
              | Some (x, rest) =>
                  let (r, g2) := shuffle m rest g in (x :: r, g2)
              | None => ([], g)
              end) by reflexivity.
  rewrite Hstep, length_seq, Nat.mod_small by lia.
  cbn [seq remove_nth].
  destruct (shuffle (S n) (0 :: seq 2 n) []) as [r g2]. simpl.
  discriminate.
Qed.

(** C9. One pass over the loader of a split visits the positions of the
    split in an order that holds each position exactly once; for the
    validation and test splits this is the stored order, whatever the state
    of the generator.  The batches are the consecutive groups of 64 of that
    order, the last one holding what remains (at least one sample).  For a
    training split of two or more samples (each with its class vector, all
    of one width) there is a state of the generator from which the pass
    does not visit the stored order. *)
Theorem dataloader_pass :
  (forall ph g batches g',
     iter_loader (dataloaders feature_datasets ph) g = Ok (batches, g') ->
     let d := feature_datasets ph in
     exists order,
       Permutation order (seq 0 (len d))
       /\ (ph <> train ->
           order = seq 0 (len d)
           /\ List.concat (map fst batches) = samples d)
       /\ List.concat (map fst batches)
          = map (fun i => nth i (samples d) []) order
       /\ List.concat (map snd batches)
          = map (fun i => nth i (targets d) []) order
       /\ forall i b,
            nth_error batches i = Some b ->
            List.length (snd b) = List.length (fst b)
            /\ 1 <= List.length (fst b) <= 64
            /\ (S i < List.length batches -> List.length (fst b) = 64))
  /\ (let d := feature_datasets train in
      2 <= len d ->
      List.length (targets d) = len d ->
      same_width (samples d) = true ->
      same_width (targets d) = true ->
      exists g batches g' order,
        iter_loader (dataloaders feature_datasets train) g
        = Ok (batches, g')
        /\ Permutation order (seq 0 (len d))
        /\ order <> seq 0 (len d)
        /\ List.concat (map fst batches)
           = map (fun i => nth i (samples d) []) order
        /\ List.concat (map snd batches)
           = map (fun i => nth i (targets d) []) order).
Proof.
  split.
  - intros ph g batches g' H. apply iter_loader_inv in H. cbv zeta in *.
    destruct H as (order & HP & _ & Hseq & H1 & H2 & Hb).
    exists order. split; [exact HP|]. split.
    + intros Hph. destruct (Hseq Hph) as (Ho & _ & Hs). split; assumption.
    + split; [exact H1|]. split; [exact H2|exact Hb].
  - cbv zeta. intros Hn Ht Hs Hst.
    destruct (@iter_loader_returns train [0; 1]) as (batches & g' & E);
      try assumption; [intros _; lia|].
    pose proof E as Hinv. apply iter_loader_inv in Hinv. cbv zeta in Hinv.
    destruct Hinv as (order & HP & Htr & _ & H1 & H2 & _).
    destruct (Htr eq_refl) as [_ Ho]. simpl in Ho.
    exists [0; 1], batches, g', order.
    split; [exact E|]. split; [exact HP|]. split; [|split; assumption].
    pose proof (permutation_not_stored Hn) as Hne.
    rewrite <- Ho in Hne. exact Hne.
Qed.

End LoaderFacts.

(** ** Programs *)

Lemma pbind_inv S A B (m : prog S A) (k : A -> prog S B) s b s' :
  pbind m k s = Ok (b, s') ->
  exists a s1, m s = Ok (a, s1) /\ k a s1 = Ok (b, s').
Proof.
  unfold pbind. destruct (m s) as [[a s1]|]; [eauto|discriminate].
Qed.

Lemma pbind_ok S A B (m : prog S A) (k : A -> prog S B) s a s1 :
  m s = Ok (a, s1) -> pbind m k s = k a s1.
Proof. unfold pbind. now intros ->. Qed.

Lemma lift_inv S A (r : result A) (s : S) a s' :
  lift r s = Ok (a, s') -> r = Ok a /\ s' = s.
Proof.
  unfold lift. destruct r; intros H; inversion H; auto.
Qed.

Lemma Permutation_filter_length A (f : A -> bool) l l' :
  Permutation l l' -> List.length (filter f l) = List.length (filter f l').
Proof.
  induction 1 as [|x l l' _ IH|x y l|l l' l'' _ IH1 _ IH2]; simpl.
  - reflexivity.
  - destruct (f x); simpl; now rewrite IH.
  - destruct (f x), (f y); reflexivity.
  - now rewrite IH1.
Qed.

Lemma count_equal_filter A B (f : A -> nat) (g : B -> nat) xs ys :
  count_equal (map f xs) (map g ys)
  = List.length (filter (fun p => f (fst p) =? g (snd p)) (combine xs ys)).
Proof.
  unfold count_equal. revert ys.
  induction xs as [|x xs IH]; intros [|y ys]; simpl; try reflexivity.
  destruct (f x =? g y); simpl; now rewrite IH.
Qed.

(** ** Evaluation passes *)

Lemma forward_batch_predict net inputs outputs :
  forward_batch net inputs = Ok outputs ->
  map argmax outputs = map (predict net) inputs.
Proof.
  unfold forward_batch. rewrite mapM_Forall2.
  induction 1 as [|x o inputs outputs Hx _ IH]; simpl; [reflexivity|].
  unfold predict at 1. now rewrite Hx, IH.
Qed.

Lemma combine_concat A B (bs : list (list A * list B)) :
  Forall (fun b => List.length (snd b) = List.length (fst b)) bs ->
  flat_map (fun b => combine (fst b) (snd b)) bs
  = combine (List.concat (map fst bs)) (List.concat (map snd bs)).
Proof.
  induction 1 as [|[xs ys] bs Hb _ IH]; simpl in *; [reflexivity|].
  rewrite IH. clear IH. revert ys Hb.
  induction xs as [|x xs IHx]; intros [|y ys] Hb; simpl in *;
    try discriminate; [reflexivity|].
  f_equal. apply IHx. lia.
Qed.

Lemma length_concat_map A B (f : A -> list B) l :
  List.length (List.concat (map f l))
  = fold_right Nat.add 0 (map (fun a => List.length (f a)) l).
Proof.
  induction l as [|a l IH]; simpl; [reflexivity|].
  now rewrite length_app, IH.
Qed.

(** ** Choosing the best epoch *)

Lemma Qltb_lt x y : Qltb x y = true <-> (x < y)%Q.
Proof.
  unfold Qltb. rewrite negb_true_iff. split; intros H.
  - apply Qnot_le_lt. intros Hle. apply Qle_bool_iff in Hle. congruence.
  - destruct (Qle_bool y x) eqn:E; [|reflexivity].
    apply Qle_bool_iff in E. exfalso. now apply (Qle_not_lt _ _ E).
Qed.

Lemma Qltb_ge x y : Qltb x y = false <-> (y <= x)%Q.
Proof.
  unfold Qltb. rewrite negb_false_iff. apply Qle_bool_iff.
Qed.

Lemma nth_error_Some_lt A (l : list A) k x :
  nth_error l k = Some x -> k < List.length l.
Proof. intros H. apply nth_error_Some. congruence. Qed.

Lemma firstn_seq_le k a n : k <= n -> firstn k (seq a n) = seq a k.
Proof.
  revert a n. induction k as [|k IH]; intros a [|n] H; simpl; try reflexivity;
    try lia.
  f_equal. apply IH. lia.
Qed.

(** The best of a history is at least every accuracy of the history; it is
    the starting best when no accuracy exceeds it, and otherwise the first
    pair of the history whose accuracy is the greatest. *)
Lemma select_best_spec history : forall b,
  (forall h, In h history -> (fst h <= best_acc (select_best b history))%Q)
  /\ (best_acc b <= best_acc (select_best b history))%Q
  /\ ((select_best b history = b
       /\ forall h, In h history -> (fst h <= best_acc b)%Q)
      \/ exists k h,
           nth_error history k = Some h
           /\ select_best b history
              = {| best_model_wts := snd h; best_acc := fst h |}
           /\ (best_acc b < fst h)%Q
           /\ forall j h', j < k -> nth_error history j = Some h' ->
                           (fst h' < fst h)%Q).
Proof.
  induction history as [|h0 rest IH]; intros b; simpl.
  - split; [intros h []|]. split; [apply Qle_refl|]. left.
    split; [reflexivity|].
    intros h [].
  - unfold update_best at 1 2 3 4.
    destruct (Qltb (best_acc b) (fst h0)) eqn:E.
    + apply Qltb_lt in E.
      destruct (IH {| best_model_wts := snd h0; best_acc := fst h0 |})
        as (Hall & Hge & Hcase).
      simpl in Hge. split; [|split].
      * intros h [<-|Hin]; [exact Hge|now apply Hall].
      * apply Qlt_le_weak. eapply Qlt_le_trans; eassumption.
      * right. destruct Hcase as [[Heq Hno]|(k & h & Hk & Heq & Hlt & Hearly)].
        -- exists 0, h0. simpl. repeat split; try assumption.
           intros j h' Hj. lia.
        -- exists (S k), h. simpl in *. repeat split; try assumption.
           ++ eapply Qlt_trans; eassumption.
           ++ intros [|j] h' Hj Hn; simpl in Hn.
              ** inversion Hn; subst. exact Hlt.
              ** apply (Hearly j h'); [lia|exact Hn].
    + apply Qltb_ge in E.
      destruct (IH b) as (Hall & Hge & Hcase). split; [|split].
      * intros h [<-|Hin]; [|now apply Hall].
        eapply Qle_trans; eassumption.
      * exact Hge.
      * destruct Hcase as [[Heq Hno]|(k & h & Hk & Heq & Hlt & Hearly)].
        -- left. split; [exact Heq|].
           intros h [<-|Hin]; [exact E|now apply Hno].
        -- right. exists (S k), h. simpl. repeat split; try assumption.
           intros [|j] h' Hj Hn; simpl in Hn.
           ++ inversion Hn; subst. eapply Qle_lt_trans; eassumption.
           ++ apply (Hearly j h'); [lia|exact Hn].
Qed.

Section TrainingFacts.

Variables G O Sch : Type.
Variable zero_ : G -> G.
Variable accumulate : G -> G -> G.
Variable autograd : Net -> list (list Q) -> list nat -> G.
Variable opt_step : O -> Net -> option G -> O * Net.
Variable sched_step : Sch -> O -> Sch * O.
Variable criterion : list (list Q) -> list nat -> Q.
Variable feature_datasets : phase -> DatasetFolder.

#[local] Abbreviation world := (world G O Sch).
#[local] Abbreviation train_batches :=
  (@train_batches G O Sch zero_ accumulate autograd opt_step criterion).
#[local] Abbreviation test_batches := (@test_batches G O Sch criterion).
#[local] Abbreviation run_phase :=
  (@run_phase G O Sch zero_ accumulate autograd opt_step sched_step criterion
     feature_datasets).
#[local] Abbreviation run_phases :=
  (@run_phases G O Sch zero_ accumulate autograd opt_step sched_step criterion
     feature_datasets).
#[local] Abbreviation epoch_body :=
  (@epoch_body G O Sch zero_ accumulate autograd opt_step sched_step criterion
     feature_datasets).
#[local] Abbreviation epoch_loop :=
  (@epoch_loop G O Sch zero_ accumulate autograd opt_step sched_step criterion
     feature_datasets).
#[local] Abbreviation train_model :=
  (@train_model G O Sch zero_ accumulate autograd opt_step sched_step criterion
     feature_datasets).
#[local] Abbreviation train_prefix :=
  (@train_prefix G O Sch zero_ accumulate autograd opt_step sched_step criterion
     feature_datasets).
#[local] Abbreviation print_test_accuracy :=
  (@print_test_accuracy G O Sch criterion feature_datasets).
#[local] Abbreviation iter_dataloader :=
  (@iter_dataloader G O Sch feature_datasets).
#[local] Abbreviation dataloaders := (dataloaders feature_datasets).
#[local] Abbreviation dataset_sizes := (dataset_sizes feature_datasets).
#[local] Abbreviation div_size := (div_size feature_datasets).
#[local] Abbreviation totals_ok := (totals_ok criterion).
#[local] Abbreviation same_but_grad := (@same_but_grad G O Sch).
#[local] Abbreviation pass_metrics := (pass_metrics criterion feature_datasets).

Lemma totals_step net inputs labels outputs rest rl rc res :
  forward_batch net inputs = Ok outputs ->
  totals_ok net rest
    (rl + criterion outputs (map argmax (map (map inject_Z) labels))
          * inject_Z (Z.of_nat (List.length inputs)))%Q
    (rc + count_equal (map argmax outputs)
                      (map argmax (map (map inject_Z) labels)))
    res ->
  totals_ok net ((inputs, labels) :: rest) rl rc res.
Proof.
  intros Hf [H1 H2]. unfold totals_ok. simpl.
  unfold weighted_batch_loss at 1. simpl. rewrite Hf.
  rewrite (forward_batch_predict _ _ Hf), map_map in H2.
  change (fun x => argmax (map inject_Z x)) with class_of in H2.
  rewrite count_equal_filter in H2.
  rewrite map_map in H1.
  change (fun x => argmax (map inject_Z x)) with class_of in H1.
  split.
  - rewrite H1. now rewrite Qplus_assoc.
  - rewrite H2, filter_app, length_app. lia.
Qed.

(** The batch loop of [print_test_accuracy] changes nothing and computes
    the totals under the parameters of the model. *)
Lemma test_batches_inv batches : forall rl rc w res w',
  test_batches batches rl rc w = Ok (res, w') ->
  w' = w /\ totals_ok (params (model w)) batches rl rc res.
Proof.
  induction batches as [|[inputs labels] rest IH]; intros rl rc w res w' H.
  - inversion H; subst. split; [reflexivity|]. unfold totals_ok. simpl.
    split; [now rewrite Qplus_0_r|lia].
  - simpl in H. unfold pbind, gets, lift in H. simpl in H.
    destruct (forward_batch (params (model w)) inputs) as [outputs|] eqn:Ef;
      [|discriminate].
    apply IH in H as [-> Ht]. split; [reflexivity|].
    eapply totals_step; eassumption.
Qed.

(** The batch loop of [train_model] outside the training phase changes no
    parameter and computes the totals under the parameters of the model. *)
Lemma train_batches_eval ph batches : phase_eqb ph train = false ->
  forall rl rc w res w',
  train_batches ph batches rl rc w = Ok (res, w') ->
  same_but_grad w w' /\ totals_ok (params (model w)) batches rl rc res.
Proof.
  intros Hph.
  induction batches as [|[inputs labels] rest IH]; intros rl rc w res w' H.
  - inversion H; subst. split; [unfold same_but_grad; tauto|].
    unfold totals_ok. simpl. split; [now rewrite Qplus_0_r|lia].
  - simpl in H. rewrite Hph in H.
    unfold pbind, gets, lift, zero_grad, set_model, modify, pret in H.
    simpl in H.
    destruct (forward_batch (params (model w)) inputs) as [outputs|] eqn:Ef;
      [|discriminate].
    apply IH in H as [Hs Ht]. simpl in *. split.
    + unfold same_but_grad in *. simpl in *. exact Hs.
    + eapply totals_step; eassumption.
Qed.

(** The batch loop of [train_model] prints nothing and draws nothing. *)
Lemma train_batches_quiet ph batches : forall rl rc w res w',
  train_batches ph batches rl rc w = Ok (res, w') ->
  stdout w' = stdout w /\ torch_random w' = torch_random w.
Proof.
  induction batches as [|[inputs labels] rest IH]; intros rl rc w res w' H.
  - inversion H; subst. tauto.
  - simpl in H.
    unfold pbind, gets, lift, zero_grad, set_model, modify, pret in H.
    simpl in H.
    destruct (forward_batch (params (model w)) inputs) as [outputs|] eqn:Ef;
      [|discriminate].
    destruct (phase_eqb ph train).
    + unfold loss_backward, optimizer_step, set_model, modify, pbind in H.
      simpl in H.
      destruct (opt_step _ _ _) as [o p] in H.
      apply IH in H. simpl in H. exact H.
    + apply IH in H. simpl in H. exact H.
Qed.

Lemma iter_dataloader_inv ph w batches w1 :
  iter_dataloader ph w = Ok (batches, w1) ->
  iter_loader (dataloaders ph) (torch_random w) = Ok (batches, torch_random w1)
  /\ model w1 = model w /\ optimizer w1 = optimizer w
  /\ scheduler w1 = scheduler w /\ stdout w1 = stdout w.
Proof.
  unfold iter_dataloader.
  destruct (iter_loader (dataloaders ph) (torch_random w)) as [[bs g']|];
    [|discriminate].
  intros H. inversion H; subst. simpl. tauto.
Qed.

(** One pass yields as many samples as the split has, and counting the
    correctly classified samples batch by batch counts those of the
    split. *)
Lemma pass_counts ph g batches g' :
  iter_loader (dataloaders ph) g = Ok (batches, g') ->
  fold_right Nat.add 0 (map (fun b => List.length (fst b)) batches)
  = dataset_sizes ph
  /\ forall net,
       List.length
         (filter (fun p => predict net (fst p) =? class_of (snd p))
                 (flat_map (fun b => combine (fst b) (snd b)) batches))
       = n_correct net (feature_datasets ph).
Proof.
  intros H. apply iter_loader_inv in H. cbv zeta in H.
  destruct H as (order & HP & _ & _ & H1 & H2 & Hb).
  split.
  - rewrite <- (length_concat_map fst), H1, length_map.
    rewrite (Permutation_length HP). apply length_seq.
  - intros net. rewrite combine_concat, H1, H2.
    + unfold n_correct.
      rewrite <- (Permutation_filter_length (correct_at net _) HP).
      clear. induction order as [|i order IH]; simpl; [reflexivity|].
      unfold correct_at at 1.
      destruct (_ =? _); simpl; now rewrite IH.
    + apply Forall_forall. intros b Hin.
      apply In_nth_error in Hin as [i Hi]. apply (Hb i b Hi).
Qed.

Lemma div_size_inv x ph q :
  div_size x ph = Ok q ->
  0 < dataset_sizes ph
  /\ q = (x / inject_Z (Z.of_nat (dataset_sizes ph)))%Q.
Proof.
  unfold div_size.
  destruct (Nat.eqb_spec (dataset_sizes ph) 0); [discriminate|].
  intros H. inversion H. split; [lia|reflexivity].
Qed.

Lemma metrics_of_totals ph g batches g' net rl rc loss acc :
  iter_loader (dataloaders ph) g = Ok (batches, g') ->
  totals_ok net batches 0 0 (rl, rc) ->
  div_size rl ph = Ok loss ->
  div_size (inject_Z (Z.of_nat rc)) ph = Ok acc ->
  pass_metrics ph net batches loss acc.
Proof.
  intros Hit [Hl Hc] Hdl Hda. simpl in Hl, Hc.
  apply pass_counts in Hit as [Hn Hcount].
  apply div_size_inv in Hdl as [Hpos ->]. apply div_size_inv in Hda as [_ ->].
  rewrite Hcount in Hc. subst rc.
  repeat split; try assumption.
  rewrite Hl, Qplus_0_l. reflexivity.
Qed.

(** A phase of [train_model] other than the training phase. *)
Lemma run_phase_eval ph b w b' w' :
  phase_eqb ph train = false ->
  run_phase ph b w = Ok (b', w') ->
  exists batches loss acc,
    iter_loader (dataloaders ph) (torch_random w)
    = Ok (batches, torch_random w')
    /\ params (model w') = params (model w)
    /\ optimizer w' = optimizer w
    /\ scheduler w' = scheduler w
    /\ stdout w' = stdout w ++ [Pphase ph loss acc]
    /\ pass_metrics ph (params (model w)) batches loss acc
    /\ b' = if phase_eqb ph val && Qltb (best_acc b) acc
            then {| best_model_wts := params (model w'); best_acc := acc |}
            else b.
Proof.
  intros Hph H. unfold run_phase in H. rewrite Hph in H.
  apply pbind_inv in H as ([] & w1 & H1 & H).
  inversion H1; subst w1; clear H1.
  apply pbind_inv in H as (batches & w2 & H2 & H).
  apply iter_dataloader_inv in H2 as (Hit & Hm2 & Ho2 & Hs2 & Hp2).
  apply pbind_inv in H as ([rl rc] & w3 & H3 & H).
  simpl in Hit, Hm2, Ho2, Hs2, Hp2.
  apply train_batches_eval in H3 as [Hsame Ht]; [|exact Hph].
  destruct Hsame as (Hp3 & _ & Ho3 & Hs3 & Hr3 & Hout3).
  apply pbind_inv in H as (loss & w4 & H4 & H).
  apply lift_inv in H4 as [Hl ->].
  apply pbind_inv in H as (acc & w5 & H5 & H).
  apply lift_inv in H5 as [Ha ->].
  apply pbind_inv in H as ([] & w6 & H6 & H).
  inversion H6; subst w6; clear H6.
  rewrite Hm2 in Ht, Hp3. simpl in Ht, Hp3.
  rewrite <- Hr3 in Hit.
  exists batches, loss, acc.
  assert (Hmet : pass_metrics ph (params (model w)) batches loss acc)
    by (eapply metrics_of_totals; eassumption).
  destruct (phase_eqb ph val && Qltb (best_acc b) acc).
  - inversion H; subst; clear H. simpl.
    rewrite Hp3, Ho3, Hs3, Hout3, Ho2, Hs2, Hp2. simpl. tauto.
  - inversion H; subst; clear H. simpl.
    rewrite Hp3, Ho3, Hs3, Hout3, Ho2, Hs2, Hp2. simpl. tauto.
Qed.

(** [print_test_accuracy] over any split. *)
Lemma print_test_accuracy_inv ph w u w' :
  print_test_accuracy ph w = Ok (u, w') ->
  exists batches loss acc,
    iter_loader (dataloaders ph) (torch_random w)
    = Ok (batches, torch_random w')
    /\ params (model w') = params (model w)
    /\ optimizer w' = optimizer w
    /\ scheduler w' = scheduler w
    /\ stdout w' = stdout w ++ [Ptest loss acc]
    /\ pass_metrics ph (params (model w)) batches loss acc.
Proof.
  intros H. unfold print_test_accuracy in H.
  apply pbind_inv in H as ([] & w1 & H1 & H).
  inversion H1; subst w1; clear H1.
  apply pbind_inv in H as (batches & w2 & H2 & H).
  apply iter_dataloader_inv in H2 as (Hit & Hm2 & Ho2 & Hs2 & Hp2).
  simpl in Hit, Hm2, Ho2, Hs2, Hp2.
  apply pbind_inv in H as ([rl rc] & w3 & H3 & H).
  apply test_batches_inv in H3 as [-> Ht].
  apply pbind_inv in H as (loss & w4 & H4 & H).
  apply lift_inv in H4 as [Hl ->].
  apply pbind_inv in H as (acc & w5 & H5 & H).
  apply lift_inv in H5 as [Ha ->].
  inversion H; subst; clear H. simpl.
  rewrite Hm2 in Ht. simpl in Ht.
  exists batches, loss, acc.
  assert (Hmet : pass_metrics ph (params (model w)) batches loss acc)
    by (eapply metrics_of_totals; eassumption).
  rewrite Hm2, Ho2, Hs2, Hp2. simpl. tauto.
Qed.


(** ** The epoch loop *)

(** The training phase prints one line and leaves the best model alone. *)
Lemma run_phase_train b w b' w' :
  run_phase train b w = Ok (b', w') ->
  b' = b /\ exists loss acc, stdout w' = stdout w ++ [Pphase train loss acc].
Proof.
  intros H. unfold run_phase in H. simpl phase_eqb in H. cbv iota in H.
  apply pbind_inv in H as ([] & w1 & H1 & H).
  apply pbind_inv in H1 as ([] & w0 & H0 & H1).
  assert (Hout1 : stdout w1 = stdout w).
  { unfold scheduler_step, modify in H0.
    destruct (sched_step (scheduler w) (optimizer w)) as [sc o].
    inversion H0; subst w0. inversion H1; subst w1. reflexivity. }
  apply pbind_inv in H as (batches & w2 & H2 & H).
  apply iter_dataloader_inv in H2 as (_ & _ & _ & _ & Hout2).
  apply pbind_inv in H as ([rl rc] & w3 & H3 & H).
  apply train_batches_quiet in H3 as [Hout3 _].
  apply pbind_inv in H as (loss & w4 & H4 & H).
  apply lift_inv in H4 as [_ ->].
  apply pbind_inv in H as (acc & w5 & H5 & H).
  apply lift_inv in H5 as [_ ->].
  apply pbind_inv in H as ([] & w6 & H6 & H).
  inversion H6; subst w6; clear H6.
  inversion H; subst; clear H. split; [reflexivity|].
  exists loss, acc. simpl. congruence.
Qed.

(** One epoch prints four lines and keeps the better of the best so far and
    the pair of its validation accuracy and its final weights. *)
Lemma epoch_body_inv n e b w b' w' :
  epoch_body n e b w = Ok (b', w') ->
  exists l1 a1 l2 a2,
    stdout w' = stdout w ++ [Pepoch e (Z.of_nat n - 1); Pphase train l1 a1;
                             Pphase val l2 a2; Pblank]
    /\ b' = update_best b (a2, params (model w')).
Proof.
  intros H. unfold epoch_body in H.
  apply pbind_inv in H as ([] & w1 & H1 & H).
  inversion H1; subst w1; clear H1.
  apply pbind_inv in H as (b2 & w2 & H2 & H).
  simpl in H2.
  apply pbind_inv in H2 as (b1 & w3 & H3 & H2).
  apply run_phase_train in H3 as [-> (l1 & a1 & Hout3)].
  apply pbind_inv in H2 as (b3 & w4 & H4 & H2).
  inversion H2; subst; clear H2.
  apply run_phase_eval in H4
    as (batches & l2 & a2 & _ & Hp & _ & _ & Hout4 & _ & Hb); [|reflexivity].
  apply pbind_inv in H as ([] & w5 & H5 & H).
  inversion H5; subst w5; clear H5.
  inversion H; subst; clear H.
  exists l1, a1, l2, a2. simpl. split.
  - rewrite Hout4, Hout3. simpl. rewrite <- !app_assoc. reflexivity.
  - reflexivity.
Qed.

(** The epoch loop: the history of (validation accuracy, final weights)
    pairs, one per epoch. *)
Lemma epoch_loop_inv n es : forall b w b' w',
  epoch_loop n es b w = Ok (b', w') ->
  exists history out,
    List.length history = List.length es
    /\ stdout w' = stdout w ++ out
    /\ val_accs out = map fst history
    /\ b' = select_best b history
    /\ forall k h,
         nth_error history k = Some h ->
         exists bk wk,
           epoch_loop n (firstn (S k) es) b w = Ok (bk, wk)
           /\ params (model wk) = snd h.
Proof.
  induction es as [|e es IH]; intros b w b' w' H.
  - inversion H; subst. exists [], []. simpl. rewrite app_nil_r.
    repeat split; try reflexivity. intros [|k] h Hk; discriminate.
  - simpl in H. apply pbind_inv in H as (b1 & w1 & H1 & H).
    pose proof H1 as Hbody.
    apply epoch_body_inv in H1 as (l1 & a1 & l2 & a2 & Hout1 & ->).
    apply IH in H as (history & out & Hlen & Hout & Haccs & -> & Hpre).
    exists ((a2, params (model w1)) :: history),
           ([Pepoch e (Z.of_nat n - 1); Pphase train l1 a1; Pphase val l2 a2;
             Pblank] ++ out).
    simpl. repeat split.
    + now rewrite Hlen.
    + rewrite Hout, Hout1, <- app_assoc. reflexivity.
    + now rewrite Haccs.
    + intros [|k] h Hk; simpl in Hk.
      * inversion Hk; subst. exists (update_best b (a2, params (model w1))), w1.
        unfold pbind. rewrite Hbody. split; reflexivity.
      * destruct (Hpre k h Hk) as (bk & wk & Hloop & Hparams).
        exists bk, wk. unfold pbind. rewrite Hbody.
        split; [exact Hloop|exact Hparams].
Qed.

(** [train_model]: what it prints and what it returns. *)
Lemma train_model_inv n w m w' :
  train_model n w = Ok (m, w') ->
  exists history out b,
    List.length history = n
    /\ printed (stdout w) (stdout w')
       = [Pmodel; Pblank] ++ out ++ [Pblank; Pcomplete; Pbest (best_acc b)]
    /\ val_accs (printed (stdout w) (stdout w')) = map fst history
    /\ b = select_best {| best_model_wts := params (model w); best_acc := 0 |}
                       history
    /\ params m = best_model_wts b
    /\ forall k h,
         nth_error history k = Some h ->
         exists bk wk,
           train_prefix n (S k) w = Ok (bk, wk)
           /\ params (model wk) = snd h.
Proof.
  intros H. unfold train_model in H.
  apply pbind_inv in H as (wts & w0 & H0 & H).
  inversion H0; subst wts w0; clear H0.
  apply pbind_inv in H as ([] & w1 & H1 & H).
  inversion H1; subst w1; clear H1.
  apply pbind_inv in H as ([] & w2 & H2 & H).
  inversion H2; subst w2; clear H2.
  apply pbind_inv in H as (b & w3 & H3 & H).
  pose proof H3 as Hloop.
  apply epoch_loop_inv in H3
    as (history & out & Hlen & Hout & Haccs & Hb & Hpre).
  rewrite length_seq in Hlen. simpl in Hout.
  inversion H; subst m w'; clear H. simpl.
  assert (Hprinted :
    printed (stdout w)
      (((stdout w3 ++ [Pblank]) ++ [Pcomplete]) ++ [Pbest (best_acc b)])
    = [Pmodel; Pblank] ++ out ++ [Pblank; Pcomplete; Pbest (best_acc b)]).
  { unfold printed. rewrite Hout, <- !app_assoc.
    rewrite skipn_app, skipn_all, Nat.sub_diag. reflexivity. }
  exists history, out, b. rewrite Hprinted. repeat split; try assumption.
  - unfold val_accs. simpl. rewrite flat_map_app. simpl.
    rewrite app_nil_r. exact Haccs.
  - intros k h Hk. destruct (Hpre k h Hk) as (bk & wk & Hk1 & Hk2).
    exists bk, wk. split; [|exact Hk2].
    unfold train_prefix, pbind, deepcopy_state_dict, gets, print,
      modify. simpl.
    rewrite firstn_seq_le in Hk1; [exact Hk1|].
    apply nth_error_Some_lt in Hk. lia.
Qed.

Lemma last_printed (pre out : list line) a :
  last (pre ++ out ++ [Pblank; Pcomplete; Pbest a]) Pblank = Pbest a.
Proof.
  change [Pblank; Pcomplete; Pbest a] with ([Pblank; Pcomplete] ++ [Pbest a]).
  rewrite !app_assoc. apply last_last.
Qed.

Lemma In_map_fst_le (history : list (Q * Net)) (x : Q) :
  (forall h, In h history -> (fst h <= x)%Q) ->
  forall a, In a (map fst history) -> (a <= x)%Q.
Proof.
  intros H a Ha. apply in_map_iff in Ha as (h & <- & Hin). now apply H.
Qed.

(** C1, amended. When some epoch has a positive validation accuracy, the
    model returned bears the weights the model had at the end of an epoch
    whose validation accuracy is the greatest of all epochs, and the last
    line printed gives that accuracy as the best. *)
Theorem train_model_keeps_best n w m w' :
  train_model n w = Ok (m, w') ->
  (exists a,
      In a (val_accs (printed (stdout w) (stdout w'))) /\ (0 < a)%Q) ->
  List.length (val_accs (printed (stdout w) (stdout w'))) = n
  /\ exists e a bk wk,
       nth_error (val_accs (printed (stdout w) (stdout w'))) e = Some a
       /\ (forall a', In a' (val_accs (printed (stdout w) (stdout w'))) ->
                      (a' <= a)%Q)
       /\ last (printed (stdout w) (stdout w')) Pblank = Pbest a
       /\ train_prefix n (S e) w = Ok (bk, wk)
       /\ params m = params (model wk).
Proof.
  intros H (a0 & Hin0 & Hpos).
  apply train_model_inv in H
    as (history & out & b & Hlen & Hout & Haccs & Hb & Hm & Hpre).
  rewrite Haccs in *. rewrite Hout.
  split; [now rewrite length_map|].
  destruct (select_best_spec history
              {| best_model_wts := params (model w); best_acc := 0 |})
    as (Hall & _ & Hcase).
  rewrite <- Hb in *.
  destruct Hcase as [[_ Hno]|(k & h & Hk & Heq & _ & _)].
  - exfalso. simpl in Hno.
    apply (Qlt_not_le _ _ Hpos), (In_map_fst_le _ Hno), Hin0.
  - destruct (Hpre k h Hk) as (bk & wk & Hrun & Hparams).
    exists k, (fst h), bk, wk.
    rewrite nth_error_map, Hk. rewrite Heq in *.
    cbn [fst snd best_acc best_model_wts option_map] in *.
    split; [reflexivity|]. split; [now apply In_map_fst_le|].
    split; [apply last_printed|]. split; [exact Hrun|congruence].
Qed.

(** C10. The weights kept are those of the first epoch that reaches the
    greatest validation accuracy, provided that accuracy is positive; when
    no epoch has a positive validation accuracy the model returned bears the
    weights it had before the first epoch, and 0 is printed as the best. *)
Theorem train_model_first_best n w m w' :
  train_model n w = Ok (m, w') ->
  (forall e a,
      nth_error (val_accs (printed (stdout w) (stdout w'))) e = Some a ->
      (0 < a)%Q ->
      (forall a', In a' (val_accs (printed (stdout w) (stdout w'))) ->
                  (a' <= a)%Q) ->
      (forall j a', j < e ->
         nth_error (val_accs (printed (stdout w) (stdout w'))) j = Some a' ->
         (a' < a)%Q) ->
      exists bk wk,
        train_prefix n (S e) w = Ok (bk, wk)
        /\ params m = params (model wk))
  /\ ((forall a, In a (val_accs (printed (stdout w) (stdout w'))) ->
                 ~ (0 < a)%Q) ->
      params m = params (model w)
      /\ last (printed (stdout w) (stdout w')) Pblank = Pbest 0).
Proof.
  intros H.
  apply train_model_inv in H
    as (history & out & b & Hlen & Hout & Haccs & Hb & Hm & Hpre).
  rewrite Haccs in *. rewrite Hout.
  destruct (select_best_spec history
              {| best_model_wts := params (model w); best_acc := 0 |})
    as (Hall & _ & Hcase).
  rewrite <- Hb in *. split.
  - intros e a He Hpos Hmax Hfirst.
    rewrite nth_error_map in He.
    destruct (nth_error history e) as [he|] eqn:Ehe; [|discriminate].
    simpl in He. inversion He; subst a; clear He.
    destruct Hcase as [[_ Hno]|(k & h & Hk & Heq & _ & Hearly)].
    + exfalso. simpl in Hno.
      apply (Qlt_not_le _ _ Hpos), Hno. eapply nth_error_In, Ehe.
    + assert (Hhe : (fst he <= fst h)%Q).
      { rewrite Heq in Hall. simpl in Hall. apply Hall.
        eapply nth_error_In, Ehe. }
      assert (Hh : (fst h <= fst he)%Q).
      { apply Hmax. apply in_map. eapply nth_error_In, Hk. }
      destruct (Nat.lt_trichotomy k e) as [Hlt|[->|Hgt]].
      * exfalso. apply (Qlt_not_le _ _ (Hfirst k (fst h) Hlt
                          ltac:(now rewrite nth_error_map, Hk))), Hhe.
      * rewrite Hk in Ehe. inversion Ehe; subst he.
        destruct (Hpre e h Hk) as (bk & wk & Hrun & Hparams).
        exists bk, wk. split; [exact Hrun|].
        rewrite Hm, Heq, Hparams. reflexivity.
      * exfalso. apply (Qlt_not_le _ _ (Hearly e he Hgt Ehe)), Hh.
  - intros Hnone.
    destruct Hcase as [[Heq _]|(k & h & Hk & _ & Hlt & _)].
    + rewrite Hm, Heq. split; [reflexivity|]. apply last_printed.
    + exfalso. simpl in Hlt. apply (Hnone (fst h)); [|exact Hlt].
      apply in_map. eapply nth_error_In, Hk.
Qed.

End TrainingFacts.

(** ** The loop returns *)

Lemma forward_batch_total net inputs :
  Net_shape net = true ->
  Forall (fun x => List.length x = 9) inputs ->
  exists outputs, forward_batch net inputs = Ok outputs.
Proof.
  intros Hs H. unfold forward_batch.
  induction H as [|x inputs Hx _ [outputs IH]]; simpl; [eauto|].
  destruct (@forward_shape net x Hs Hx) as (h & o & _ & _ & _ & -> & _).
  simpl. rewrite IH. simpl. eauto.
Qed.

Section TrainingReturns.

Variables G O Sch : Type.
Variable zero_ : G -> G.
Variable accumulate : G -> G -> G.
Variable autograd : Net -> list (list Q) -> list nat -> G.
Variable opt_step : O -> Net -> option G -> O * Net.
Variable sched_step : Sch -> O -> Sch * O.
Variable criterion : list (list Q) -> list nat -> Q.
Variable feature_datasets : phase -> DatasetFolder.

(** The optimizer updates the parameters in place, so keeps their shapes;
    every split has samples of width 9, each with its class vector of
    width 4. *)
Hypothesis opt_step_shape : forall o net g,
  Net_shape net = true -> Net_shape (snd (opt_step o net g)) = true.
Hypothesis datasets_ok : forall ph,
  0 < len (feature_datasets ph)
  /\ List.length (targets (feature_datasets ph)) = len (feature_datasets ph)
  /\ Forall (fun x => List.length x = 9) (samples (feature_datasets ph))
  /\ Forall (fun y => List.length y = 4) (targets (feature_datasets ph)).

#[local] Abbreviation world := (world G O Sch).
#[local] Abbreviation train_batches :=
  (@train_batches G O Sch zero_ accumulate autograd opt_step criterion).
#[local] Abbreviation run_phase :=
  (@run_phase G O Sch zero_ accumulate autograd opt_step sched_step criterion
     feature_datasets).
#[local] Abbreviation epoch_body :=
  (@epoch_body G O Sch zero_ accumulate autograd opt_step sched_step criterion
     feature_datasets).
#[local] Abbreviation epoch_loop :=
  (@epoch_loop G O Sch zero_ accumulate autograd opt_step sched_step criterion
     feature_datasets).
#[local] Abbreviation train_model :=
  (@train_model G O Sch zero_ accumulate autograd opt_step sched_step criterion
     feature_datasets).
#[local] Abbreviation dataloaders := (dataloaders feature_datasets).

(** A pass over a loader yields batches of rows of width 9. *)
Lemma iter_loader_total ph g :
  exists batches g',
    iter_loader (dataloaders ph) g = Ok (batches, g')
    /\ Forall (fun b => Forall (fun x => List.length x = 9) (fst b)) batches.
Proof.
  destruct (datasets_ok ph) as (Hpos & Ht & Hw & Hwt).
  assert (E : exists batches g',
             iter_loader (dataloaders ph) g = Ok (batches, g')).
  { unfold iter_loader, sampler_indices. simpl.
    set (g0 := snd (draw g)).
    replace (len (feature_datasets ph) =? 0) with false
      by (symmetry; apply Nat.eqb_neq; lia).
    rewrite andb_false_r.
    assert (HP : Permutation
                   (fst (if phase_eqb ph train
                         then permutation (len (feature_datasets ph)) g0
                         else (seq 0 (len (feature_datasets ph)), g0)))
                   (seq 0 (len (feature_datasets ph)))).
    { destruct (phase_eqb ph train);
        [apply permutation_Permutation|reflexivity]. }
    destruct (if phase_eqb ph train
              then permutation (len (feature_datasets ph)) g0
              else (seq 0 (len (feature_datasets ph)), g0)) as [order g1].
    simpl in HP.
    rewrite (@mapM_total _ _ (fetch (feature_datasets ph))
               (fun c =>
                  (map (fun i => nth i (samples (feature_datasets ph)) []) c,
                   map (fun i => nth i (targets (feature_datasets ph)) []) c))).
    - simpl. eauto.
    - apply Forall_forall. intros c Hc.
      assert (Hidx : Forall (fun i => i < len (feature_datasets ph)) c).
      { apply Forall_forall. intros i Hi.
        assert (Hin : In i order).
        { rewrite <- (app_nil_l order),
            <- (batch_sampler_concat global_batch_size order []).
          apply in_concat. eauto. }
        eapply Permutation_seq_lt; eauto. }
      apply fetch_total.
      + rewrite Ht. eapply Forall_impl; [|exact Hidx]. cbv beta. lia.
      + eapply same_width_Forall, Forall_select; eassumption.
      + eapply same_width_Forall, Forall_select; [exact Hwt|].
        now rewrite Ht. }
  destruct E as (batches & g' & E). exists batches, g'. split; [exact E|].
  apply iter_loader_inv in E. cbv zeta in E.
  destruct E as (order & HP & _ & _ & H1 & _ & _).
  apply Forall_forall. intros b Hb. apply Forall_forall. intros x Hx.
  assert (Hin : In x (List.concat (map fst batches))).
  { apply in_concat. exists (fst b). split; [now apply in_map|exact Hx]. }
  rewrite H1 in Hin. apply in_map_iff in Hin as (i & <- & Hi).
  rewrite Forall_forall in Hw. apply Hw, nth_In.
  eapply Permutation_seq_lt; eauto.
Qed.

Lemma train_batches_total ph batches :
  Forall (fun b => Forall (fun x => List.length x = 9) (fst b)) batches ->
  forall rl rc w,
    Net_shape (params (model w)) = true ->
    exists res w',
      train_batches ph batches rl rc w = Ok (res, w')
      /\ Net_shape (params (model w')) = true.
Proof.
  induction 1 as [|[inputs labels] rest Hb _ IH]; intros rl rc w Hs; simpl.
  - unfold pret. eauto.
  - unfold pbind, gets, lift, zero_grad, set_model, modify, pret. simpl.
    destruct (@forward_batch_total _ inputs Hs Hb) as [outputs ->].
    destruct (phase_eqb ph train).
    + unfold loss_backward, optimizer_step, set_model, modify, pbind. simpl.
      match goal with
      | |- context [opt_step ?o ?p ?g] =>
          pose proof (@opt_step_shape o p g Hs) as Hs';
          destruct (opt_step o p g) as [o' p']
      end.
      apply IH. exact Hs'.
    + apply IH. exact Hs.
Qed.

Lemma phase_setup_total ph w :
  exists w0,
    (if phase_eqb ph train
     then @scheduler_step G O Sch sched_step ;;; model_train true
     else model_train false) w = Ok (tt, w0)
    /\ params (model w0) = params (model w).
Proof.
  destruct (phase_eqb ph train).
  - unfold pbind, scheduler_step, modify, model_train, set_model, modify.
    destruct (sched_step (scheduler w) (optimizer w)). simpl. eauto.
  - unfold model_train, set_model, modify. simpl. eauto.
Qed.

Lemma iter_dataloader_total ph w :
  exists batches w1,
    @iter_dataloader G O Sch feature_datasets ph w = Ok (batches, w1)
    /\ model w1 = model w
    /\ Forall (fun b => Forall (fun x => List.length x = 9) (fst b)) batches.
Proof.
  destruct (iter_loader_total ph (torch_random w)) as (batches & g' & E & Hw).
  unfold iter_dataloader. rewrite E. simpl. eauto.
Qed.

Lemma div_size_total x ph :
  exists q, div_size feature_datasets x ph = Ok q.
Proof.
  unfold div_size, dataset_sizes. destruct (datasets_ok ph) as (Hpos & _).
  destruct (Nat.eqb_spec (len (feature_datasets ph)) 0); [lia|eauto].
Qed.

Lemma run_phase_total ph b w :
  Net_shape (params (model w)) = true ->
  exists b' w',
    run_phase ph b w = Ok (b', w') /\ Net_shape (params (model w')) = true.
Proof.
  intros Hs. unfold run_phase.
  destruct (phase_setup_total ph w) as (w0 & E0 & Hp0).
  rewrite (@pbind_ok _ _ _ _ _ _ _ _ E0).
  destruct (iter_dataloader_total ph w0) as (batches & w1 & E1 & Hm1 & Hw).
  rewrite (@pbind_ok _ _ _ _ _ _ _ _ E1).
  destruct (@train_batches_total ph batches Hw 0%Q 0 w1)
    as ([rl rc] & w2 & E2 & Hs2).
  { now rewrite Hm1, Hp0. }
  rewrite (@pbind_ok _ _ _ _ _ _ _ _ E2).
  destruct (div_size_total rl ph) as [loss El].
  destruct (div_size_total (inject_Z (Z.of_nat rc)) ph) as [acc Ea].
  unfold pbind, lift. rewrite El, Ea.
  unfold print, modify, deepcopy_state_dict, gets, pret.
  destruct (phase_eqb ph val && _); simpl; eauto.
Qed.

Lemma epoch_body_total n e b w :
  Net_shape (params (model w)) = true ->
  exists b' w',
    epoch_body n e b w = Ok (b', w') /\ Net_shape (params (model w')) = true.
Proof.
  intros Hs. unfold epoch_body.
  rewrite (@pbind_ok _ _ _ (print (Pepoch e (Z.of_nat n - 1))) _ w tt _
             eq_refl).
  simpl run_phases.
  match goal with
  | |- context [pbind _ _ ?w1] =>
      destruct (@run_phase_total train b w1 Hs) as (b1 & w2 & E1 & Hs2)
  end.
  destruct (@run_phase_total val b1 w2 Hs2) as (b2 & w3 & E2 & Hs3).
  unfold pbind at 1. unfold pbind at 1. rewrite E1.
  unfold pbind at 1. rewrite E2.
  unfold pret, pbind, print, modify. simpl. eauto.
Qed.

Lemma epoch_loop_total n es : forall b w,
  Net_shape (params (model w)) = true ->
  exists b' w', epoch_loop n es b w = Ok (b', w').
Proof.
  induction es as [|e es IH]; intros b w Hs; simpl.
  - unfold pret. eauto.
  - unfold pbind.
    destruct (@epoch_body_total n e b w Hs) as (b1 & w1 & -> & Hs1).
    apply IH, Hs1.
Qed.

(** [train_model] returns a model for every number of epochs. *)
Lemma train_model_total n w :
  Net_shape (params (model w)) = true ->
  exists m w', train_model n w = Ok (m, w').
Proof.
  intros Hs.
  unfold train_model, pbind, deepcopy_state_dict, gets, print, modify.
  match goal with
  | |- context [epoch_loop n (seq 0 n) ?b ?w1] =>
      destruct (@epoch_loop_total n (seq 0 n) b w1 Hs) as (b' & w' & ->)
  end.
  unfold load_state_dict, set_model, modify. eauto.
Qed.

End TrainingReturns.

(** ** Concrete runs of the loop *)

Lemma toy_opt_step_shape o net g :
  Net_shape net = true -> Net_shape (snd (toy_opt_step o net g)) = true.
Proof.
  unfold Net_shape, Linear_shape. simpl. intros H.
  apply andb_true_iff in H as [H1 H2]. rewrite H1. simpl.
  apply andb_true_iff in H2 as [H2 H3]. apply andb_true_iff in H2 as [H2 _].
  rewrite H2, H3. simpl. now destruct o as [|[|[|o]]].
Qed.

Lemma toy_datasets_ok ph :
  0 < len (toy_datasets ph)
  /\ List.length (targets (toy_datasets ph)) = len (toy_datasets ph)
  /\ Forall (fun x => List.length x = 9) (samples (toy_datasets ph))
  /\ Forall (fun y => List.length y = 4) (targets (toy_datasets ph)).
Proof.
  destruct ph; simpl; repeat split; try (unfold len; simpl; lia);
    repeat constructor.
Qed.

(** The small set-up returns a model for every number of epochs. *)
Example toy_train_model_returns n :
  exists m w', toy_train_model n toy_world = Ok (m, w').
Proof.
  apply (@train_model_total unit nat nat toy_zero toy_accumulate toy_autograd
           toy_opt_step toy_sched_step toy_criterion toy_datasets
           toy_opt_step_shape toy_datasets_ok).
  reflexivity.
Qed.

Example toy_run4_accs :
  val_accs toy_out4 = [0 # 2; 1 # 2; 1 # 2; 0 # 2]%Q.
Proof. reflexivity. Qed.

Example toy_run4_ok :
  toy_train_model 4 toy_world = Ok (fst toy_run4, snd toy_run4).
Proof. vm_compute. reflexivity. Qed.

Example toy_run1_ok :
  toy_train_model 1 toy_world = Ok (fst toy_run1, snd toy_run1).
Proof. vm_compute. reflexivity. Qed.

(** C1, amended, on four epochs with validation accuracies 0, 1/2, 1/2
    and 0. *)
Lemma train_model_keeps_best_witness :
  List.length (val_accs toy_out4) = 4
  /\ exists e a bk wk,
       nth_error (val_accs toy_out4) e = Some a
       /\ (forall a', In a' (val_accs toy_out4) -> (a' <= a)%Q)
       /\ last toy_out4 Pblank = Pbest a
       /\ toy_train_prefix 4 (S e) toy_world = Ok (bk, wk)
       /\ params (fst toy_run4) = params (model wk).
Proof.
  apply (@train_model_keeps_best unit nat nat toy_zero toy_accumulate
           toy_autograd toy_opt_step toy_sched_step toy_criterion toy_datasets
           4 toy_world (fst toy_run4) (snd toy_run4)).
  - vm_compute. reflexivity.
  - exists (1 # 2)%Q. split; [vm_compute; tauto|reflexivity].
Defined.

(** C1 as stated fails: after one epoch with validation accuracy 0 the model
    returned bears the weights it had before training, which are not those
    it had at the end of the epoch. *)
Lemma train_model_may_return_initial_weights :
  ~ (forall n w m w',
       toy_train_model n w = Ok (m, w') ->
       exists e bk wk,
         e < n
         /\ toy_train_prefix n (S e) w = Ok (bk, wk)
         /\ params m = params (model wk)).
Proof.
  intros H.
  destruct (H 1 toy_world (fst toy_run1) (snd toy_run1))
    as (e & bk & wk & He & Hrun & Hp).
  { vm_compute. reflexivity. }
  assert (e = 0) by lia. subst e.
  vm_compute in Hrun. inversion Hrun; subst; clear Hrun.
  vm_compute in Hp. discriminate.
Qed.

(** C10 on the same runs: of the two epochs with accuracy 1/2 the first
    gives the weights, and the run of one epoch with accuracy 0 returns the
    initial weights. *)
Lemma train_model_first_best_witness :
  (exists bk wk,
      toy_train_prefix 4 2 toy_world = Ok (bk, wk)
      /\ params (fst toy_run4) = params (model wk))
  /\ params (fst toy_run1) = params (model toy_world)
  /\ last (printed (stdout toy_world) (stdout (snd toy_run1))) Pblank = Pbest 0.
Proof.
  split.
  - apply (proj1 (@train_model_first_best unit nat nat toy_zero toy_accumulate
                    toy_autograd toy_opt_step toy_sched_step toy_criterion
                    toy_datasets 4 toy_world (fst toy_run4) (snd toy_run4)
                    toy_run4_ok) 1 (1 # 2)%Q).
    + reflexivity.
    + reflexivity.
    + intros a' Hin. vm_compute in Hin.
      destruct Hin as [<-|[<-|[<-|[<-|[]]]]]; vm_compute; discriminate.
    + intros j a' Hj Hn. assert (j = 0) by lia. subst j.
      vm_compute in Hn. inversion Hn; subst. reflexivity.
  - apply (proj2 (@train_model_first_best unit nat nat toy_zero toy_accumulate
                    toy_autograd toy_opt_step toy_sched_step toy_criterion
                    toy_datasets 1 toy_world (fst toy_run1) (snd toy_run1)
                    toy_run1_ok)).
    intros a Hin. vm_compute in Hin. destruct Hin as [<-|[]].
    vm_compute. discriminate.
Defined.


(** ** Concrete passes of a loader *)

Example ramp_train_pass :
  iter_loader (dataloaders ramp_datasets train) [7; 4; 0; 2]
  = Ok ([([[4]; [0]; [3]; [1]; [2]]%Q, [[0]; [0]; [3]; [1]; [2]]%Z)], []).
Proof. vm_compute. reflexivity. Qed.

(** C9 on a training split of 5 samples, visited in the order 4, 0, 3, 1,
    2 from the generator state [7; 4; 0; 2], and on a validation split of
    130 samples: batches of 64, 64 and 2 in the stored order. *)
Lemma dataloader_pass_witness :
  (exists order,
     Permutation order (seq 0 (len (ramp_datasets train)))
     /\ (train <> train ->
         order = seq 0 (len (ramp_datasets train))
         /\ List.concat
              (map fst [([[4]; [0]; [3]; [1]; [2]]%Q,
                         [[0]; [0]; [3]; [1]; [2]]%Z)])
            = samples (ramp_datasets train))
     /\ List.concat
          (map fst [([[4]; [0]; [3]; [1]; [2]]%Q,
                     [[0]; [0]; [3]; [1]; [2]]%Z)])
        = map (fun i => nth i (samples (ramp_datasets train)) []) order
     /\ List.concat
          (map snd [([[4]; [0]; [3]; [1]; [2]]%Q,
                     [[0]; [0]; [3]; [1]; [2]]%Z)])
        = map (fun i => nth i (targets (ramp_datasets train)) []) order
     /\ forall i b,
          nth_error [([[4]; [0]; [3]; [1]; [2]]%Q,
                      [[0]; [0]; [3]; [1]; [2]]%Z)] i
          = Some b ->
          List.length (snd b) = List.length (fst b)
          /\ 1 <= List.length (fst b) <= 64
          /\ (S i < List.length
                      [([[4]; [0]; [3]; [1]; [2]]%Q,
                        [[0]; [0]; [3]; [1]; [2]]%Z)] ->
              List.length (fst b) = 64))
  /\ (exists order,
        Permutation order (seq 0 (len (ramp_datasets val)))
        /\ (val <> train ->
            order = seq 0 (len (ramp_datasets val))
            /\ List.concat
                 (map fst
                    [ramp_batch 0 64; ramp_batch 64 64; ramp_batch 128 2])
               = samples (ramp_datasets val))
        /\ List.concat
             (map fst [ramp_batch 0 64; ramp_batch 64 64; ramp_batch 128 2])
           = map (fun i => nth i (samples (ramp_datasets val)) []) order
        /\ List.concat
             (map snd [ramp_batch 0 64; ramp_batch 64 64; ramp_batch 128 2])
           = map (fun i => nth i (targets (ramp_datasets val)) []) order
        /\ forall i b,
             nth_error
               [ramp_batch 0 64; ramp_batch 64 64; ramp_batch 128 2] i
             = Some b ->
             List.length (snd b) = List.length (fst b)
             /\ 1 <= List.length (fst b) <= 64
             /\ (S i < List.length
                         [ramp_batch 0 64; ramp_batch 64 64;
                          ramp_batch 128 2] ->
                 List.length (fst b) = 64))
  /\ (exists g batches g' order,
        iter_loader (dataloaders ramp_datasets train) g = Ok (batches, g')
        /\ Permutation order (seq 0 (len (ramp_datasets train)))
        /\ order <> seq 0 (len (ramp_datasets train))
        /\ List.concat (map fst batches)
           = map (fun i => nth i (samples (ramp_datasets train)) []) order
        /\ List.concat (map snd batches)
           = map (fun i => nth i (targets (ramp_datasets train)) []) order).
Proof.
  destruct (@dataloader_pass ramp_datasets) as [Hpass Hshuffle].
  split; [|split].
  - apply (Hpass train [7; 4; 0; 2]
             [([[4]; [0]; [3]; [1]; [2]]%Q, [[0]; [0]; [3]; [1]; [2]]%Z)]
             []).
    vm_compute. reflexivity.
  - apply (Hpass val [5]
             [ramp_batch 0 64; ramp_batch 64 64; ramp_batch 128 2] []).
    vm_compute. reflexivity.
  - apply Hshuffle.
    + vm_compute. lia.
    + reflexivity.
    + reflexivity.
    + reflexivity.
Defined.

(** * Properties beyond the claims *)

(** ** Errors and inputs of [make_dataset] *)

Section MakeDatasetMore.

Variable float_of_str : string -> option Q.
Variable scaler : Type.
Variable fit : list (list Q) -> scaler.
Variable transform : scaler -> list Q -> list Q.
Variable float32 : Q -> Q.

#[local] Abbreviation make_dataset :=
  (@make_dataset float_of_str scaler).
#[local] Abbreviation to_float := (to_float float_of_str).
#[local] Abbreviation float_features := (float_features float_of_str).
#[local] Abbreviation convertible_features :=
  (convertible_features float_of_str).

Lemma float_features_spec file r :
  match float_features file r with
  | Ok _ => convertible_features file r = true
  | Raise e => e = ValueError /\ convertible_features file r = false
  end.
Proof.
  unfold float_features, convertible_features.
  induction (map (cell_at file r) columns) as [|c cs IH]; simpl; [reflexivity|].
  destruct c as [|q|t]; simpl; try (split; reflexivity).
  - destruct (mapM to_float cs); simpl; exact IH.
  - destruct (float_of_str t); simpl; [|split; reflexivity].
    destruct (mapM to_float cs); simpl; exact IH.
Qed.

Lemma float_table_spec file rows :
  match mapM (float_features file) rows with
  | Ok Xf =>
      forallb (convertible_features file) rows = true
      /\ List.length Xf = List.length rows
  | Raise e =>
      e = ValueError /\ forallb (convertible_features file) rows = false
  end.
Proof.
  induction rows as [|r rows IH]; simpl; [split; reflexivity|].
  pose proof (float_features_spec file r) as Hr.
  destruct (float_features file r) as [x|e]; simpl.
  - rewrite Hr. simpl.
    destruct (mapM (float_features file) rows) as [Xf|e]; simpl.
    + destruct IH as [-> IH]. split; [reflexivity|]. simpl. now rewrite IH.
    + exact IH.
  - destruct Hr as [-> ->]. split; reflexivity.
Qed.

(** X1. When one of the ten selected columns is absent from the file,
    [make_dataset] raises [KeyError], whatever the rows are. *)
Theorem make_dataset_missing_column file w :
  forallb (has_column file) selected = false ->
  make_dataset fit transform float32 file w = Raise KeyError.
Proof.
  intros H. rewrite
    (@make_dataset_eq_file float_of_str _ fit transform float32), H.
  reflexivity.
Qed.

(** X2. When the selected columns exist, [make_dataset] raises [ValueError]
    exactly when no row is complete or a complete row has a feature cell
    that the conversion to float refuses (a text that spells no number); in
    every other case it returns: a text that spells a number is converted
    like a number. *)
Theorem make_dataset_value_error file w :
  forallb (has_column file) selected = true ->
  (make_dataset fit transform float32 file w = Raise ValueError
   <-> kept_rows file = []
       \/ forallb (convertible_features file) (kept_rows file) = false)
  /\ ((exists out, make_dataset fit transform float32 file w = Ok out)
      <-> kept_rows file <> []
          /\ forallb (convertible_features file) (kept_rows file) = true).
Proof.
  intros Hc. rewrite
    (@make_dataset_eq_file float_of_str _ fit transform float32), Hc.
  pose proof (float_table_spec file (kept_rows file)) as Hs.
  destruct (mapM (float_features file) (kept_rows file)) as [Xf|e].
  - destruct Hs as [Hn Hlen]. destruct Xf as [|x Xf].
    + assert (Hk : kept_rows file = [])
        by (destruct (kept_rows file); [reflexivity|discriminate]).
      split; split.
      * intros _. left. exact Hk.
      * reflexivity.
      * intros [out H]. discriminate.
      * intros [Hne _]. contradiction.
    + assert (Hk : kept_rows file <> [])
        by (destruct (kept_rows file); [discriminate|congruence]).
      split; split.
      * discriminate.
      * intros [H|H]; [contradiction|congruence].
      * intros _. split; assumption.
      * intros _. eauto.
  - destruct Hs as [-> Hn].
    assert (Hk : kept_rows file <> []).
    { intros E. rewrite E in Hn. discriminate. }
    split; split.
    + intros _. right. exact Hn.
    + reflexivity.
    + intros [out H]. discriminate.
    + intros [_ H]. congruence.
Qed.

Lemma getitem_columns_view file :
  forallb (has_column file) selected = true ->
  getitem_columns file selected
  = Ok {| df_columns := selected; df_rows := selected_view file |}.
Proof.
  intros Hc. destruct (getitem_columns_present _ _ Hc) as [sel E].
  rewrite E. f_equal.
  pose proof (getitem_columns_names _ _ E) as Hn.
  apply getitem_columns_cells in E as [Hr _].
  destruct sel as [cols rows]. simpl in *. subst. reflexivity.
Qed.

(** X3. [make_dataset] reads a file only through the cells under the ten
    selected names: two files that have these columns and agree on these
    cells, row by row, give the same result, whatever their other columns
    and the order of their columns. *)
Theorem make_dataset_selected_cells_only file1 file2 w :
  forallb (has_column file1) selected = true ->
  forallb (has_column file2) selected = true ->
  selected_view file1 = selected_view file2 ->
  make_dataset fit transform float32 file1 w
  = make_dataset fit transform float32 file2 w.
Proof.
  intros H1 H2 Hv.
  rewrite !(@make_dataset_eq float_of_str _ fit transform float32).
  rewrite (getitem_columns_view _ H1), (getitem_columns_view _ H2), Hv.
  reflexivity.
Qed.

Lemma encode_group_cases c :
  In (encode_group c)
     [[1; 0; 0; 0]; [0; 1; 0; 0]; [0; 0; 1; 0]; [0; 0; 0; 1]; [0; 0; 0; 0]]%Z.
Proof.
  unfold encode_group.
  repeat match goal with
  | |- context [if ?b then _ else _] => destruct b; [simpl; tauto|]
  end.
  simpl. tauto.
Qed.

(** X4. Every class vector [make_dataset] returns has length 4, entries 0
    or 1, and at most one entry 1. *)
Theorem make_dataset_labels_well_formed file w fs ls w' :
  make_dataset fit transform float32 file w = Ok (fs, ls, w') ->
  Forall (fun y => List.length y = 4
                   /\ Forall (fun v => v = 0%Z \/ v = 1%Z) y
                   /\ (fold_right Z.add 0 y <= 1)%Z) ls.
Proof.
  intros H.
  apply (@make_dataset_rows float_of_str _ fit transform float32) in H
    as (Xf & _ & _ & _ & -> & _).
  apply Forall_forall. intros y Hy.
  apply in_map_iff in Hy as (r & <- & _).
  pose proof (encode_group_cases (cell_at file r "Cgroup")) as Hc.
  simpl in Hc.
  destruct Hc as [<-|[<-|[<-|[<-|[<-|[]]]]]];
    (split; [reflexivity|split; [|simpl; lia]]);
    repeat apply Forall_cons; try apply Forall_nil; auto.
Qed.

(** X5. The class number the training loop reads off a class vector
    ([torch.max(labels, 1)]) is the position of the class name: for a
    loaded row whose class is the [k]-th of "no", "small", "medium",
    "large" it is [k]. *)
Theorem make_dataset_class_round_trip file w fs ls w' i r k name :
  make_dataset fit transform float32 file w = Ok (fs, ls, w') ->
  nth_error (kept_rows file) i = Some r ->
  nth_error class_names k = Some name ->
  cell_at file r "Cgroup" = Str name ->
  exists y, nth_error ls i = Some y /\ class_of y = k.
Proof.
  intros H Hi Hk Hg.
  apply (@make_dataset_rows float_of_str _ fit transform float32) in H
    as (Xf & _ & _ & _ & -> & _).
  exists (encode_group (Str name)). split.
  - rewrite nth_error_map, Hi. simpl. now rewrite Hg.
  - rewrite (encode_group_class _ Hk).
    destruct k as [|[|[|[|k]]]]; try reflexivity.
    destruct k; discriminate.
Qed.

(** X6. A loaded row whose class is none of the four names gets class
    number 0 in the training loop, the number of "no": the first position
    of the greatest entry of the all-zero vector. *)
Theorem make_dataset_unknown_class_is_zero file w fs ls w' i r :
  make_dataset fit transform float32 file w = Ok (fs, ls, w') ->
  nth_error (kept_rows file) i = Some r ->
  (forall name, In name class_names -> cell_at file r "Cgroup" <> Str name) ->
  exists y,
    nth_error ls i = Some y
    /\ class_of y = 0
    /\ class_of y = class_of (encode_group (Str "no")).
Proof.
  intros H Hi Hg.
  apply (@make_dataset_rows float_of_str _ fit transform float32) in H
    as (Xf & _ & _ & _ & -> & _).
  exists [0; 0; 0; 0]%Z. split; [|split; reflexivity].
  rewrite nth_error_map, Hi. simpl. now rewrite (encode_group_other Hg).
Qed.

End MakeDatasetMore.

(** X1 on the sample file without its column "A123". *)
Lemma make_dataset_missing_column_witness :
  make_dataset decimal_float centre_fit centre_transform exact
      sample_file_no_A123 prep0
  = Raise KeyError.
Proof.
  apply (@make_dataset_missing_column decimal_float _ centre_fit
           centre_transform exact
           sample_file_no_A123 prep0).
  reflexivity.
Defined.

(** X2 on the two sample files with a column of texts: the text "two" in
    a complete row is refused; in a dropped row it is not read, and the
    texts "2" of the complete rows are converted. *)
Lemma make_dataset_value_error_witness :
  make_dataset decimal_float centre_fit centre_transform exact
    sample_file_text prep0
  = Raise ValueError
  /\ exists out,
       make_dataset decimal_float centre_fit centre_transform exact
         sample_file_numeric_text prep0
       = Ok out.
Proof.
  split.
  - apply (proj1 (@make_dataset_value_error decimal_float _ centre_fit
                    centre_transform exact sample_file_text prep0 eq_refl)).
    right. reflexivity.
  - apply (proj2 (@make_dataset_value_error decimal_float _ centre_fit
                    centre_transform exact sample_file_numeric_text prep0
                    eq_refl)).
    split; [discriminate|reflexivity].
Defined.

(** X3 on the sample file and the same file with its columns reversed. *)
Lemma make_dataset_selected_cells_only_witness :
  make_dataset decimal_float centre_fit centre_transform exact sample_file prep0
  = make_dataset decimal_float centre_fit centre_transform exact
      sample_file_reversed prep0.
Proof.
  apply (@make_dataset_selected_cells_only decimal_float _ centre_fit
           centre_transform exact
           sample_file sample_file_reversed prep0); reflexivity.
Defined.

(** X4 on the sample file. *)
Lemma make_dataset_labels_well_formed_witness :
  Forall (fun y => List.length y = 4
                   /\ Forall (fun v => v = 0%Z \/ v = 1%Z) y
                   /\ (fold_right Z.add 0 y <= 1)%Z) sample_labels.
Proof.
  apply (@make_dataset_labels_well_formed decimal_float _ centre_fit
           centre_transform exact
           sample_file prep0 sample_features sample_labels
           (logged prep0 [Eread_csv; Efit_transform sample_floats])).
  vm_compute. reflexivity.
Defined.

(** X5 at the second loaded row of the sample file, of class "large". *)
Lemma make_dataset_class_round_trip_witness :
  exists y, nth_error sample_labels 1 = Some y /\ class_of y = 3.
Proof.
  apply (@make_dataset_class_round_trip decimal_float _ centre_fit
           centre_transform exact
           sample_file prep0 sample_features sample_labels
           (logged prep0 [Eread_csv; Efit_transform sample_floats])
           1
           [Str "large"; Num 3; Num 2; Num 1; Num 4; Num 5; Num 6; Num 7;
            Num 8; Num 9; NaN]
           3 "large"%string).
  - vm_compute. reflexivity.
  - reflexivity.
  - reflexivity.
  - reflexivity.
Defined.

(** X6 at the third loaded row of the sample file, of class "huge". *)
Lemma make_dataset_unknown_class_is_zero_witness :
  exists y,
    nth_error sample_labels 2 = Some y
    /\ class_of y = 0
    /\ class_of y = class_of (encode_group (Str "no")).
Proof.
  apply (@make_dataset_unknown_class_is_zero decimal_float _ centre_fit
           centre_transform
           exact sample_file prep0 sample_features sample_labels
           (logged prep0 [Eread_csv; Efit_transform sample_floats])
           2
           [Str "huge"; Num 2; Num 2; Num 2; Num 4; Num 5; Num 6; Num 7;
            Num 8; Num 9; Num 1]).
  - vm_compute. reflexivity.
  - reflexivity.
  - intros name Hin. simpl in Hin.
    destruct Hin as [<-|[<-|[<-|[<-|[]]]]]; discriminate.
Defined.

(** ** Passes of a loader *)

Lemma batch_sampler_length bs : 0 < bs -> forall sampler cur,
  List.length cur < bs ->
  List.length (batch_sampler bs cur sampler)
  = (List.length cur + List.length sampler + (bs - 1)) / bs.
Proof.
  intros Hbs. induction sampler as [|idx rest IH]; intros cur Hcur; simpl.
  - rewrite Nat.add_0_r.
    destruct (Nat.ltb_spec 0 (List.length cur)) as [Hc|Hc]; simpl.
    + apply Nat.div_unique with (r := List.length cur - 1); lia.
    + symmetry. apply Nat.div_small. lia.
  - assert (Hc' : List.length (cur ++ [idx]) = S (List.length cur))
      by (rewrite length_app; simpl; lia).
    destruct (Nat.eqb_spec (List.length (cur ++ [idx])) bs) as [E|E].
    + simpl. rewrite (IH [] Hbs). simpl.
      replace (List.length cur + S (List.length rest) + (bs - 1))
        with (1 * bs + (List.length rest + (bs - 1))) by lia.
      rewrite Nat.div_add_l by lia. reflexivity.
    + rewrite IH by lia. f_equal. lia.
Qed.

Lemma mapM_raise_only A B (f : A -> result B) (P : exn -> Prop) l :
  (forall a e, In a l -> f a = Raise e -> P e) ->
  (exists a e, In a l /\ f a = Raise e) ->
  exists e, mapM f l = Raise e /\ P e.
Proof.
  induction l as [|a l IH]; intros Hall (a0 & e0 & Hin & Hr).
  - destruct Hin.
  - simpl. destruct (f a) as [b|e] eqn:Ea; simpl.
    + destruct IH as (e & -> & He).
      * intros a' e' Hin'. apply Hall. now right.
      * destruct Hin as [->|Hin]; [congruence|eauto].
      * simpl. eauto.
    + exists e. split; [reflexivity|]. apply (Hall a e); [now left|exact Ea].
Qed.

Lemma getitem_raise d i e : getitem d i = Raise e -> e = IndexError.
Proof.
  unfold getitem.
  destruct (nth_error (samples d) i); simpl; [|congruence].
  destruct (nth_error (targets d) i); simpl; [discriminate|congruence].
Qed.

Lemma getitem_In d i it :
  getitem d i = Ok it -> In (fst it) (samples d) /\ In (snd it) (targets d).
Proof.
  unfold getitem.
  destruct (nth_error (samples d) i) as [x|] eqn:E1; simpl; [|discriminate].
  destruct (nth_error (targets d) i) as [t|] eqn:E2; simpl; [|discriminate].
  intros H. inversion H; subst. simpl.
  split; eapply nth_error_In; eassumption.
Qed.

Lemma mapM_getitem_raise d c e :
  mapM (getitem d) c = Raise e -> e = IndexError.
Proof.
  induction c as [|i c IH]; simpl; [discriminate|].
  destruct (getitem d i) as [it|e1] eqn:Ei; simpl.
  - destruct (mapM (getitem d) c) as [its|e2]; simpl; [discriminate|].
    intros H. inversion H; subst. now apply IH.
  - intros H. inversion H; subst. eapply getitem_raise, Ei.
Qed.

(** A fetch raises [IndexError] (an item is missing) or [RuntimeError]
    (the items cannot be stacked), and only the first when the rows of the
    data set are of one width. *)
Lemma fetch_raise d c e :
  fetch d c = Raise e -> e = IndexError \/ e = RuntimeError.
Proof.
  unfold fetch. destruct (mapM (getitem d) c) as [items|e'] eqn:E; simpl.
  - unfold default_collate.
    destruct (same_width (map fst items)); simpl;
      [|intros H; inversion H; auto].
    destruct (same_width (map snd items)); simpl;
      [discriminate|intros H; inversion H; auto].
  - intros H. inversion H; subst e'. left. eapply mapM_getitem_raise, E.
Qed.

Lemma fetch_raise_uniform d c e :
  same_width (samples d) = true ->
  same_width (targets d) = true ->
  fetch d c = Raise e -> e = IndexError.
Proof.
  intros Hs Ht. unfold fetch.
  destruct (mapM (getitem d) c) as [items|e'] eqn:E; simpl.
  - apply same_width_inv in Hs as [ks Hs].
    apply same_width_inv in Ht as [kt Ht].
    rewrite Forall_forall in Hs, Ht.
    assert (Hit : Forall (fun it => In (fst it) (samples d)
                                    /\ In (snd it) (targets d)) items).
    { apply mapM_Forall2 in E. clear -E.
      induction E as [|i it c items Hi _ IH]; constructor;
        [eapply getitem_In, Hi|exact IH]. }
    rewrite Forall_forall in Hit.
    unfold default_collate.
    rewrite (@same_width_Forall _ (map fst items) ks),
      (@same_width_Forall _ (map snd items) kt); [discriminate| |].
    + apply Forall_forall. intros y Hy.
      apply in_map_iff in Hy as (it & <- & Hin). apply Ht, Hit, Hin.
    + apply Forall_forall. intros x Hx.
      apply in_map_iff in Hx as (it & <- & Hin). apply Hs, Hit, Hin.
  - intros H. inversion H; subst e'. eapply mapM_getitem_raise, E.
Qed.

Section LoaderMore.

Variable feature_datasets : phase -> DatasetFolder.

(** The number of batches of a pass. *)
Lemma iter_loader_count ph g batches g' :
  iter_loader (dataloaders feature_datasets ph) g = Ok (batches, g') ->
  List.length batches = (len (feature_datasets ph) + 63) / 64
  /\ (len (feature_datasets ph) = 0 -> batches = [])
  /\ fold_right Nat.add 0 (map (fun b => List.length (fst b)) batches)
     = len (feature_datasets ph).
Proof.
  intros H. pose proof H as Hinv.
  apply iter_loader_inv in Hinv. cbv zeta in Hinv.
  destruct Hinv as (order & HP & _ & _ & H1 & _ & _).
  assert (Hn : List.length order = len (feature_datasets ph))
    by (rewrite (Permutation_length HP); apply length_seq).
  unfold iter_loader, sampler_indices in H. simpl in H.
  destruct (phase_eqb ph train && (len (feature_datasets ph) =? 0));
    [discriminate|].
  destruct (if phase_eqb ph train
            then permutation (len (feature_datasets ph)) (snd (draw g))
            else (seq 0 (len (feature_datasets ph)), snd (draw g)))
    as [order' g1] eqn:Eo.
  destruct (mapM (fetch (feature_datasets ph))
              (batch_sampler global_batch_size [] order')) as [bs|] eqn:Eb;
    simpl in H; [|discriminate].
  inversion H; subst bs g1; clear H.
  pose proof (fetch_all_inv _ _ Eb) as [H1' _].
  rewrite batch_sampler_concat in H1'. simpl in H1'.
  assert (Hn' : List.length order' = len (feature_datasets ph)).
  { rewrite <- Hn.
    rewrite <- (length_map (fun i => nth i (samples (feature_datasets ph)) [])
                  order'), <- H1', H1.
    apply length_map. }
  assert (Hlen : List.length batches = (len (feature_datasets ph) + 63) / 64).
  { rewrite (mapM_length _ _ Eb), batch_sampler_length;
      unfold global_batch_size; simpl; try lia.
    now rewrite Hn'. }
  split; [exact Hlen|]. split.
  - intros Hz. rewrite Hz in Hlen. simpl in Hlen.
    destruct batches; [reflexivity|discriminate].
  - rewrite <- (length_concat_map fst), H1, length_map. exact Hn.
Qed.

(** A pass over a loader that does not shuffle yields the same batches
    from every state of the generator. *)
Lemma iter_loader_eval_any ph g h batches g' :
  phase_eqb ph train = false ->
  iter_loader (dataloaders feature_datasets ph) g = Ok (batches, g') ->
  iter_loader (dataloaders feature_datasets ph) h
  = Ok (batches, snd (draw h)).
Proof.
  intros Hph. unfold iter_loader, sampler_indices. simpl. rewrite Hph. simpl.
  destruct (mapM _ _) as [bs|]; simpl; [|discriminate].
  intros H. inversion H; subst. reflexivity.
Qed.

(** X7. A pass that returns yields ceil(n / 64) batches for a split of [n]
    samples: none for an empty split, and the batch sizes add up to [n]. *)
Theorem dataloader_batch_count ph g batches g' :
  iter_loader (dataloaders feature_datasets ph) g = Ok (batches, g') ->
  List.length batches = (len (feature_datasets ph) + 63) / 64
  /\ (len (feature_datasets ph) = 0 -> batches = [])
  /\ fold_right Nat.add 0 (map (fun b => List.length (fst b)) batches)
     = len (feature_datasets ph).
Proof. exact (@iter_loader_count ph g batches g'). Qed.

(** X8. When a split holds fewer class vectors than samples, no pass over
    its loader returns: the length of the split is that of its samples,
    and the pass asks for each of its positions.  The pass raises
    [IndexError] when the samples are of one width and the class vectors
    are; otherwise a batch fetched earlier may fail to be stacked, with
    [RuntimeError]. *)
Theorem dataloader_short_targets ph g :
  let d := feature_datasets ph in
  List.length (targets d) < len d ->
  (exists e,
     iter_loader (dataloaders feature_datasets ph) g = Raise e
     /\ (e = IndexError \/ e = RuntimeError))
  /\ (same_width (samples d) = true ->
      same_width (targets d) = true ->
      iter_loader (dataloaders feature_datasets ph) g = Raise IndexError).
Proof.
  cbv zeta. intros Hshort. unfold iter_loader, sampler_indices. simpl.
  set (d := feature_datasets ph) in *. set (g0 := snd (draw g)).
  replace (len d =? 0) with false by (symmetry; apply Nat.eqb_neq; lia).
  rewrite andb_false_r.
  assert (HP : Permutation
                 (fst (if phase_eqb ph train then permutation (len d) g0
                       else (seq 0 (len d), g0)))
                 (seq 0 (len d))).
  { destruct (phase_eqb ph train);
      [apply permutation_Permutation|reflexivity]. }
  destruct (if phase_eqb ph train then permutation (len d) g0
            else (seq 0 (len d), g0)) as [order g1].
  simpl in HP.
  assert (Hex : exists c e,
            In c (batch_sampler global_batch_size [] order)
            /\ fetch d c = Raise e).
  { assert (Hin : In (List.length (targets d)) order).
    { apply (Permutation_in _ (Permutation_sym HP)), in_seq. lia. }
    rewrite <- (app_nil_l order),
      <- (batch_sampler_concat global_batch_size order []) in Hin.
    apply in_concat in Hin as (c & Hc & Hi).
    exists c. destruct (fetch d c) as [[inputs labels]|e] eqn:Ef; [|eauto].
    exfalso. unfold fetch in Ef.
    destruct (mapM (getitem d) c) as [items|] eqn:Em; [|discriminate].
    apply in_split in Hi as (c1 & c2 & ->).
    apply mapM_Forall2 in Em. apply Forall2_app_inv_l in Em
      as (l1 & l2 & _ & Hm & _).
    inversion Hm as [|? it ? ? Hget _]; subst.
    unfold getitem in Hget.
    destruct (nth_error (samples d) (List.length (targets d))); simpl in Hget;
      [|discriminate].
    rewrite (proj2 (nth_error_None (targets d) (List.length (targets d))))
      in Hget by lia.
    discriminate. }
  split.
  - destruct (@mapM_raise_only _ _ (fetch d)
                (fun e => e = IndexError \/ e = RuntimeError)
                (batch_sampler global_batch_size [] order))
      as (e & -> & He); [|exact Hex|simpl; eauto].
    intros c e _ Hc. eapply fetch_raise, Hc.
  - intros Hs Ht.
    destruct (@mapM_raise_only _ _ (fetch d) (fun e => e = IndexError)
                (batch_sampler global_batch_size [] order))
      as (e & -> & ->); [|exact Hex|reflexivity].
    intros c e _ Hc. eapply fetch_raise_uniform; eassumption.
Qed.

End LoaderMore.

(** X7 on the validation split of 130 samples. *)
Lemma dataloader_batch_count_witness :
  List.length [ramp_batch 0 64; ramp_batch 64 64; ramp_batch 128 2]
  = (len (ramp_datasets val) + 63) / 64
  /\ (len (ramp_datasets val) = 0 ->
      [ramp_batch 0 64; ramp_batch 64 64; ramp_batch 128 2] = [])
  /\ fold_right Nat.add 0
       (map (fun b => List.length (fst b))
            [ramp_batch 0 64; ramp_batch 64 64; ramp_batch 128 2])
     = len (ramp_datasets val).
Proof.
  apply (@dataloader_batch_count ramp_datasets val []
           [ramp_batch 0 64; ramp_batch 64 64; ramp_batch 128 2] []).
  vm_compute. reflexivity.
Defined.

(** X8 on a split of five samples of one width with three class
    vectors. *)
Lemma dataloader_short_targets_witness :
  iter_loader (dataloaders short_datasets train) [7; 4; 0; 2]
  = Raise IndexError.
Proof.
  apply (@dataloader_short_targets short_datasets train [7; 4; 0; 2]).
  - vm_compute. lia.
  - reflexivity.
  - reflexivity.
Defined.

(** ** The network on other inputs, and the predicted class *)

(** X9. On a row whose width is not 9 a network with the shapes of
    [Net.__init__] raises [RuntimeError]: the shapes do not match at
    [fc1]. *)
Theorem forward_wrong_width net x :
  Net_shape net = true ->
  (List.length x =? 9) = false ->
  forward net x = Raise RuntimeError.
Proof.
  unfold Net_shape, Linear_shape, forward, linear_forward.
  intros H Hx. apply andb_true_iff in H as [H _].
  apply andb_true_iff in H as [H Hw]. apply andb_true_iff in H as [Hn _].
  apply Nat.eqb_eq in Hn.
  destruct (weight (fc1 net)) as [|w ws]; [discriminate|].
  simpl in Hw |- *. apply andb_true_iff in Hw as [Hw _].
  apply Nat.eqb_eq in Hw. rewrite Hw, Nat.eqb_sym, Hx. reflexivity.
Qed.

(** X9 on the sample network and a row of width 3. *)
Lemma forward_wrong_width_witness :
  forward sample_net [1; 2; 3]%Q = Raise RuntimeError.
Proof.
  apply (@forward_wrong_width sample_net [1; 2; 3]%Q); reflexivity.
Defined.

(** [argmax_from] after the rows [pre] already seen. *)
Lemma argmax_from_spec row : forall pre best besti,
  besti < List.length pre ->
  nth besti pre 0%Q = best ->
  (forall j, j < List.length pre -> (nth j pre 0 <= best)%Q) ->
  (forall j, j < besti -> (nth j pre 0 < best)%Q) ->
  let r := argmax_from best besti (List.length pre) row in
  r < List.length (pre ++ row)
  /\ (forall j, j < List.length (pre ++ row) ->
                (nth j (pre ++ row) 0 <= nth r (pre ++ row) 0)%Q)
  /\ (forall j, j < r -> (nth j (pre ++ row) 0 < nth r (pre ++ row) 0)%Q).
Proof.
  induction row as [|v row IH]; intros pre best besti Hb Hbest Hle Hlt; simpl.
  - rewrite app_nil_r. rewrite Hbest. auto.
  - assert (Hlen : List.length (pre ++ [v]) = S (List.length pre))
      by (rewrite length_app; simpl; lia).
    replace (pre ++ v :: row) with ((pre ++ [v]) ++ row)
      by (now rewrite <- app_assoc).
    rewrite <- Hlen.
    assert (Hnth : forall j, j < List.length pre ->
                             nth j (pre ++ [v]) 0%Q = nth j pre 0%Q)
      by (intros j Hj; now apply app_nth1).
    assert (Hv : nth (List.length pre) (pre ++ [v]) 0%Q = v)
      by (rewrite app_nth2, Nat.sub_diag by lia; reflexivity).
    destruct (Qltb best v) eqn:E.
    + apply Qltb_lt in E. apply IH.
      * lia.
      * exact Hv.
      * intros j Hj. rewrite Hlen in Hj.
        destruct (Nat.eq_dec j (List.length pre)) as [->|Hne].
        -- rewrite Hv. apply Qle_refl.
        -- rewrite Hnth by lia. apply Qlt_le_weak.
           eapply Qle_lt_trans; [apply Hle; lia|exact E].
      * intros j Hj. rewrite Hnth by lia.
        eapply Qle_lt_trans; [apply Hle; lia|exact E].
    + apply Qltb_ge in E. apply IH.
      * lia.
      * rewrite Hnth by lia. exact Hbest.
      * intros j Hj. rewrite Hlen in Hj.
        destruct (Nat.eq_dec j (List.length pre)) as [->|Hne].
        -- rewrite Hv. exact E.
        -- rewrite Hnth by lia. apply Hle. lia.
      * intros j Hj. rewrite Hnth by lia. now apply Hlt.
Qed.

(** On a row that is not empty the predicted class
    ([torch.max(row, 1)]) is a position of the row, its entry is the
    greatest of the row, and every earlier entry is smaller. *)
Theorem argmax_first_greatest row :
  0 < List.length row ->
  argmax row < List.length row
  /\ (forall j, j < List.length row ->
                (nth j row 0 <= nth (argmax row) row 0)%Q)
  /\ (forall j, j < argmax row -> (nth j row 0 < nth (argmax row) row 0)%Q).
Proof.
  destruct row as [|v row]; simpl; [lia|]. intros _.
  assert (H : let r := argmax_from v 0 (List.length [v]) row in
              r < List.length ([v] ++ row)
              /\ (forall j, j < List.length ([v] ++ row) ->
                            (nth j ([v] ++ row) 0 <= nth r ([v] ++ row) 0)%Q)
              /\ (forall j, j < r ->
                            (nth j ([v] ++ row) 0 < nth r ([v] ++ row) 0)%Q)).
  { apply argmax_from_spec.
    - simpl. lia.
    - reflexivity.
    - intros [|j] Hj; simpl in *; [apply Qle_refl|lia].
    - intros j Hj. lia. }
  exact H.
Qed.

(** The same on a row whose greatest entry occurs twice. *)
Lemma argmax_first_greatest_witness :
  argmax [1; 3; 2; 3]%Q < 4
  /\ (forall j, j < 4 ->
                (nth j [1; 3; 2; 3] 0
                 <= nth (argmax [1; 3; 2; 3]) [1; 3; 2; 3] 0)%Q)
  /\ (forall j, j < argmax [1; 3; 2; 3]%Q ->
                (nth j [1; 3; 2; 3] 0
                 < nth (argmax [1; 3; 2; 3]) [1; 3; 2; 3] 0)%Q).
Proof.
  apply (@argmax_first_greatest [1; 3; 2; 3]%Q). simpl. lia.
Defined.

(** ** More on evaluation and on the model [train_model] returns *)

Lemma Qdiv_nat_bounds (a b : nat) :
  a <= b -> 0 < b ->
  (0 <= inject_Z (Z.of_nat a) / inject_Z (Z.of_nat b) <= 1)%Q.
Proof.
  intros Hab Hb.
  assert (Hpos : (0 < inject_Z (Z.of_nat b))%Q).
  { change 0%Q with (inject_Z 0). rewrite <- Zlt_Qlt. lia. }
  split.
  - apply Qle_shift_div_l; [exact Hpos|]. rewrite Qmult_0_l.
    change 0%Q with (inject_Z 0). rewrite <- Zle_Qle. lia.
  - apply Qle_shift_div_r; [exact Hpos|]. rewrite Qmult_1_l.
    rewrite <- Zle_Qle. lia.
Qed.

Lemma n_correct_le net d : n_correct net d <= len d.
Proof.
  unfold n_correct.
  eapply Nat.le_trans; [apply filter_length_le|]. now rewrite length_seq.
Qed.

Section TrainingMore.

Variables G O Sch : Type.
Variable zero_ : G -> G.
Variable accumulate : G -> G -> G.
Variable autograd : Net -> list (list Q) -> list nat -> G.
Variable opt_step : O -> Net -> option G -> O * Net.
Variable sched_step : Sch -> O -> Sch * O.
Variable criterion : list (list Q) -> list nat -> Q.
Variable feature_datasets : phase -> DatasetFolder.

#[local] Abbreviation world := (world G O Sch).
#[local] Abbreviation train_batches :=
  (@train_batches G O Sch zero_ accumulate autograd opt_step criterion).
#[local] Abbreviation test_batches := (@test_batches G O Sch criterion).
#[local] Abbreviation run_phase :=
  (@run_phase G O Sch zero_ accumulate autograd opt_step sched_step criterion
     feature_datasets).
#[local] Abbreviation epoch_body :=
  (@epoch_body G O Sch zero_ accumulate autograd opt_step sched_step criterion
     feature_datasets).
#[local] Abbreviation epoch_loop :=
  (@epoch_loop G O Sch zero_ accumulate autograd opt_step sched_step criterion
     feature_datasets).
#[local] Abbreviation train_model :=
  (@train_model G O Sch zero_ accumulate autograd opt_step sched_step criterion
     feature_datasets).
#[local] Abbreviation print_test_accuracy :=
  (@print_test_accuracy G O Sch criterion feature_datasets).
#[local] Abbreviation notebook_run :=
  (@notebook_run G O Sch zero_ accumulate autograd opt_step sched_step
     criterion feature_datasets).
#[local] Abbreviation iter_dataloader :=
  (@iter_dataloader G O Sch feature_datasets).
#[local] Abbreviation dataloaders := (dataloaders feature_datasets).
#[local] Abbreviation dataset_sizes := (dataset_sizes feature_datasets).
#[local] Abbreviation div_size := (div_size feature_datasets).
#[local] Abbreviation pass_metrics :=
  (pass_metrics criterion feature_datasets).

Lemma pass_metrics_acc_bounds ph net batches loss acc :
  pass_metrics ph net batches loss acc -> (0 <= acc <= 1)%Q.
Proof.
  intros (Hpos & _ & _ & ->). apply Qdiv_nat_bounds; [|exact Hpos].
  apply n_correct_le.
Qed.

(** X10. The accuracy [print_test_accuracy] prints is between 0 and 1. *)
Theorem print_test_accuracy_between_0_and_1 ph w u w' :
  print_test_accuracy ph w = Ok (u, w') ->
  exists loss acc,
    stdout w' = stdout w ++ [Ptest loss acc] /\ (0 <= acc <= 1)%Q.
Proof.
  intros H. eapply print_test_accuracy_inv in H.
  destruct H as (batches & loss & acc & _ & _ & _ & _ & Hout & Hm).
  exists loss, acc. split; [exact Hout|].
  eapply pass_metrics_acc_bounds, Hm.
Qed.

(** X11. Over a validation or test split without samples
    [print_test_accuracy] raises [ZeroDivisionError]: no batch is yielded
    and the totals are divided by the size of the split. *)
Theorem print_test_accuracy_empty_split ph w :
  phase_eqb ph train = false ->
  len (feature_datasets ph) = 0 ->
  print_test_accuracy ph w = Raise ZeroDivisionError.
Proof.
  intros Hph Hlen.
  unfold print_test_accuracy, pbind, model_train, set_model, modify,
    iter_dataloader, iter_loader, sampler_indices.
  simpl. rewrite Hph, Hlen. simpl.
  unfold lift, div_size, dataset_sizes. rewrite Hlen. reflexivity.
Qed.

Lemma test_batches_same_params batches : forall rl rc w res w' v,
  test_batches batches rl rc w = Ok (res, w') ->
  params (model v) = params (model w) ->
  test_batches batches rl rc v = Ok (res, v).
Proof.
  induction batches as [|[inputs labels] rest IH];
    intros rl rc w res w' v H Hv.
  - inversion H; subst. reflexivity.
  - simpl in *. unfold pbind, gets, lift in *. simpl in *. rewrite Hv.
    destruct (forward_batch (params (model w)) inputs) as [outputs|];
      [|discriminate].
    eapply IH; eassumption.
Qed.

(** X12. Over the validation or the test split the line
    [print_test_accuracy] prints depends on the parameters of the model
    only: after a call that returned, a call from any state with the same
    parameters returns and prints the same line, whatever the state of the
    generator; so does a second call right after the first. *)
Theorem print_test_accuracy_repeatable ph w u w1 :
  phase_eqb ph train = false ->
  print_test_accuracy ph w = Ok (u, w1) ->
  exists l,
    stdout w1 = stdout w ++ [l]
    /\ (forall v,
          params (model v) = params (model w) ->
          exists v',
            print_test_accuracy ph v = Ok (tt, v')
            /\ stdout v' = stdout v ++ [l])
    /\ exists w2,
         print_test_accuracy ph w1 = Ok (tt, w2)
         /\ stdout w2 = stdout w1 ++ [l].
Proof.
  intros Hph H. unfold print_test_accuracy in H.
  apply pbind_inv in H as ([] & w0 & H0 & H).
  inversion H0; subst w0; clear H0.
  apply pbind_inv in H as (batches & wa & Ha & H).
  apply iter_dataloader_inv in Ha as (Hit & Hma & Hoa & Hsa & Hpa).
  simpl in Hit, Hma, Hoa, Hsa, Hpa.
  apply pbind_inv in H as ([rl rc] & wb & Hb & H).
  pose proof Hb as Hb'. eapply test_batches_inv in Hb'.
  destruct Hb' as [-> _].
  apply pbind_inv in H as (loss & wc & Hc & H).
  apply lift_inv in Hc as [Hl ->].
  apply pbind_inv in H as (acc & wd & Hd & H).
  apply lift_inv in Hd as [Hacc ->].
  inversion H; subst w1; clear H.
  assert (Hany : forall v,
            params (model v) = params (model w) ->
            exists v',
              print_test_accuracy ph v = Ok (tt, v')
              /\ stdout v' = stdout v ++ [Ptest loss acc]).
  { intros v Hv. eexists. split.
    - unfold print_test_accuracy.
      rewrite (@pbind_ok _ _ _ (model_train false) _ _ tt _ eq_refl).
      unfold iter_dataloader at 1. unfold pbind at 1. simpl torch_random.
      rewrite (@iter_loader_eval_any feature_datasets ph _ (torch_random v)
                 _ _ Hph Hit).
      match goal with
      | |- pbind (test_batches batches ?rl0 ?rc0) _ ?v0 = _ =>
          rewrite (@pbind_ok _ _ _ (test_batches batches rl0 rc0) _ v0
                     (rl, rc) v0)
      end.
      + unfold pbind, lift. rewrite Hl, Hacc. unfold print, modify. simpl.
        reflexivity.
      + eapply test_batches_same_params; [exact Hb|].
        simpl. rewrite Hma. simpl. exact Hv.
    - reflexivity. }
  exists (Ptest loss acc).
  split; [simpl; now rewrite Hpa|]. split; [exact Hany|].
  apply Hany. simpl. now rewrite Hma.
Qed.

Lemma train_batches_mode ph batches : forall rl rc w res w',
  train_batches ph batches rl rc w = Ok (res, w') ->
  training (model w') = training (model w).
Proof.
  induction batches as [|[inputs labels] rest IH]; intros rl rc w res w' H.
  - inversion H; subst. reflexivity.
  - simpl in H.
    unfold pbind, gets, lift, zero_grad, set_model, modify, pret in H.
    simpl in H.
    destruct (forward_batch (params (model w)) inputs) as [outputs|];
      [|discriminate].
    destruct (phase_eqb ph train).
    + unfold loss_backward, optimizer_step, set_model, modify, pbind in H.
      simpl in H.
      destruct (opt_step _ _ _) as [o p] in H.
      apply IH in H. simpl in H. exact H.
    + apply IH in H. simpl in H. exact H.
Qed.

(** After a phase the model is in training mode exactly when the phase was
    the training phase. *)
Lemma run_phase_mode ph b w b' w' :
  run_phase ph b w = Ok (b', w') ->
  training (model w') = phase_eqb ph train.
Proof.
  intros H. unfold run_phase in H.
  apply pbind_inv in H as ([] & w1 & H1 & H).
  assert (Hm1 : training (model w1) = phase_eqb ph train).
  { destruct (phase_eqb ph train).
    - apply pbind_inv in H1 as ([] & w0 & H0 & H1).
      inversion H1; subst. reflexivity.
    - inversion H1; subst. reflexivity. }
  apply pbind_inv in H as (batches & w2 & H2 & H).
  apply iter_dataloader_inv in H2 as (_ & Hm2 & _).
  apply pbind_inv in H as ([rl rc] & w3 & H3 & H).
  apply train_batches_mode in H3.
  apply pbind_inv in H as (loss & w4 & H4 & H).
  apply lift_inv in H4 as [_ ->].
  apply pbind_inv in H as (acc & w5 & H5 & H).
  apply lift_inv in H5 as [_ ->].
  apply pbind_inv in H as ([] & w6 & H6 & H).
  inversion H6; subst w6; clear H6.
  destruct (phase_eqb ph val && _); inversion H; subst; simpl; congruence.
Qed.

Lemma epoch_body_mode n e b w b' w' :
  epoch_body n e b w = Ok (b', w') -> training (model w') = false.
Proof.
  intros H. unfold epoch_body in H.
  apply pbind_inv in H as ([] & w1 & H1 & H).
  apply pbind_inv in H as (b2 & w2 & H2 & H).
  simpl in H2.
  apply pbind_inv in H2 as (b1 & w3 & H3 & H2).
  apply pbind_inv in H2 as (b3 & w4 & H4 & H2).
  inversion H2; subst; clear H2.
  apply run_phase_mode in H4.
  apply pbind_inv in H as ([] & w5 & H5 & H).
  inversion H5; subst w5; clear H5.
  inversion H; subst. simpl. exact H4.
Qed.

Lemma epoch_loop_mode n es : forall b w b' w',
  epoch_loop n es b w = Ok (b', w') ->
  training (model w')
  = match es with [] => training (model w) | _ => false end.
Proof.
  induction es as [|e es IH]; intros b w b' w' H.
  - inversion H; subst. reflexivity.
  - simpl in H. apply pbind_inv in H as (b1 & w1 & H1 & H).
    apply epoch_body_mode in H1. apply IH in H.
    destruct es; congruence.
Qed.

Lemma train_model_returns_world_model n w m w' :
  train_model n w = Ok (m, w') -> m = model w'.
Proof.
  intros H. unfold train_model in H.
  repeat (apply pbind_inv in H as (? & ? & _ & H)).
  inversion H. reflexivity.
Qed.

(** X13. The model [train_model] returns is in evaluation mode as soon as
    one epoch has run; without any epoch its mode is left as it was. *)
Theorem train_model_leaves_eval_mode n w m w' :
  train_model n w = Ok (m, w') ->
  training m = if n =? 0 then training (model w) else false.
Proof.
  intros H. unfold train_model in H.
  apply pbind_inv in H as (wts & w0 & H0 & H).
  inversion H0; subst wts w0; clear H0.
  apply pbind_inv in H as ([] & w1 & H1 & H).
  inversion H1; subst w1; clear H1.
  apply pbind_inv in H as ([] & w2 & H2 & H).
  inversion H2; subst w2; clear H2.
  apply pbind_inv in H as (b & w3 & H3 & H).
  apply epoch_loop_mode in H3. simpl in H3.
  inversion H; subst m w'; clear H. simpl. rewrite H3.
  destruct n; reflexivity.
Qed.

(** X14. The last cell measures the test split on the model [train_model]
    returned: the test line is its last output, its loss and accuracy are
    those of the parameters of that model over the batches of the test
    loader, and these are the parameters the model has at the end. *)
Theorem notebook_run_tests_returned_model n w u w' :
  notebook_run n w = Ok (u, w') ->
  exists m w1 batches loss acc,
    train_model n w = Ok (m, w1)
    /\ iter_loader (dataloaders test) (torch_random w1)
       = Ok (batches, torch_random w')
    /\ params (model w') = params m
    /\ stdout w' = stdout w1 ++ [Ptest loss acc]
    /\ pass_metrics test (params m) batches loss acc.
Proof.
  intros H. unfold notebook_run in H.
  apply pbind_inv in H as (m & w1 & H1 & H).
  pose proof (train_model_returns_world_model _ _ H1) as Hm.
  eapply print_test_accuracy_inv in H.
  destruct H as (batches & loss & acc & Hit & Hp & _ & _ & Hout & Hmet).
  exists m, w1, batches, loss, acc.
  split; [exact H1|]. split; [exact Hit|]. split; [now rewrite Hp, Hm|].
  split; [exact Hout|]. rewrite Hm. exact Hmet.
Qed.

Lemma epoch_body_best_bounded n e b w b' w' :
  epoch_body n e b w = Ok (b', w') ->
  (0 <= best_acc b <= 1)%Q -> (0 <= best_acc b' <= 1)%Q.
Proof.
  intros H Hb. unfold epoch_body in H.
  apply pbind_inv in H as ([] & w1 & H1 & H).
  apply pbind_inv in H as (b2 & w2 & H2 & H).
  simpl in H2.
  apply pbind_inv in H2 as (b1 & w3 & H3 & H2).
  eapply run_phase_train in H3. destruct H3 as [-> _].
  apply pbind_inv in H2 as (b3 & w4 & H4 & H2).
  inversion H2; subst; clear H2.
  eapply run_phase_eval in H4; [|reflexivity].
  destruct H4 as (batches & l2 & a2 & _ & _ & _ & _ & _ & Hm & Hb2).
  apply pbind_inv in H as ([] & w5 & H5 & H).
  inversion H; subst; clear H.
  destruct (phase_eqb val val && Qltb (best_acc b) a2); [|exact Hb].
  simpl. eapply pass_metrics_acc_bounds, Hm.
Qed.

Lemma epoch_loop_best_bounded n es : forall b w b' w',
  epoch_loop n es b w = Ok (b', w') ->
  (0 <= best_acc b <= 1)%Q -> (0 <= best_acc b' <= 1)%Q.
Proof.
  induction es as [|e es IH]; intros b w b' w' H Hb.
  - inversion H; subst. exact Hb.
  - simpl in H. apply pbind_inv in H as (b1 & w1 & H1 & H).
    eapply IH; [exact H|]. eapply epoch_body_best_bounded; eassumption.
Qed.

(** X15. The last line [train_model] prints is the best validation
    accuracy, and it is between 0 and 1. *)
Theorem train_model_best_between_0_and_1 n w m w' :
  train_model n w = Ok (m, w') ->
  exists a, last (stdout w') Pblank = Pbest a /\ (0 <= a <= 1)%Q.
Proof.
  intros H. unfold train_model in H.
  apply pbind_inv in H as (wts & w0 & H0 & H).
  inversion H0; subst wts w0; clear H0.
  apply pbind_inv in H as ([] & w1 & H1 & H).
  inversion H1; subst w1; clear H1.
  apply pbind_inv in H as ([] & w2 & H2 & H).
  inversion H2; subst w2; clear H2.
  apply pbind_inv in H as (b & w3 & H3 & H).
  apply epoch_loop_best_bounded in H3;
    [|simpl; split; [apply Qle_refl|discriminate]].
  inversion H; subst m w'; clear H. simpl.
  exists (best_acc b). split; [apply last_last|exact H3].
Qed.

End TrainingMore.

(** X10 on the test pass from [toy_world]. *)
Lemma print_test_accuracy_between_0_and_1_witness :
  exists loss acc,
    stdout (snd toy_test_pass) = stdout toy_world ++ [Ptest loss acc]
    /\ (0 <= acc <= 1)%Q.
Proof.
  apply (@print_test_accuracy_between_0_and_1 unit nat nat toy_criterion
           toy_datasets test toy_world (fst toy_test_pass)
           (snd toy_test_pass)).
  vm_compute. reflexivity.
Defined.

(** X11 on the splits with an empty test split. *)
Lemma print_test_accuracy_empty_split_witness :
  print_test_accuracy toy_criterion no_test_datasets test toy_world
  = Raise ZeroDivisionError.
Proof.
  apply (@print_test_accuracy_empty_split unit nat nat toy_criterion
           no_test_datasets test toy_world); reflexivity.
Defined.

(** X12 on the test pass from [toy_world], which draws from the
    generator. *)
Lemma print_test_accuracy_repeatable_witness :
  torch_random (snd toy_test_pass) <> torch_random toy_world
  /\ exists l,
       stdout (snd toy_test_pass) = stdout toy_world ++ [l]
       /\ (forall v : world unit nat nat,
             params (model v) = params (model toy_world) ->
             exists v',
               print_test_accuracy toy_criterion toy_datasets test v
               = Ok (tt, v')
               /\ stdout v' = stdout v ++ [l])
       /\ exists w2,
            print_test_accuracy toy_criterion toy_datasets test
              (snd toy_test_pass)
            = Ok (tt, w2)
            /\ stdout w2 = stdout (snd toy_test_pass) ++ [l].
Proof.
  split; [discriminate|].
  apply (@print_test_accuracy_repeatable unit nat nat toy_criterion
           toy_datasets test toy_world (fst toy_test_pass)
           (snd toy_test_pass)).
  - reflexivity.
  - vm_compute. reflexivity.
Defined.

(** X13 on the run of four epochs from [toy_world], whose model starts in
    training mode. *)
Lemma train_model_leaves_eval_mode_witness :
  training (model toy_world) = true
  /\ training (fst toy_run4)
     = if 4 =? 0 then training (model toy_world) else false.
Proof.
  split; [reflexivity|].
  apply (@train_model_leaves_eval_mode unit nat nat toy_zero toy_accumulate
           toy_autograd toy_opt_step toy_sched_step toy_criterion toy_datasets
           4 toy_world (fst toy_run4) (snd toy_run4)).
  vm_compute. reflexivity.
Defined.

(** X14 on the last cell with four epochs from [toy_world]. *)
Lemma notebook_run_tests_returned_model_witness :
  exists m w1 batches loss acc,
    toy_train_model 4 toy_world = Ok (m, w1)
    /\ iter_loader (dataloaders toy_datasets test) (torch_random w1)
       = Ok (batches, torch_random (snd toy_notebook4))
    /\ params (model (snd toy_notebook4)) = params m
    /\ stdout (snd toy_notebook4) = stdout w1 ++ [Ptest loss acc]
    /\ pass_metrics toy_criterion toy_datasets test (params m) batches loss
         acc.
Proof.
  apply (@notebook_run_tests_returned_model unit nat nat toy_zero
           toy_accumulate toy_autograd toy_opt_step toy_sched_step
           toy_criterion toy_datasets 4 toy_world (fst toy_notebook4)
           (snd toy_notebook4)).
  vm_compute. reflexivity.
Defined.

(** X15 on the run of four epochs from [toy_world]. *)
Lemma train_model_best_between_0_and_1_witness :
  exists a,
    last (stdout (snd toy_run4)) Pblank = Pbest a /\ (0 <= a <= 1)%Q.
Proof.
  apply (@train_model_best_between_0_and_1 unit nat nat toy_zero
           toy_accumulate toy_autograd toy_opt_step toy_sched_step
           toy_criterion toy_datasets 4 toy_world (fst toy_run4)
           (snd toy_run4)).
  vm_compute. reflexivity.
Defined.

(** ** The number of optimizer and scheduler steps *)

Section CountedStepsFacts.

Variables G OS SS : Type.
Variable zero_ : G -> G.
Variable accumulate : G -> G -> G.
Variable autograd : Net -> list (list Q) -> list nat -> G.
Variable opt_step0 : OS -> Net -> option G -> OS * Net.
Variable sched_step0 : SS -> OS -> SS * OS.
Variable criterion : list (list Q) -> list nat -> Q.
Variable feature_datasets : phase -> DatasetFolder.

#[local] Abbreviation world := (world G (nat * OS) (nat * SS)).
#[local] Abbreviation train_batches :=
  (@train_batches G (nat * OS) (nat * SS) zero_ accumulate autograd
     (counted_opt_step opt_step0) criterion).
#[local] Abbreviation run_phase :=
  (@run_phase G (nat * OS) (nat * SS) zero_ accumulate autograd
     (counted_opt_step opt_step0) (counted_sched_step sched_step0) criterion
     feature_datasets).
#[local] Abbreviation epoch_body :=
  (@epoch_body G (nat * OS) (nat * SS) zero_ accumulate autograd
     (counted_opt_step opt_step0) (counted_sched_step sched_step0) criterion
     feature_datasets).
#[local] Abbreviation epoch_loop :=
  (@epoch_loop G (nat * OS) (nat * SS) zero_ accumulate autograd
     (counted_opt_step opt_step0) (counted_sched_step sched_step0) criterion
     feature_datasets).
#[local] Abbreviation train_model :=
  (@train_model G (nat * OS) (nat * SS) zero_ accumulate autograd
     (counted_opt_step opt_step0) (counted_sched_step sched_step0) criterion
     feature_datasets).

#[local] Abbreviation steps_per_epoch := (steps_per_epoch feature_datasets).

Lemma counted_train_batches batches : forall rl rc w res w',
  train_batches train batches rl rc w = Ok (res, w') ->
  fst (optimizer w') = fst (optimizer w) + List.length batches
  /\ scheduler w' = scheduler w.
Proof.
  induction batches as [|[inputs labels] rest IH]; intros rl rc w res w' H.
  - inversion H; subst. simpl. split; [lia|reflexivity].
  - simpl in H.
    unfold pbind, gets, lift, zero_grad, set_model, modify, pret in H.
    simpl in H.
    destruct (forward_batch (params (model w)) inputs) as [outputs|];
      [|discriminate].
    unfold loss_backward, optimizer_step, set_model, modify, pbind in H.
    simpl in H. unfold counted_opt_step in H.
    destruct (opt_step0 _ _ _) as [o p] in H.
    apply IH in H. simpl in H. destruct H as [Ho Hs].
    cbn [List.length]. split; [lia|exact Hs].
Qed.

Lemma counted_run_phase_train b w b' w' :
  run_phase train b w = Ok (b', w') ->
  fst (optimizer w') = fst (optimizer w) + steps_per_epoch
  /\ fst (scheduler w') = S (fst (scheduler w)).
Proof.
  intros H. unfold run_phase in H. simpl phase_eqb in H. cbv iota in H.
  apply pbind_inv in H as ([] & w1 & H1 & H).
  apply pbind_inv in H1 as ([] & w0 & H0 & H1).
  assert (Hc1 : fst (optimizer w1) = fst (optimizer w)
                /\ fst (scheduler w1) = S (fst (scheduler w))).
  { unfold scheduler_step, modify, counted_sched_step in H0.
    destruct (sched_step0 (snd (scheduler w)) (snd (optimizer w))) as [sc o].
    inversion H0; subst w0. inversion H1; subst w1. simpl. auto. }
  apply pbind_inv in H as (batches & w2 & H2 & H).
  eapply iter_dataloader_inv in H2.
  destruct H2 as (Hit & _ & Ho2 & Hs2 & _).
  apply iter_loader_count in Hit as [Hlen _].
  apply pbind_inv in H as ([rl rc] & w3 & H3 & H).
  apply counted_train_batches in H3 as [Ho3 Hs3].
  apply pbind_inv in H as (loss & w4 & H4 & H).
  apply lift_inv in H4 as [_ ->].
  apply pbind_inv in H as (acc & w5 & H5 & H).
  apply lift_inv in H5 as [_ ->].
  apply pbind_inv in H as ([] & w6 & H6 & H).
  inversion H6; subst w6; clear H6.
  inversion H; subst; clear H. simpl.
  unfold steps_per_epoch. rewrite Ho3, Hs3, Ho2, Hs2, Hlen.
  destruct Hc1 as [-> ->]. auto.
Qed.

Lemma counted_epoch_body n e b w b' w' :
  epoch_body n e b w = Ok (b', w') ->
  fst (optimizer w') = fst (optimizer w) + steps_per_epoch
  /\ fst (scheduler w') = S (fst (scheduler w)).
Proof.
  intros H. unfold epoch_body in H.
  apply pbind_inv in H as ([] & w1 & H1 & H).
  inversion H1; subst w1; clear H1.
  apply pbind_inv in H as (b2 & w2 & H2 & H).
  simpl in H2.
  apply pbind_inv in H2 as (b1 & w3 & H3 & H2).
  apply counted_run_phase_train in H3 as [Ho3 Hs3].
  apply pbind_inv in H2 as (b3 & w4 & H4 & H2).
  inversion H2; subst; clear H2.
  eapply run_phase_eval in H4; [|reflexivity].
  destruct H4 as (batches & l2 & a2 & _ & _ & Ho4 & Hs4 & _).
  apply pbind_inv in H as ([] & w5 & H5 & H).
  inversion H5; subst w5; clear H5.
  inversion H; subst; clear H. simpl in *.
  rewrite Ho4, Hs4, Ho3, Hs3. auto.
Qed.

Lemma counted_epoch_loop n es : forall b w b' w',
  epoch_loop n es b w = Ok (b', w') ->
  fst (optimizer w')
  = fst (optimizer w) + List.length es * steps_per_epoch
  /\ fst (scheduler w') = fst (scheduler w) + List.length es.
Proof.
  induction es as [|e es IH]; intros b w b' w' H.
  - inversion H; subst. simpl. split; lia.
  - simpl in H. apply pbind_inv in H as (b1 & w1 & H1 & H).
    apply counted_epoch_body in H1 as [Ho1 Hs1].
    apply IH in H as [Ho Hs]. simpl. rewrite Ho, Hs, Ho1, Hs1. split; lia.
Qed.

(** X16. [train_model] calls [scheduler.step()] once per epoch and
    [optimizer.step()] once per training batch: over [n] epochs, [n]
    scheduler steps and [n * ceil(N / 64)] optimizer steps for a training
    split of [N] samples, whatever the optimizer and the scheduler do. *)
Theorem train_model_step_counts n w m w' :
  train_model n w = Ok (m, w') ->
  fst (optimizer w') = fst (optimizer w) + n * steps_per_epoch
  /\ fst (scheduler w') = fst (scheduler w) + n.
Proof.
  intros H. unfold train_model in H.
  apply pbind_inv in H as (wts & w0 & H0 & H).
  inversion H0; subst wts w0; clear H0.
  apply pbind_inv in H as ([] & w1 & H1 & H).
  inversion H1; subst w1; clear H1.
  apply pbind_inv in H as ([] & w2 & H2 & H).
  inversion H2; subst w2; clear H2.
  apply pbind_inv in H as (b & w3 & H3 & H).
  apply counted_epoch_loop in H3 as [Ho Hs].
  rewrite length_seq in Ho, Hs. simpl in Ho, Hs.
  inversion H; subst m w'; clear H. simpl. auto.
Qed.

End CountedStepsFacts.

(** X16 on the run of four epochs with counters. *)
Lemma train_model_step_counts_witness :
  fst (optimizer (snd toy_counted_run4))
  = fst (optimizer toy_counted_world) + 4 * steps_per_epoch toy_datasets
  /\ fst (scheduler (snd toy_counted_run4))
     = fst (scheduler toy_counted_world) + 4.
Proof.
  apply (@train_model_step_counts unit nat nat toy_zero toy_accumulate
           toy_autograd toy_opt_step toy_sched_step toy_criterion toy_datasets
           4 toy_counted_world (fst toy_counted_run4)
           (snd toy_counted_run4)).
  vm_compute. reflexivity.
Defined.

(** ** The datasets the notebook builds from the splits *)

Section PipelineFacts.

Variable float_of_str : string -> option Q.
Variable scaler : Type.
Variable fit : list (list Q) -> scaler.
Variable transform : scaler -> list Q -> list Q.
Variable float32 : Q -> Q.

#[local] Abbreviation load_and_split :=
  (@load_and_split float_of_str scaler).
#[local] Abbreviation make_dataset :=
  (@make_dataset float_of_str scaler).

(** X17. When the cell that loads and splits the data returns, at least
    three rows were loaded ([train_test_split] refuses an empty training
    subset), each of the three datasets built from the splits has at least
    one sample and as many class vectors as samples, and their sizes add up
    to the number of loaded rows. *)
Theorem load_and_split_datasets file w s w' :
  load_and_split fit transform float32 file w = Ok (s, w') ->
  3 <= List.length (kept_rows file)
  /\ (forall ph,
        0 < len (feature_datasets_of s ph)
        /\ List.length (targets (feature_datasets_of s ph))
           = len (feature_datasets_of s ph))
  /\ dataset_sizes (feature_datasets_of s) train
     + dataset_sizes (feature_datasets_of s) val
     + dataset_sizes (feature_datasets_of s) test
     = List.length (kept_rows file).
Proof.
  unfold load_and_split, pbind.
  destruct (make_dataset fit transform float32 file w)
    as [[[X y] w1]|] eqn:E; [|discriminate].
  intros H.
  apply (@make_dataset_rows float_of_str _ fit transform float32) in E
    as (Xf & HX & _ & -> & -> & ->).
  apply mapM_length in HX.
  apply split_twice_inv in H. cbv zeta in H.
  unfold standardized in H. rewrite !length_map in H. rewrite HX in H.
  set (n := List.length (kept_rows file)) in *.
  destruct H as (i_train & i_val & i_test & HP & _ & Hxt & Hyt & Hxv & Hyv
                 & Hxe & Hye & Hle & Hlv & Hlt & Hn1 & Hn2 & _).
  apply Permutation_length in HP.
  rewrite !length_app, length_seq in HP.
  assert (D : forall m c, 0 < c -> m = c * (m / c) + m mod c /\ m mod c < c).
  { intros m c Hc. split; [apply Nat.div_mod|apply Nat.mod_upper_bound]; lia. }
  destruct (D (n + 4) 5 ltac:(lia)) as [D1 D2].
  destruct (D (n - (n + 4) / 5 + 3) 4 ltac:(lia)) as [D3 D4].
  unfold dataset_sizes, len.
  split; [lia|]. split.
  - intros ph. destruct ph; simpl;
      rewrite ?Hxt, ?Hyt, ?Hxv, ?Hyv, ?Hxe, ?Hye, !length_map;
      split; try reflexivity; lia.
  - simpl. rewrite Hxt, Hxv, Hxe, !length_map. lia.
Qed.

End PipelineFacts.

(** X17 on the sample file. *)
Lemma load_and_split_datasets_witness :
  3 <= List.length (kept_rows sample_file)
  /\ (forall ph,
        0 < len (feature_datasets_of sample_splits ph)
        /\ List.length (targets (feature_datasets_of sample_splits ph))
           = len (feature_datasets_of sample_splits ph))
  /\ dataset_sizes (feature_datasets_of sample_splits) train
     + dataset_sizes (feature_datasets_of sample_splits) val
     + dataset_sizes (feature_datasets_of sample_splits) test
     = List.length (kept_rows sample_file).
Proof.
  apply (@load_and_split_datasets decimal_float _ centre_fit
           centre_transform exact
           sample_file prep0 sample_splits
           {| np_random := [0; 3; 1];
              calls := [Eread_csv; Efit_transform sample_floats;
                        Etrain_test_split 3 (20 # 100);
                        Etrain_test_split 2 (25 # 100)] |}).
  vm_compute. reflexivity.
Defined.
